(** * Metadata registry API (dapps/meta-tracer/api/app.py)

    A shallow embedding of the request handlers of the FastAPI service:
    [_b32], [_sha256_hex], [create], [update], [get_one] and
    [list_metadata], together with the parts of the Python and web3
    libraries they call, and of the start-up code [_install_solc_once],
    [_compile_contract] and [_load_or_deploy_contract].

    Conventions.
    - A Python [bytes] value is a [list byte].
    - A Python [str] is held as the [string] of its UTF-8 bytes, so that
      [str.encode()] is the change of type [encode]; a character that is not
      ASCII shows up as bytes above 127.
    - Unsigned contract integers (version, timestamps) are [N]; Python's
      [int] is unbounded, so [current_ver + 1] never wraps.
    - The handlers run in the monad [M]: a world is threaded through, every
      external effect is appended to a trace, and an exception stops the
      handler. *)

From Stdlib Require Import ZArith NArith Ascii String List Lia.
From Stdlib Require Import Numbers.DecimalString Numbers.DecimalPos.
From Stdlib Require Import Numbers.DecimalN Strings.Byte Sorting.Sorted.
From Stdlib Require Import Sorting.Permutation.
From stdpp Require Import base option list strings gmap.

Open Scope string_scope.

(** ** Bytes, text and hexadecimal *)

Abbreviation bytes := (list byte).

(** [str.encode()] under the UTF-8 convention. *)
Definition encode (s : string) : bytes := list_byte_of_string s.

(** Truth value of an [Optional[str]]: [None] and the empty string are
    false. *)
Definition truthy (o : option string) : bool :=
  match o with
  | Some (String _ _) => true
  | _ => false
  end.

(** [s.startswith("0x")] and the slice [s[2:]] taken when it holds. *)
Definition startswith_0x (s : string) : bool :=
  match s with
  | String "0" (String "x" _) => true
  | _ => false
  end.

Definition strip_0x (s : string) : string :=
  match s with
  | String "0" (String "x" r) => r
  | _ => s
  end.

(** Value of a hexadecimal digit, either case. *)
Definition hexval (c : ascii) : option N :=
  let n := N_of_ascii c in
  if (48 <=? n)%N && (n <=? 57)%N then Some (n - 48)%N
  else if (97 <=? n)%N && (n <=? 102)%N then Some (n - 87)%N
  else if (65 <=? n)%N && (n <=? 70)%N then Some (n - 55)%N
  else None.

Definition is_hex_digit (c : ascii) : bool :=
  match hexval c with Some _ => true | None => false end.

Definition is_ascii (c : ascii) : bool := (N_of_ascii c <? 128)%N.

(** Lower-case hexadecimal digit of a value below 16. *)
Definition hexdigit (n : N) : ascii :=
  if (n <? 10)%N then ascii_of_N (48 + n) else ascii_of_N (87 + n).

Definition byte_of_N (n : N) : byte :=
  match Byte.of_N (n mod 256) with
  | Some b => b
  | None => x00
  end.

(** [bytes.hex()]: two lower-case digits per byte. *)
Fixpoint hex (b : bytes) : string :=
  match b with
  | [] => ""
  | x :: r =>
      String (hexdigit (Byte.to_N x / 16))
        (String (hexdigit (Byte.to_N x mod 16)) (hex r))
  end.

(** Digit pairs to bytes; [None] on a digit that is not hexadecimal or on
    an odd number of digits. *)
Fixpoint unhex (s : string) : option bytes :=
  match s with
  | "" => Some []
  | String a (String b r) =>
      match hexval a, hexval b, unhex r with
      | Some h, Some l, Some bs => Some (byte_of_N (16 * h + l) :: bs)
      | _, _, _ => None
      end
  | String _ "" => None
  end.

Fixpoint forallb_string (p : ascii -> bool) (s : string) : bool :=
  match s with
  | "" => true
  | String c r => p c && forallb_string p r
  end.

(** ** The two digests

    [hashlib.sha256] and [Web3.keccak] are library functions; they are
    written out here (FIPS 180-4 and Keccak-f[1600] with rate 1088 and the
    original 0x01 padding) so that the handlers can be run on concrete
    requests. *)

Definition byte_of_Z (z : Z) : byte := byte_of_N (Z.to_N (z mod 256)).
Definition Z_of_byte (b : byte) : Z := Z.of_N (Byte.to_N b).

(** Consecutive blocks of [n] elements; [fuel] bounds the number of
    blocks. *)
Fixpoint chunks {A : Type} (fuel n : nat) (l : list A) : list (list A) :=
  match fuel with
  | O => []
  | S k =>
      match l with
      | [] => []
      | _ :: _ => firstn n l :: chunks k n (skipn n l)
      end
  end.

Module SHA256.
Local Open Scope Z_scope.

Definition w32 (x : Z) : Z := x mod 2 ^ 32.
Definition add32 (x y : Z) : Z := w32 (x + y).
Definition rotr (n x : Z) : Z :=
  Z.lor (Z.shiftr x n) (w32 (Z.shiftl x (32 - n))).
Definition not32 (x : Z) : Z := Z.lxor x 0xffffffff.

Definition Ch (x y z : Z) : Z := Z.lxor (Z.land x y) (Z.land (not32 x) z).
Definition Maj (x y z : Z) : Z :=
  Z.lxor (Z.lxor (Z.land x y) (Z.land x z)) (Z.land y z).
Definition bsig0 (x : Z) : Z := Z.lxor (Z.lxor (rotr 2 x) (rotr 13 x)) (rotr 22 x).
Definition bsig1 (x : Z) : Z := Z.lxor (Z.lxor (rotr 6 x) (rotr 11 x)) (rotr 25 x).
Definition ssig0 (x : Z) : Z := Z.lxor (Z.lxor (rotr 7 x) (rotr 18 x)) (Z.shiftr x 3).
Definition ssig1 (x : Z) : Z := Z.lxor (Z.lxor (rotr 17 x) (rotr 19 x)) (Z.shiftr x 10).

(** The round constants are the first 32 bits of the fractional parts of
    the cube roots of the first 64 primes, the initial state those of the
    square roots of the first 8. *)
Definition is_prime (n : nat) : bool :=
  forallb (fun d => negb (n mod d =? 0)%nat) (seq 2 (n - 2)).

Definition primes : list Z :=
  Eval vm_compute in map Z.of_nat (filter is_prime (seq 2 310)).

(** Largest [r] below [2 ^ 41] with [r ^ 3 <= n]. *)
Definition root3 (n : Z) : Z :=
  fold_left (fun r b => let c := r + 2 ^ (40 - Z.of_nat b) in
                        if c * c * c <=? n then c else r)
            (seq 0 41) 0.

Definition K : list Z :=
  Eval vm_compute in map (fun p => w32 (root3 (p * 2 ^ 96))) primes.

Definition H0 : list Z :=
  Eval vm_compute in map (fun p => w32 (Z.sqrt (p * 2 ^ 64))) (firstn 8 primes).

(** Message, one 1 bit, zeros, and the bit length on 8 bytes. *)
Definition pad (m : list Z) : list Z :=
  let n := Z.of_nat (length m) in
  let bits := 8 * n in
  m ++ [0x80] ++ repeat 0 (Z.to_nat ((55 - n) mod 64))
    ++ map (fun i => Z.shiftr bits (8 * (7 - Z.of_nat i)) mod 256) (seq 0 8).

Definition word_be (l : list Z) : Z := fold_left (fun acc b => acc * 256 + b) l 0.

Fixpoint extend (n : nat) (w : list Z) : list Z :=
  match n with
  | O => w
  | S k =>
      let t := length w in
      let x :=
        add32 (add32 (ssig1 (nth (t - 2) w 0)) (nth (t - 7) w 0))
              (add32 (ssig0 (nth (t - 15) w 0)) (nth (t - 16) w 0)) in
      extend k (w ++ [x])
  end.

Definition round (st : list Z) (kw : Z * Z) : list Z :=
  match st with
  | [a; b; c; d; e; f; g; h] =>
      let t1 := add32 (add32 (add32 h (bsig1 e)) (add32 (Ch e f g) (fst kw))) (snd kw) in
      let t2 := add32 (bsig0 a) (Maj a b c) in
      [add32 t1 t2; a; b; c; add32 d t1; e; f; g]
  | _ => st
  end.

Definition zip_with {A B C : Type} (f : A -> B -> C) : list A -> list B -> list C :=
  fix go l1 l2 :=
    match l1, l2 with
    | x :: r1, y :: r2 => f x y :: go r1 r2
    | _, _ => []
    end.

Definition compress (st : list Z) (block : list Z) : list Z :=
  let w := extend 48 (map word_be (chunks 16 4 block)) in
  zip_with add32 st (fold_left round (combine K w) st).

Definition word_bytes (w : Z) : bytes :=
  [byte_of_Z (Z.shiftr w 24); byte_of_Z (Z.shiftr w 16);
   byte_of_Z (Z.shiftr w 8); byte_of_Z w].

Definition digest_words (m : bytes) : list Z :=
  let p := pad (map Z_of_byte m) in
  fold_left compress (chunks (length p) 64 p) H0.

(** [hashlib.sha256(data).digest()]. *)
Definition digest (m : bytes) : bytes :=
  flat_map word_bytes (digest_words m).
End SHA256.

Module Keccak.
Local Open Scope Z_scope.

Definition w64 (x : Z) : Z := x mod 2 ^ 64.
Definition rotl (n x : Z) : Z :=
  Z.lor (w64 (Z.shiftl x n)) (Z.shiftr x (64 - n)).
Definition not64 (x : Z) : Z := Z.lxor x 0xffffffffffffffff.

Definition RC : list Z :=
  [ 0x1; 0x8082; 0x800000000000808a; 0x8000000080008000; 0x808b;
    0x80000001; 0x8000000080008081; 0x8000000000008009; 0x8a; 0x88;
    0x80008009; 0x8000000a; 0x8000808b; 0x800000000000008b;
    0x8000000000008089; 0x8000000000008003; 0x8000000000008002;
    0x8000000000000080; 0x800a; 0x800000008000000a; 0x8000000080008081;
    0x8000000000008080; 0x80000001; 0x8000000080008008 ].

(** Rotation offsets, indexed by lane [x + 5 * y]. *)
Definition ROT : list Z :=
  [ 0; 1; 62; 28; 27;   36; 44; 6; 55; 20;   3; 10; 43; 25; 39;
    41; 45; 15; 21; 8;   18; 2; 61; 56; 14 ].

Definition lane (a : list Z) (x y : nat) : Z :=
  nth ((x mod 5) + 5 * (y mod 5))%nat a 0.

Definition theta (a : list Z) : list Z :=
  let c x := fold_left Z.lxor (map (lane a x) (seq 0 5)) 0 in
  let d x := Z.lxor (c (x + 4)%nat) (rotl 1 (c (x + 1)%nat)) in
  map (fun i => Z.lxor (nth i a 0) (d (i mod 5)%nat)) (seq 0 25).

(** rho and pi together: lane (X, Y) receives lane (X + 3Y, X) rotated. *)
Definition rho_pi (a : list Z) : list Z :=
  map (fun i =>
         let X := (i mod 5)%nat in
         let Y := (i / 5)%nat in
         let x := ((X + 3 * Y) mod 5)%nat in
         rotl (nth (x + 5 * X)%nat ROT 0) (lane a x X))
      (seq 0 25).

Definition chi (b : list Z) : list Z :=
  map (fun i =>
         let x := (i mod 5)%nat in
         let y := (i / 5)%nat in
         Z.lxor (lane b x y)
           (Z.land (not64 (lane b (x + 1) y)) (lane b (x + 2) y)))
      (seq 0 25).

Definition iota (rc : Z) (a : list Z) : list Z :=
  match a with
  | a0 :: r => Z.lxor a0 rc :: r
  | [] => []
  end.

Definition round (a : list Z) (rc : Z) : list Z :=
  iota rc (chi (rho_pi (theta a))).

Definition f1600 (a : list Z) : list Z := fold_left round RC a.

Definition lane_le (l : list Z) : Z := fold_right (fun b acc => b + 256 * acc) 0 l.

Definition lane_bytes (w : Z) : bytes :=
  map (fun i => byte_of_Z (Z.shiftr w (8 * Z.of_nat i))) (seq 0 8).

(** pad10*1 on whole bytes, rate 136. *)
Definition pad (m : list Z) : list Z :=
  let q := (136 - length m mod 136)%nat in
  match q with
  | 1%nat => m ++ [0x81]
  | _ => m ++ [0x01] ++ repeat 0 (q - 2) ++ [0x80]
  end.

Fixpoint xor_into (a blk : list Z) : list Z :=
  match a, blk with
  | x :: r, y :: s => Z.lxor x y :: xor_into r s
  | _, [] => a
  | [], _ => []
  end.

Definition absorb (a : list Z) (block : list Z) : list Z :=
  f1600 (xor_into a (map lane_le (chunks 17 8 block))).

Definition sponge (m : bytes) : list Z :=
  let p := pad (map Z_of_byte m) in
  fold_left absorb (chunks (length p) 136 p) (repeat 0 25).

(** [Web3.keccak(primitive)]: the first four lanes, little-endian. *)
Definition keccak256 (m : bytes) : bytes :=
  flat_map lane_bytes (firstn 4 (sponge m)).
End Keccak.

(** ** Exceptions and HTTP statuses *)

Inductive Exn : Type :=
  | ValueError (msg : string)
  | BinasciiError (msg : string)
  | OSError (path : string)
  | RpcError
  | HTTPException (status : Z) (detail : string).

(** [str(e)] for the exceptions that the handlers format into a detail. *)
Definition exn_str (e : Exn) : string :=
  match e with
  | ValueError m | BinasciiError m => m
  | OSError p => p
  | RpcError => "rpc"
  | HTTPException _ d => d
  end.

Inductive Result (A : Type) : Type :=
  | Return (a : A)
  | Raise (e : Exn).
Arguments Return {A} a.
Arguments Raise {A} e.

(** [binascii.unhexlify] on a [str]: the argument converter refuses text
    that is not ASCII, then the length must be even, then every character
    must be a hexadecimal digit. *)
Definition unhexlify (s : string) : Result bytes :=
  if negb (forallb_string is_ascii s) then
    Raise (ValueError "string argument should contain only ASCII characters")
  else if Nat.odd (String.length s) then
    Raise (BinasciiError "Odd-length string")
  else
    match unhex s with
    | Some raw => Return raw
    | None => Raise (BinasciiError "Non-hexadecimal digit found")
    end.

(** [_b32] (app.py, lines 75-80). *)
Definition _b32 (hexstr : string) : Result bytes :=
  let s := if startswith_0x hexstr then strip_0x hexstr else hexstr in
  match unhexlify s with
  | Raise e => Raise e
  | Return raw =>
      if negb (length raw =? 32)%nat then Raise (ValueError "must be 32 bytes")
      else Return raw
  end.

(** [_sha256_hex] (app.py, lines 83-84). *)
Definition _sha256_hex (data : bytes) : string := hex (SHA256.digest data).

(** ** web3 helpers *)

(** [Web3.to_hex] of a [bytes] value. *)
Definition to_hex (b : bytes) : string := "0x" ++ hex b.

(** The slice [s[2:]]. *)
Definition drop2 (s : string) : string :=
  match s with
  | String _ (String _ r) => r
  | _ => ""
  end.

(** [remove_0x_prefix]: either case of the x. *)
Definition remove_0x_prefix (s : string) : string :=
  match s with
  | String "0" (String "x" r) | String "0" (String "X" r) => r
  | _ => s
  end.

(** [Web3.to_bytes(hexstr=...)]: an odd number of digits is padded on the
    left, then the digits are decoded. *)
Definition to_bytes_hexstr (hexstr : string) : Result bytes :=
  let h :=
    if Nat.odd (String.length hexstr) then "0x0" ++ remove_0x_prefix hexstr
    else hexstr in
  unhexlify (remove_0x_prefix h).

(** [HexBytes.hex()] of a receipt field (hexbytes before 1.0, the version
    that goes with [signed.rawTransaction]). *)
Definition hexbytes_hex (b : bytes) : string := "0x" ++ hex b.

(** [c * n] on a one-character string. *)
Fixpoint str_repeat (c : ascii) (n : nat) : string :=
  match n with
  | O => ""
  | S k => String c (str_repeat c k)
  end.

(** [str(n)] of a non-negative integer. *)
Definition str_of_N (n : N) : string := NilZero.string_of_uint (N.to_uint n).

(** [str.lower()] on ASCII text. *)
Definition lower_char (c : ascii) : ascii :=
  let n := N_of_ascii c in
  if (65 <=? n)%N && (n <=? 90)%N then ascii_of_N (n + 32) else c.

Fixpoint lower (s : string) : string :=
  match s with
  | "" => ""
  | String c r => String (lower_char c) (lower r)
  end.

(** ** The contract, as the service sees it *)

(** The tuple returned by the view [get(bytes32)]. *)
Record ChainRecord : Type := {
  r_contentHash : bytes;   (* it[0] *)
  r_uri : string;          (* it[1] *)
  r_version : N;           (* it[2] *)
  r_owner : string;        (* it[3] *)
  r_createdAt : N;         (* it[4] *)
  r_updatedAt : N;         (* it[5] *)
  r_updatedBy : string     (* it[6] *)
}.

(** [lg["args"]] of a [MetadataCreated] and of a [MetadataUpdated] log. *)
Record CreatedArgs : Type := {
  c_recordId : bytes;
  c_contentHash : bytes;
  c_uri : string;
  c_version : N;
  c_owner : string;
  c_timestamp : N
}.

Record UpdatedArgs : Type := {
  u_recordId : bytes;
  u_contentHash : bytes;
  u_uri : string;
  u_version : N;
  u_updatedBy : string;
  u_timestamp : N
}.

Inductive Tx : Type :=
  | TxCreate (rid ch : bytes) (uri : string)
  | TxUpdate (rid ch : bytes) (uri : string).

(** What [wait_for_transaction_receipt(send_raw_transaction(...))] gives: a
    receipt (with its status bit, which the handlers do not look at) and the
    ledger after it, or an exception; the ledger may have moved even then. *)
Inductive TxOutcome (L : Type) : Type :=
  | Mined (l' : L) (txHash : bytes) (status : bool)
  | TxRaised (l' : L).
Arguments Mined {L} l' txHash status.
Arguments TxRaised {L} l'.

(** The node and the deployed contract [CT] are outside the repository's
    Python code; the handlers are written against this interface. *)
Class Ledger (L : Type) : Type := {
  reachable : L -> bool;
  contract_get : L -> bytes -> ChainRecord;
  send_tx : L -> Tx -> TxOutcome L;
  created_entries : L -> list CreatedArgs;
  updated_entries : L -> list UpdatedArgs
}.

Definition ZERO_ADDRESS : string := "0x0000000000000000000000000000000000000000".

(** ** The world and the handler monad *)

(** A path below [OBJECTS_DIR]: directory and file name. *)
Abbreviation Path := (string * string)%type.

Definition path_str (p : Path) : string := fst p ++ "/" ++ snd p.

Inductive FsOp : Type :=
  | OpMkdir (dir : string)
  | OpWrite (p : Path).

Inductive Effect : Type :=
  | EvCall (rid : bytes)
  | EvLogs
  | EvMkdir (dir : string)
  | EvWrite (p : Path) (text : string)
  | EvTransact (tx : Tx) (status : option bool).

(** The ledger, the directories and files below [OBJECTS_DIR], and the
    disk: [fs_fault] tells which operations raise, and [fs_torn] what a
    [write_text] that raises leaves of its file.  [write_text] opens the
    file for writing, which creates it or empties it, and then writes:
    [None] is a failure to open (the file is as it was), [Some n] a
    failure after the first [n] characters were written. *)
Record World (L : Type) : Type := {
  chain : L;
  dirs : gset string;
  objects : gmap Path string;
  fs_fault : FsOp -> bool;
  fs_torn : Path -> option nat
}.
Arguments chain {L} _.
Arguments dirs {L} _.
Arguments objects {L} _.
Arguments fs_fault {L} _ _.
Arguments fs_torn {L} _ _.

Definition with_dir {L : Type} (dir : string) (w : World L) : World L :=
  {| chain := chain w; dirs := {[dir]} ∪ dirs w; objects := objects w;
     fs_fault := fs_fault w; fs_torn := fs_torn w |}.

Definition with_object {L : Type} (p : Path) (text : string) (w : World L)
  : World L :=
  {| chain := chain w; dirs := dirs w; objects := <[p := text]> (objects w);
     fs_fault := fs_fault w; fs_torn := fs_torn w |}.

(** The file at [p] after a [write_text] of [text] that raised. *)
Definition torn {L : Type} (p : Path) (text : string) (w : World L) : World L :=
  match fs_torn w p with
  | Some n => with_object p (substring 0 n text) w
  | None => w
  end.

Definition with_chain {L : Type} (l : L) (w : World L) : World L :=
  {| chain := l; dirs := dirs w; objects := objects w;
     fs_fault := fs_fault w; fs_torn := fs_torn w |}.

Record Outcome (L A : Type) : Type := {
  trace : list Effect;
  world : World L;
  result : Result A
}.
Arguments trace {L A} _.
Arguments world {L A} _.
Arguments result {L A} _.

Definition M (L A : Type) : Type := World L -> Outcome L A.

Definition ret {L A : Type} (a : A) : M L A :=
  fun w => {| trace := []; world := w; result := Return a |}.

Definition raise {L A : Type} (e : Exn) : M L A :=
  fun w => {| trace := []; world := w; result := Raise e |}.

Definition bind {L A B : Type} (m : M L A) (k : A -> M L B) : M L B :=
  fun w =>
    let o := m w in
    match result o with
    | Return a =>
        let o' := k a (world o) in
        {| trace := trace o ++ trace o'; world := world o'; result := result o' |}
    | Raise e => {| trace := trace o; world := world o; result := Raise e |}
    end.

(** stdpp's notations [x ← m; k], ['(x, y) ← m; k] and [m;; k]. *)
#[global] Instance M_ret {L : Type} : MRet (M L) := fun A a => ret a.
#[global] Instance M_bind {L : Type} : MBind (M L) := fun A B k m => bind m k.

(** The status code FastAPI answers with. *)
Definition http_status {A : Type} (r : Result A) : Z :=
  match r with
  | Return _ => 200
  | Raise (HTTPException code _) => code
  | Raise _ => 500
  end.

(** ** Requests and responses *)

Record CreateReq : Type := {
  cr_recordIdHex : option string;
  cr_json_text : option string;
  cr_uri : option string
}.

Record UpdateReq : Type := {
  ur_json_text : option string;
  ur_uri : option string
}.

Record CreateResp : Type := {
  cs_txHash : string;
  cs_recordId : string;
  cs_uri : string
}.

Record UpdateResp : Type := {
  us_txHash : string;
  us_recordId : string;
  us_newUri : string
}.

Record RecordView : Type := {
  v_recordId : string;
  v_contentHash : string;
  v_uri : string;
  v_version : N;
  v_owner : string;
  v_createdAt : N;
  v_updatedAt : N;
  v_updatedBy : string
}.

(** The value of an [Optional[str]] once it is known to be true. *)
Definition the (o : option string) : string := default "" o.

Definition MISSING_BODY : string := "json_text 또는 uri 중 하나는 필요".

Section Handlers.
Context {L : Type} `{Ledger L}.
Variable PUBLIC_BASE_URL : string.

(** *** Effects *)

(** [CT.functions.get(rid).call()]. *)
Definition call_get (rid : bytes) : M L ChainRecord :=
  fun w =>
    {| trace := [EvCall rid]; world := w;
       result := if reachable (chain w)
                 then Return (contract_get (chain w) rid)
                 else Raise RpcError |}.

(** [target.parent.mkdir(parents=True, exist_ok=True)]. *)
Definition mkdir (dir : string) : M L unit :=
  fun w =>
    if fs_fault w (OpMkdir dir) then
      {| trace := [EvMkdir dir]; world := w; result := Raise (OSError dir) |}
    else
      {| trace := [EvMkdir dir]; world := with_dir dir w; result := Return tt |}.

(** [target.write_text(text)]: creates the file or replaces its content;
    when it raises, the file is as the disk left it. *)
Definition write_text (p : Path) (text : string) : M L unit :=
  fun w =>
    if fs_fault w (OpWrite p) then
      {| trace := [EvWrite p text]; world := torn p text w;
         result := Raise (OSError (path_str p)) |}
    else
      {| trace := [EvWrite p text]; world := with_object p text w;
         result := Return tt |}.

(** [build_transaction] with a fresh nonce, [sign_transaction],
    [send_raw_transaction] and [wait_for_transaction_receipt], as one
    step; the result is [rc.transactionHash]. *)
Definition transact (tx : Tx) : M L bytes :=
  fun w =>
    match send_tx (chain w) tx with
    | Mined l' h st =>
        {| trace := [EvTransact tx (Some st)]; world := with_chain l' w;
           result := Return h |}
    | TxRaised l' =>
        {| trace := [EvTransact tx None]; world := with_chain l' w;
           result := Raise RpcError |}
    end.

(** Lifting of a pure computation that may raise. *)
Definition lift {A : Type} (r : Result A) : M L A :=
  match r with
  | Return a => ret a
  | Raise e => raise e
  end.

(** [try: rid = _b32(x) except Exception as e: raise HTTPException(400, ...)]. *)
Definition parse_rid (recordIdHex : string) : M L bytes :=
  match _b32 recordIdHex with
  | Return rid => ret rid
  | Raise e => raise (HTTPException 400 ("invalid recordId: " ++ exn_str e))
  end.

(** The f-string at lines 198 and 237. *)
Definition object_uri (rid_hex file : string) : string :=
  match PUBLIC_BASE_URL with
  | String _ _ => PUBLIC_BASE_URL ++ "/objects/" ++ rid_hex ++ "/" ++ file
  | "" => "/objects/" ++ rid_hex ++ "/" ++ file
  end.

Definition version_file (v : N) : string := "v" ++ str_of_N v ++ ".json".

(** *** [get_one] (app.py, lines 156-174) *)
Definition get_one (recordIdHex : string) : M L RecordView :=
  rid ← parse_rid recordIdHex;
  it ← call_get rid;
  if String.eqb (r_owner it) ZERO_ADDRESS then
    raise (HTTPException 404 "not found")
  else
    ret {| v_recordId := lower recordIdHex;
           v_contentHash := to_hex (r_contentHash it);
           v_uri := r_uri it;
           v_version := r_version it;
           v_owner := r_owner it;
           v_createdAt := r_createdAt it;
           v_updatedAt := r_updatedAt it;
           v_updatedBy := r_updatedBy it |}.

(** *** [create] (app.py, lines 176-214)

    [now] is the value of [str(time.time())], read only when the request
    has neither an id nor content. *)
Definition create (now : string) (req : CreateReq) : M L CreateResp :=
  rid ← (if truthy (cr_recordIdHex req) then
            parse_rid (the (cr_recordIdHex req))
          else
            let seed :=
              encode (if truthy (cr_json_text req)
                      then the (cr_json_text req) else now) in
            ret (Keccak.keccak256 seed));
  '(ch_hex, uri) ←
    (if truthy (cr_json_text req) then
       let raw := encode (the (cr_json_text req)) in
       let ch_hex := _sha256_hex raw in
       let rid_hex := drop2 (to_hex rid) in
       let target := (rid_hex, "v1.json") in
       mkdir (fst target);;
       write_text target (the (cr_json_text req));;
       ret (ch_hex, object_uri rid_hex "v1.json")
     else if truthy (cr_uri req) then
       ret (str_repeat "0" 64, the (cr_uri req))
     else
       raise (HTTPException 400 MISSING_BODY));
  ch ← lift (to_bytes_hexstr ("0x" ++ ch_hex));
  h ← transact (TxCreate rid ch uri);
  ret {| cs_txHash := hexbytes_hex h;
         cs_recordId := to_hex rid;
         cs_uri := uri |}.

(** *** [update] (app.py, lines 216-252) *)
Definition update (recordIdHex : string) (req : UpdateReq) : M L UpdateResp :=
  rid ← parse_rid recordIdHex;
  it ← call_get rid;
  (if String.eqb (r_owner it) ZERO_ADDRESS then
     raise (HTTPException 404 "not found")
   else ret tt);;
  let current_ver := r_version it in
  '(ch_hex, uri) ←
    (if truthy (ur_json_text req) then
       let raw := encode (the (ur_json_text req)) in
       let ch_hex := _sha256_hex raw in
       let rid_hex :=
         if startswith_0x recordIdHex then drop2 recordIdHex
         else recordIdHex in
       let target := (rid_hex, version_file (current_ver + 1)) in
       mkdir (fst target);;
       write_text target (the (ur_json_text req));;
       ret (ch_hex, object_uri rid_hex (version_file (current_ver + 1)))
     else if truthy (ur_uri req) then
       ret (str_repeat "0" 64, the (ur_uri req))
     else
       raise (HTTPException 400 MISSING_BODY));
  ch ← lift (to_bytes_hexstr ("0x" ++ ch_hex));
  h ← transact (TxUpdate rid ch uri);
  ret {| us_txHash := hexbytes_hex h;
         us_recordId := recordIdHex;
         us_newUri := uri |}.

End Handlers.

(** ** Listing (app.py, lines 121-154) *)

(** One entry of [items]: a Python dict with string keys; a key that has
    not been set is [None]. *)
Record Item : Type := {
  i_recordId : option string;
  i_contentHash : option string;
  i_uri : option string;
  i_version : option N;
  i_owner : option string;
  i_updatedBy : option string;
  i_updatedAt : option N;
  i_createdAt : option N
}.

(** The literal [{}]. *)
Definition empty_item : Item :=
  {| i_recordId := None; i_contentHash := None; i_uri := None;
     i_version := None; i_owner := None; i_updatedBy := None;
     i_updatedAt := None; i_createdAt := None |}.

(** The dict literal of lines 130-139. *)
Definition item_of_created (a : CreatedArgs) : Item :=
  {| i_recordId := Some (hex (c_recordId a));
     i_contentHash := Some (hex (c_contentHash a));
     i_uri := Some (c_uri a);
     i_version := Some (c_version a);
     i_owner := Some (c_owner a);
     i_updatedBy := Some (c_owner a);
     i_updatedAt := Some (c_timestamp a);
     i_createdAt := Some (c_timestamp a) |}.

(** [d.update({...})] of lines 145-152: six keys are set, the others
    stay. *)
Definition item_update (d : Item) (a : UpdatedArgs) : Item :=
  {| i_recordId := Some (hex (u_recordId a));
     i_contentHash := Some (hex (u_contentHash a));
     i_uri := Some (u_uri a);
     i_version := Some (u_version a);
     i_owner := i_owner d;
     i_updatedBy := Some (u_updatedBy a);
     i_updatedAt := Some (u_timestamp a);
     i_createdAt := i_createdAt d |}.

(** A Python dict keeps its keys in the order of their first insertion:
    an association list in which [d[k] = v] replaces in place or appends. *)
Abbreviation Dict := (list (string * Item)).

Fixpoint dict_get (k : string) (d : Dict) : option Item :=
  match d with
  | [] => None
  | (k', v) :: r => if String.eqb k k' then Some v else dict_get k r
  end.

Fixpoint dict_set (k : string) (v : Item) (d : Dict) : Dict :=
  match d with
  | [] => [(k, v)]
  | (k', v') :: r =>
      if String.eqb k k' then (k, v) :: r else (k', v') :: dict_set k v r
  end.

Definition dict_values (d : Dict) : list Item := map snd d.

(** The loop over [created.get_all_entries()]. *)
Definition add_created (items : Dict) (a : CreatedArgs) : Dict :=
  dict_set (hex (c_recordId a)) (item_of_created a) items.

(** The loop over [updated.get_all_entries()]. *)
Definition add_updated (items : Dict) (a : UpdatedArgs) : Dict :=
  let rid := hex (u_recordId a) in
  let items :=
    match dict_get rid items with
    | Some _ => items
    | None => dict_set rid empty_item items
    end in
  dict_set rid (item_update (default empty_item (dict_get rid items)) a) items.

(** The sort key [lambda x: x.get("updatedAt", 0)]. *)
Definition sort_key (x : Item) : N := default 0%N (i_updatedAt x).

(** [sorted(xs, key=sort_key, reverse=True)]: Python's sort is stable, also
    with [reverse=True], so elements with equal keys keep their order. *)
Fixpoint insert_desc (x : Item) (l : list Item) : list Item :=
  match l with
  | [] => [x]
  | y :: r =>
      if (sort_key x <? sort_key y)%N then y :: insert_desc x r else x :: l
  end.

Definition sorted_desc (l : list Item) : list Item :=
  fold_right insert_desc [] l.

Definition project (created : list CreatedArgs) (updated : list UpdatedArgs)
  : list Item :=
  let items := fold_left add_created created [] in
  let items := fold_left add_updated updated items in
  sorted_desc (dict_values items).

Definition list_metadata {L : Type} `{Ledger L} : M L (list Item) :=
  fun w =>
    {| trace := [EvLogs]; world := w;
       result := if reachable (chain w)
                 then Return (project (created_entries (chain w))
                                      (updated_entries (chain w)))
                 else Raise RpcError |}.

(** ** A reference ledger *)

(** Modelled from the spec: the contract [contracts/MetadataRegistry.sol]
    and the node are not among the sources.  Sections 3, 4.3 and 6 of the
    specification give the behaviour used here: [create] sets version 1,
    owner and both timestamps and is refused for an id that exists;
    [update] is refused for an id that does not exist and otherwise
    replaces hash and uri, adds one to the version and stamps
    [updatedAt] and [updatedBy]; each applied transaction emits one event;
    an absent id reads as the all-zero tuple.  Every transaction is signed by
    the one account of the service, [ACCOUNT]. *)
Record Registry : Type := {
  node_up : bool;
  block_time : N;
  storage : gmap string ChainRecord;
  log_created : list CreatedArgs;
  log_updated : list UpdatedArgs
}.

Definition ACCOUNT : string := "0xFE3B557E8Fb62b89F4916B721be55cEb828dBd73".

Definition zero_record : ChainRecord :=
  {| r_contentHash := repeat x00 32; r_uri := ""; r_version := 0;
     r_owner := ZERO_ADDRESS; r_createdAt := 0; r_updatedAt := 0;
     r_updatedBy := ZERO_ADDRESS |}.

Definition registry_get (l : Registry) (rid : bytes) : ChainRecord :=
  default zero_record (storage l !! hex rid).

Definition tx_hash (l : Registry) (rid : bytes) : bytes :=
  Keccak.keccak256 (rid ++ [byte_of_N (block_time l)]).

Definition registry_send (l : Registry) (tx : Tx) : TxOutcome Registry :=
  if negb (node_up l) then TxRaised l
  else
    match tx with
    | TxCreate rid ch uri =>
        match storage l !! hex rid with
        | Some _ => Mined l (tx_hash l rid) false
        | None =>
            let r := {| r_contentHash := ch; r_uri := uri; r_version := 1;
                        r_owner := ACCOUNT; r_createdAt := block_time l;
                        r_updatedAt := block_time l;
                        r_updatedBy := ACCOUNT |} in
            let ev := {| c_recordId := rid; c_contentHash := ch; c_uri := uri;
                         c_version := 1; c_owner := ACCOUNT;
                         c_timestamp := block_time l |} in
            Mined {| node_up := node_up l;
                     block_time := block_time l + 1;
                     storage := <[hex rid := r]> (storage l);
                     log_created := log_created l ++ [ev];
                     log_updated := log_updated l |}
                  (tx_hash l rid) true
        end
    | TxUpdate rid ch uri =>
        match storage l !! hex rid with
        | None => Mined l (tx_hash l rid) false
        | Some old =>
            let r := {| r_contentHash := ch; r_uri := uri;
                        r_version := r_version old + 1;
                        r_owner := r_owner old;
                        r_createdAt := r_createdAt old;
                        r_updatedAt := block_time l;
                        r_updatedBy := ACCOUNT |} in
            let ev := {| u_recordId := rid; u_contentHash := ch; u_uri := uri;
                         u_version := r_version old + 1;
                         u_updatedBy := ACCOUNT;
                         u_timestamp := block_time l |} in
            Mined {| node_up := node_up l;
                     block_time := block_time l + 1;
                     storage := <[hex rid := r]> (storage l);
                     log_created := log_created l;
                     log_updated := log_updated l ++ [ev] |}
                  (tx_hash l rid) true
        end
    end.

#[global] Instance registry_ledger : Ledger Registry := {|
  reachable := node_up;
  contract_get := registry_get;
  send_tx := registry_send;
  created_entries := log_created;
  updated_entries := log_updated
|}.

(** A fresh deployment: nothing stored, nothing logged, a working disk. *)
Definition genesis : World Registry :=
  {| chain := {| node_up := true; block_time := 1;
                 storage := ∅; log_created := []; log_updated := [] |};
     dirs := ∅; objects := ∅; fs_fault := fun _ => false;
     fs_torn := fun _ => None |}.

(** ** Sequences of requests *)

Inductive Op : Type :=
  | OpCreate (now : string) (req : CreateReq)
  | OpUpdate (recordIdHex : string) (req : UpdateReq).

(** What one request leaves behind: its effects and its status code. *)
Definition run_op {L : Type} `{Ledger L} (base : string) (op : Op) (w : World L)
  : list Effect * Z * World L :=
  match op with
  | OpCreate now req =>
      let o := create base now req w in
      (trace o, http_status (result o), world o)
  | OpUpdate r req =>
      let o := update base r req w in
      (trace o, http_status (result o), world o)
  end.

(** The requests are served one after the other. *)
Fixpoint run_ops {L : Type} `{Ledger L} (base : string) (ops : list Op)
    (w : World L) : list (list Effect * Z) :=
  match ops with
  | [] => []
  | op :: rest =>
      let '(t, s, w') := run_op base op w in
      (t, s) :: run_ops base rest w'
  end.

(** The paths handed to [write_text], in order. *)
Fixpoint writes (t : list Effect) : list Path :=
  match t with
  | [] => []
  | EvWrite p _ :: r => p :: writes r
  | _ :: r => writes r
  end.

(** The transactions handed to the node, in order. *)
Fixpoint transactions (t : list Effect) : list Tx :=
  match t with
  | [] => []
  | EvTransact tx _ :: r => tx :: transactions r
  | _ :: r => transactions r
  end.

(** ** The runs of a handler, spelled out

    The shapes that a run of [create] or [update] takes once the id is
    known; the lemmas of the next part show that the handlers produce
    exactly these. *)

(** The id that [create] works with (lines 179-187). *)
Definition create_rid (now : string) (req : CreateReq) : Result bytes :=
  if truthy (cr_recordIdHex req) then _b32 (the (cr_recordIdHex req))
  else Return (Keccak.keccak256
                 (encode (if truthy (cr_json_text req)
                          then the (cr_json_text req) else now))).

(** Transaction step reached with trace [pre] behind it. *)
Definition sent {L : Type} `{Ledger L} {A : Type} (w : World L) (tx : Tx)
    (resp : bytes -> A) (pre : list Effect) : Outcome L A :=
  match send_tx (chain w) tx with
  | Mined l' h st =>
      {| trace := pre ++ [EvTransact tx (Some st)]; world := with_chain l' w;
         result := Return (resp h) |}
  | TxRaised l' =>
      {| trace := pre ++ [EvTransact tx None]; world := with_chain l' w;
         result := Raise RpcError |}
  end.

(** Directory, file, then the transaction step. *)
Definition stored {L : Type} `{Ledger L} {A : Type} (w : World L)
    (dir file text : string) (tx : Tx) (resp : bytes -> A)
    (pre : list Effect) : Outcome L A :=
  if fs_fault w (OpMkdir dir) then
    {| trace := pre ++ [EvMkdir dir]; world := w;
       result := Raise (OSError dir) |}
  else if fs_fault w (OpWrite (dir, file)) then
    {| trace := pre ++ [EvMkdir dir; EvWrite (dir, file) text];
       world := torn (dir, file) text (with_dir dir w);
       result := Raise (OSError (path_str (dir, file))) |}
  else
    sent (with_object (dir, file) text (with_dir dir w)) tx resp
         (pre ++ [EvMkdir dir; EvWrite (dir, file) text]).

Definition failed {L A : Type} (w : World L) (pre : list Effect) (e : Exn)
  : Outcome L A :=
  {| trace := pre; world := w; result := Raise e |}.

Definition ZERO_HASH : bytes := repeat x00 32.

Definition bad_id (e : Exn) : Exn :=
  HTTPException 400 ("invalid recordId: " ++ exn_str e).

Definition create_resp (rid : bytes) (uri : string) (h : bytes) : CreateResp :=
  {| cs_txHash := hexbytes_hex h; cs_recordId := to_hex rid; cs_uri := uri |}.

Definition update_resp (recordIdHex uri : string) (h : bytes) : UpdateResp :=
  {| us_txHash := hexbytes_hex h; us_recordId := recordIdHex;
     us_newUri := uri |}.

(** An outcome reached after the effects [t]. *)
Definition prepend {L A : Type} (t : list Effect) (o : Outcome L A)
  : Outcome L A :=
  {| trace := t ++ trace o; world := world o; result := result o |}.

Definition record_view (recordIdHex : string) (it : ChainRecord) : RecordView :=
  {| v_recordId := lower recordIdHex;
     v_contentHash := to_hex (r_contentHash it);
     v_uri := r_uri it;
     v_version := r_version it;
     v_owner := r_owner it;
     v_createdAt := r_createdAt it;
     v_updatedAt := r_updatedAt it;
     v_updatedBy := r_updatedBy it |}.

Definition NOT_FOUND : Exn := HTTPException 404 "not found".

(** ** Observations on transactions and concrete requests *)

Definition tx_rid (tx : Tx) : bytes :=
  match tx with TxCreate rid _ _ | TxUpdate rid _ _ => rid end.

Definition tx_contentHash (tx : Tx) : bytes :=
  match tx with TxCreate _ ch _ | TxUpdate _ ch _ => ch end.

Definition tx_uri (tx : Tx) : string :=
  match tx with TxCreate _ _ uri | TxUpdate _ _ uri => uri end.

(** Requests used as test inputs. *)
Definition req_inline : CreateReq :=
  {| cr_recordIdHex := None; cr_json_text := Some "[1]"; cr_uri := None |}.

Definition req_both : CreateReq :=
  {| cr_recordIdHex := None; cr_json_text := Some "[1]";
     cr_uri := Some "ipfs://meta" |}.

Definition req_external : CreateReq :=
  {| cr_recordIdHex := None; cr_json_text := None;
     cr_uri := Some "ipfs://meta" |}.

Definition upd_inline : UpdateReq :=
  {| ur_json_text := Some "[2]"; ur_uri := None |}.

Definition upd_both : UpdateReq :=
  {| ur_json_text := Some "[2]"; ur_uri := Some "ipfs://meta2" |}.

Definition upd_external : UpdateReq :=
  {| ur_json_text := None; ur_uri := Some "ipfs://meta2" |}.

(** The id that [create] derives for the content [[1]]. *)
Definition RID1 : string :=
  Eval vm_compute in to_hex (Keccak.keccak256 (encode "[1]")).

(** The world once [req_inline] has been created on a fresh deployment. *)
Definition world1 : World Registry :=
  world (create "" "1700000000.0" req_inline genesis).

(** Every write comes before every transaction. *)
Definition writes_precede_txs (t : list Effect) : Prop :=
  forall (i j : nat) p text tx st,
    t !! i = Some (EvWrite p text) ->
    t !! j = Some (EvTransact tx st) ->
    i < j.



Definition req_empty_id : CreateReq :=
  {| cr_recordIdHex := Some ""; cr_json_text := None;
     cr_uri := Some "ipfs://meta" |}.

Definition RID1_bytes : bytes :=
  Eval vm_compute in Keccak.keccak256 (encode "[1]").

(** A failed directory creation or file write leaves the run without a
    transaction and the ledger as it was. *)
Definition no_commit_on_fault {L A : Type} `{Ledger L} (w : World L)
    (o : Outcome L A) : Prop :=
  (forall d, EvMkdir d ∈ trace o -> fs_fault w (OpMkdir d) = true ->
             transactions (trace o) = [] /\ chain (world o) = chain w
             /\ http_status (result o) = 500%Z)
  /\ (forall p text, EvWrite p text ∈ trace o ->
             fs_fault w (OpWrite p) = true ->
             transactions (trace o) = [] /\ chain (world o) = chain w
             /\ http_status (result o) = 500%Z).

Definition is_call (e : Effect) : Prop := exists rid, e = EvCall rid.

(** A fresh deployment on a disk that refuses every operation. *)
Definition broken_disk : World Registry :=
  {| chain := chain genesis; dirs := ∅; objects := ∅;
     fs_fault := fun _ => true; fs_torn := fun _ => None |}.

(** ** What the listing should show *)

(** The events of one record, in log order. *)
Definition created_for (rid : bytes) (l : list CreatedArgs) : list CreatedArgs :=
  List.filter (fun a => String.eqb (hex (c_recordId a)) (hex rid)) l.

Definition updated_for (rid : bytes) (l : list UpdatedArgs) : list UpdatedArgs :=
  List.filter (fun a => String.eqb (hex (u_recordId a)) (hex rid)) l.

(** The entry expected for [rid]: the fields of its last update laid over
    its last creation event (over nothing when there is none), or its last
    creation event alone when it was never updated. *)
Definition expected_item (created : list CreatedArgs)
    (updated : list UpdatedArgs) (rid : bytes) : option Item :=
  match last (updated_for rid updated) with
  | Some u =>
      Some (item_update
              (default empty_item
                 (item_of_created <$> last (created_for rid created))) u)
  | None => item_of_created <$> last (created_for rid created)
  end.

(** Newest first. *)
Definition newer_first (a b : Item) : Prop := (sort_key b <= sort_key a)%N.

(** A ledger whose logs hold two records, the second one updated twice. *)
Definition sample_logs : World Registry :=
  {| chain :=
       {| node_up := true; block_time := 50;
          storage := ∅;
          log_created :=
            [ {| c_recordId := repeat x01 32; c_contentHash := repeat x00 32;
                 c_uri := "ipfs://a"; c_version := 1; c_owner := ACCOUNT;
                 c_timestamp := 10 |};
              {| c_recordId := repeat x02 32; c_contentHash := repeat x00 32;
                 c_uri := "ipfs://b"; c_version := 1; c_owner := ACCOUNT;
                 c_timestamp := 20 |} ];
          log_updated :=
            [ {| u_recordId := repeat x02 32; u_contentHash := repeat x00 32;
                 u_uri := "ipfs://b2"; u_version := 2; u_updatedBy := ACCOUNT;
                 u_timestamp := 30 |};
              {| u_recordId := repeat x02 32; u_contentHash := repeat x00 32;
                 u_uri := "ipfs://b3"; u_version := 3; u_updatedBy := ACCOUNT;
                 u_timestamp := 40 |} ] |};
     dirs := ∅; objects := ∅; fs_fault := fun _ => false;
     fs_torn := fun _ => None |}.

(** ** What the service relies on from the ledger *)

Definition exists_on {L : Type} `{Ledger L} (l : L) (rid : bytes) : Prop :=
  r_owner (contract_get l rid) <> ZERO_ADDRESS.

Definition version_on {L : Type} `{Ledger L} (l : L) (rid : bytes) : N :=
  r_version (contract_get l rid).

(** The ledger after a transaction was handed to the node. *)
Definition outcome_state {L : Type} (o : TxOutcome L) : L :=
  match o with
  | Mined l' _ _ => l'
  | TxRaised l' => l'
  end.

(** Modelled from the spec: the contract [contracts/MetadataRegistry.sol]
    is not among the sources.  Section 3 of the specification gives its
    invariants: a record is never deleted and its version never decreases;
    [create] is refused for an id that exists and starts the version at 1;
    an applied [update] adds exactly one to the version. *)
Class Versioned (L : Type) `{Ledger L} : Prop := {
  tx_keeps :
    forall (l : L) (tx : Tx) (rid : bytes),
      exists_on l rid ->
      exists_on (outcome_state (send_tx l tx)) rid
      /\ (version_on l rid <= version_on (outcome_state (send_tx l tx)) rid)%N;
  create_fresh :
    forall (l l' : L) (rid ch h : bytes) (uri : string),
      send_tx l (TxCreate rid ch uri) = Mined l' h true ->
      ~ exists_on l rid /\ exists_on l' rid /\ (1 <= version_on l' rid)%N;
  update_bumps :
    forall (l l' : L) (rid ch h : bytes) (uri : string),
      send_tx l (TxUpdate rid ch uri) = Mined l' h true ->
      version_on l' rid = (version_on l rid + 1)%N
}.

(** A run that wrote a file is committed when its transaction was mined
    with status 1. *)
Definition committed (t : list Effect) : Prop :=
  writes t = [] \/ exists tx, last t = Some (EvTransact tx (Some true)).

(** All paths written by a sequence of requests, in order. *)
Definition all_writes (runs : list (list Effect * Z)) : list Path :=
  flat_map (fun run => writes (fst run)) runs.

(** Every path written so far is a version of a record that the ledger
    holds, not above its current version. *)
Definition accounted {L : Type} `{Ledger L} (l : L) (W : list Path) : Prop :=
  forall dir file, (dir, file) ∈ W ->
    exists rid t, unhex dir = Some rid /\ file = version_file t
                  /\ exists_on l rid /\ (t <= version_on l rid)%N.

(** A second create of the id of [req_inline], with other content. *)
Definition req_again : CreateReq :=
  {| cr_recordIdHex := Some RID1; cr_json_text := Some "[9]"; cr_uri := None |}.

(** Every entry carries its key as [recordId]. *)
Definition keyed (d : Dict) : Prop :=
  Forall (fun kv => i_recordId (snd kv) = Some (fst kv)) d.

(** ** Further observations *)

(** A digit as [bytes.hex] prints it: [0-9] or [a-f]. *)
Definition is_lower_hex (c : ascii) : bool :=
  let n := N_of_ascii c in
  ((48 <=? n)%N && (n <=? 57)%N) || ((97 <=? n)%N && (n <=? 102)%N).

(** A fresh deployment behind a node that raises on every request. *)
Definition offline : World Registry :=
  {| chain := {| node_up := false; block_time := 1; storage := ∅;
                 log_created := []; log_updated := [] |};
     dirs := ∅; objects := ∅; fs_fault := fun _ => false;
     fs_torn := fun _ => None |}.

(** The effect is a file-system one. *)
Definition is_fs_effect (e : Effect) : bool :=
  match e with
  | EvMkdir _ | EvWrite _ _ => true
  | _ => false
  end.

(** The effect is a read of the ledger. *)
Definition is_ledger_read (e : Effect) : bool :=
  match e with
  | EvCall _ | EvLogs => true
  | _ => false
  end.

(** What a handler may have changed in the object store: the disk's fault
    pattern is the same, no directory is gone, a directory that is new was
    made by the handler, and every file it did not write is as it was. *)
Definition store_framed {L A : Type} (w : World L) (o : Outcome L A) : Prop :=
  fs_fault (world o) = fs_fault w
  /\ dirs w ⊆ dirs (world o)
  /\ (forall d, d ∈ dirs (world o) -> d ∈ dirs w \/ EvMkdir d ∈ trace o)
  /\ (forall p, p ∉ writes (trace o) ->
                objects (world o) !! p = objects w !! p).


(** The id of [req_inline] as a caller may type it: the same 32 bytes,
    with the letters in upper case. *)
Definition RID1_UPPER : string :=
  "0xF6CC8A8074FC139ADDC7AB80C06269C38BC357F401CA9A36165B0C12CEF4E186".

(** The world after the first create, on a disk that has filled up: a
    file can still be opened, which empties it, but nothing can be
    written to it. *)
Definition full_disk : World Registry :=
  {| chain := chain world1; dirs := dirs world1; objects := objects world1;
     fs_fault := fun op => match op with
                           | OpWrite _ => true
                           | OpMkdir _ => false
                           end;
     fs_torn := fun _ => Some 0 |}.

(** The receipt statuses seen by a run. *)
Fixpoint receipts (t : list Effect) : list (option bool) :=
  match t with
  | [] => []
  | EvTransact _ st :: r => st :: receipts r
  | _ :: r => receipts r
  end.

(** * Start-up: the contract the handlers talk to

    Lines 31 to 72 and 98 of [app.py].  The solc tool chain, the node and
    the JSON codec are outside the repository; they are taken as they
    answer.  [J] is the type of JSON values (an address, an abi). *)

Definition SOLC_VER : string := "0.8.20".

Definition NO_CONTRACT : string :=
  "Contract not found. Set AUTO_DEPLOY=true or provide /data/contract.json".

Inductive BootExn : Type :=
  | SolcNotInstalled (ver : string)
  | SolcInstallError (ver : string)
  | SolcError
  | KeyError (key : string)
  | JSONDecodeError
  | InvalidAddress
  | NodeError
  | CacheOSError
  | RuntimeError (msg : string).

Inductive BootResult (A : Type) : Type :=
  | Done (a : A)
  | Failed (e : BootExn).
Arguments Done {A} a.
Arguments Failed {A} e.

(** [json.loads] of the cache file: the two keys that are looked up. *)
Record Doc (J : Type) : Type := {
  d_address : option J;
  d_abi : option J
}.
Arguments d_address {J} _.
Arguments d_abi {J} _.

(** One value of the dict that [compile_source] returns. *)
Record Artifact (J : Type) : Type := {
  a_abi : J;
  a_bin : string
}.
Arguments a_abi {J} _.
Arguments a_bin {J} _.

(** The receipt of the deployment. *)
Record Receipt (J : Type) : Type := {
  contractAddress : J;
  rc_status : bool
}.
Arguments contractAddress {J} _.
Arguments rc_status {J} _.

(** [Web3.to_checksum_address] ([None]: it raises), and
    [json.dumps({"address": a, "abi": b}, indent=2)] with [json.loads]
    ([None]: it raises). *)
Class Platform (J : Type) : Type := {
  to_checksum_address : J -> option string;
  json_dumps : J -> J -> string;
  json_loads : string -> option (Doc J)
}.

Inductive CacheOp : Type :=
  | OpReadCache
  | OpMkdirData
  | OpWriteCache.

Inductive BootEffect (J : Type) : Type :=
  | BvInstall (ver : string)
  | BvCompile (ver : string)
  | BvDeploy (nonce : nat) (bytecode : string) (rc : option (Receipt J))
  | BvMkdir
  | BvWrite (text : string).
Arguments BvInstall {J} ver.
Arguments BvCompile {J} ver.
Arguments BvDeploy {J} nonce bytecode rc.
Arguments BvMkdir {J}.
Arguments BvWrite {J} text.

(** What start-up reads and changes: the cache file [/data/contract.json]
    ([None]: no such file), the directory [/data], the solc versions that
    are installed and the one that is set, whether a version can be
    downloaded, what [compile_source(CONTRACT_SRC)] gives under a version,
    the next nonce of the account, what the node answers to a deployment
    ([None]: a call raises), and the faults of the disk: which operations
    on the cache raise, and what a [write_text] that raises leaves of the
    cache file ([None]: it could not be opened and is as it was; [Some n]:
    it was opened, which creates or empties it, and the first [n]
    characters were written). *)
Record Boot (J : Type) : Type := {
  cache : option string;
  data_dir : bool;
  installed : list string;
  selected : option string;
  download : string -> bool;
  compile_source : string -> option (list (string * Artifact J));
  nonce : nat;
  deploy : nat -> string -> option (Receipt J);
  cache_fault : CacheOp -> bool;
  cache_torn : option nat
}.
Arguments cache {J} _.
Arguments data_dir {J} _.
Arguments installed {J} _.
Arguments selected {J} _.
Arguments download {J} _ _.
Arguments compile_source {J} _ _.
Arguments nonce {J} _.
Arguments deploy {J} _ _ _.
Arguments cache_fault {J} _ _.
Arguments cache_torn {J} _.

Record BootOutcome (J A : Type) : Type := {
  b_trace : list (BootEffect J);
  b_world : Boot J;
  b_result : BootResult A
}.
Arguments b_trace {J A} _.
Arguments b_world {J A} _.
Arguments b_result {J A} _.

Definition BM (J A : Type) : Type := Boot J -> BootOutcome J A.

Definition bret {J A : Type} (a : A) : BM J A :=
  fun w => {| b_trace := []; b_world := w; b_result := Done a |}.

Definition braise {J A : Type} (e : BootExn) : BM J A :=
  fun w => {| b_trace := []; b_world := w; b_result := Failed e |}.

Definition bbind {J A B : Type} (m : BM J A) (k : A -> BM J B) : BM J B :=
  fun w =>
    let o := m w in
    match b_result o with
    | Done a =>
        let o' := k a (b_world o) in
        {| b_trace := b_trace o ++ b_trace o'; b_world := b_world o';
           b_result := b_result o' |}
    | Failed e =>
        {| b_trace := b_trace o; b_world := b_world o; b_result := Failed e |}
    end.

(** [try: m except Exception: h]. *)
Definition btry {J A : Type} (m : BM J A) (h : BM J A) : BM J A :=
  fun w =>
    let o := m w in
    match b_result o with
    | Done a => o
    | Failed _ =>
        let o' := h (b_world o) in
        {| b_trace := b_trace o ++ b_trace o'; b_world := b_world o';
           b_result := b_result o' |}
    end.

#[global] Instance BM_ret {J : Type} : MRet (BM J) := fun A a => bret a.
#[global] Instance BM_bind {J : Type} : MBind (BM J) :=
  fun A B k m => bbind m k.

Definition with_selected {J : Type} (ver : string) (w : Boot J) : Boot J :=
  {| cache := cache w; data_dir := data_dir w; installed := installed w;
     selected := Some ver; download := download w;
     compile_source := compile_source w; nonce := nonce w;
     deploy := deploy w; cache_fault := cache_fault w;
     cache_torn := cache_torn w |}.

Definition with_installed {J : Type} (ver : string) (w : Boot J) : Boot J :=
  {| cache := cache w; data_dir := data_dir w;
     installed := ver :: installed w;
     selected := selected w; download := download w;
     compile_source := compile_source w; nonce := nonce w;
     deploy := deploy w; cache_fault := cache_fault w;
     cache_torn := cache_torn w |}.

Definition with_nonce {J : Type} (n : nat) (w : Boot J) : Boot J :=
  {| cache := cache w; data_dir := data_dir w; installed := installed w;
     selected := selected w; download := download w;
     compile_source := compile_source w; nonce := n;
     deploy := deploy w; cache_fault := cache_fault w;
     cache_torn := cache_torn w |}.

Definition with_data_dir {J : Type} (w : Boot J) : Boot J :=
  {| cache := cache w; data_dir := true; installed := installed w;
     selected := selected w; download := download w;
     compile_source := compile_source w; nonce := nonce w;
     deploy := deploy w; cache_fault := cache_fault w;
     cache_torn := cache_torn w |}.

Definition with_cache {J : Type} (text : string) (w : Boot J) : Boot J :=
  {| cache := Some text; data_dir := data_dir w; installed := installed w;
     selected := selected w; download := download w;
     compile_source := compile_source w; nonce := nonce w;
     deploy := deploy w; cache_fault := cache_fault w;
     cache_torn := cache_torn w |}.

(** The cache file after a [write_text] of [text] that raised. *)
Definition torn_cache {J : Type} (text : string) (w : Boot J) : Boot J :=
  match cache_torn w with
  | Some n => with_cache (substring 0 n text) w
  | None => w
  end.

Section Startup.
Context {J : Type} `{Platform J}.

(** [solcx.set_solc_version]: raises when the version is not installed. *)
Definition set_solc_version (ver : string) : BM J unit :=
  fun w =>
    if bool_decide (ver ∈ installed w) then
      {| b_trace := []; b_world := with_selected ver w; b_result := Done tt |}
    else
      {| b_trace := []; b_world := w;
         b_result := Failed (SolcNotInstalled ver) |}.

(** [solcx.install_solc]: downloads the version. *)
Definition install_solc (ver : string) : BM J unit :=
  fun w =>
    if download w ver then
      {| b_trace := [BvInstall ver]; b_world := with_installed ver w;
         b_result := Done tt |}
    else
      {| b_trace := [BvInstall ver]; b_world := w;
         b_result := Failed (SolcInstallError ver) |}.

(** Lines 34 to 39. *)
Definition _install_solc_once : BM J unit :=
  btry (set_solc_version SOLC_VER)
       (install_solc SOLC_VER;; set_solc_version SOLC_VER).

(** [compile_source(CONTRACT_SRC)] with the version that is set. *)
Definition run_compile : BM J (list (string * Artifact J)) :=
  fun w =>
    match selected w with
    | Some ver =>
        {| b_trace := [BvCompile ver]; b_world := w;
           b_result := match compile_source w ver with
                       | Some out => Done out
                       | None => Failed SolcError
                       end |}
    | None => {| b_trace := []; b_world := w; b_result := Failed SolcError |}
    end.

(** [dict.popitem()]: the pair that was inserted last. *)
Definition popitem {A : Type} (d : list (string * A)) : BM J (string * A) :=
  match last d with
  | Some kv => bret kv
  | None => braise (KeyError "popitem(): dictionary is empty")
  end.

(** Lines 42 to 46. *)
Definition _compile_contract : BM J (J * string) :=
  _install_solc_once;;
  out ← run_compile;
  '(_, artifact) ← popitem out;
  mret (a_abi artifact, a_bin artifact).

(** [CONTRACT_FILE.exists()]. *)
Definition cache_exists : BM J bool :=
  fun w => {| b_trace := []; b_world := w;
              b_result := Done (bool_decide (is_Some (cache w))) |}.

(** [CONTRACT_FILE.read_text()]. *)
Definition read_cache : BM J string :=
  fun w =>
    {| b_trace := []; b_world := w;
       b_result := match cache w with
                   | Some text =>
                       if cache_fault w OpReadCache then Failed CacheOSError
                       else Done text
                   | None => Failed CacheOSError
                   end |}.

(** [data[key]]. *)
Definition getitem {A : Type} (key : string) (v : option A) : BM J A :=
  match v with
  | Some a => bret a
  | None => braise (KeyError key)
  end.

Definition loads (text : string) : BM J (Doc J) :=
  match json_loads text with
  | Some d => bret d
  | None => braise JSONDecodeError
  end.

Definition checksum (a : J) : BM J string :=
  match to_checksum_address a with
  | Some s => bret s
  | None => braise InvalidAddress
  end.

(** Lines 58 to 66 as one step: the constructor transaction is built with
    the account's nonce, signed, sent, and its receipt awaited. *)
Definition send_deployment (bytecode : string) : BM J (Receipt J) :=
  fun w =>
    match deploy w (nonce w) bytecode with
    | Some rc =>
        {| b_trace := [BvDeploy (nonce w) bytecode (Some rc)];
           b_world := with_nonce (S (nonce w)) w; b_result := Done rc |}
    | None =>
        {| b_trace := [BvDeploy (nonce w) bytecode None]; b_world := w;
           b_result := Failed NodeError |}
    end.

(** [CONTRACT_FILE.parent.mkdir(parents=True, exist_ok=True)]. *)
Definition mkdir_data : BM J unit :=
  fun w =>
    if cache_fault w OpMkdirData then
      {| b_trace := [BvMkdir]; b_world := w; b_result := Failed CacheOSError |}
    else
      {| b_trace := [BvMkdir]; b_world := with_data_dir w;
         b_result := Done tt |}.

(** [CONTRACT_FILE.write_text(text)]; when it raises, the file is as the
    disk left it. *)
Definition write_cache (text : string) : BM J unit :=
  fun w =>
    if cache_fault w OpWriteCache then
      {| b_trace := [BvWrite text]; b_world := torn_cache text w;
         b_result := Failed CacheOSError |}
    else
      {| b_trace := [BvWrite text]; b_world := with_cache text w;
         b_result := Done tt |}.

(** Lines 49 to 72. *)
Definition _load_or_deploy_contract (AUTO_DEPLOY : bool) : BM J (string * J) :=
  present ← cache_exists;
  if present : bool then
    text ← read_cache;
    data ← loads text;
    a ← getitem "address" (d_address data);
    address ← checksum a;
    abi ← getitem "abi" (d_abi data);
    mret (address, abi)
  else if AUTO_DEPLOY then
    '(abi, bytecode) ← _compile_contract;
    rc ← send_deployment bytecode;
    let addr := contractAddress rc in
    mkdir_data;;
    write_cache (json_dumps addr abi);;
    address ← checksum addr;
    mret (address, abi)
  else braise (RuntimeError NO_CONTRACT).

(** The three ways [_compile_contract] ends once solc is set. *)
Definition compiled (w : Boot J) : BootOutcome J (J * string) :=
  {| b_trace := [BvCompile SOLC_VER]; b_world := w;
     b_result := match compile_source w SOLC_VER with
                 | Some out =>
                     match last out with
                     | Some (_, artifact) =>
                         Done (a_abi artifact, a_bin artifact)
                     | None => Failed (KeyError "popitem(): dictionary is empty")
                     end
                 | None => Failed SolcError
                 end |}.

(** The cached branch of [_load_or_deploy_contract]. *)
Definition from_cache (text : string) (w : Boot J) : BootResult (string * J) :=
  if cache_fault w OpReadCache then Failed CacheOSError
  else match json_loads text with
       | None => Failed JSONDecodeError
       | Some d =>
           match d_address d with
           | None => Failed (KeyError "address")
           | Some a =>
               match to_checksum_address a with
               | None => Failed InvalidAddress
               | Some address =>
                   match d_abi d with
                   | None => Failed (KeyError "abi")
                   | Some abi => Done (address, abi)
                   end
               end
           end
       end.

(** The deploying branch from the point where the contract is compiled. *)
Definition deployed (abi : J) (bytecode : string) (w : Boot J)
  : BootOutcome J (string * J) :=
  match deploy w (nonce w) bytecode with
  | None =>
      {| b_trace := [BvDeploy (nonce w) bytecode None]; b_world := w;
         b_result := Failed NodeError |}
  | Some rc =>
      let text := json_dumps (contractAddress rc) abi in
      let w1 := with_nonce (S (nonce w)) w in
      if cache_fault w OpMkdirData then
        {| b_trace := [BvDeploy (nonce w) bytecode (Some rc); BvMkdir];
           b_world := w1; b_result := Failed CacheOSError |}
      else if cache_fault w OpWriteCache then
        {| b_trace := [BvDeploy (nonce w) bytecode (Some rc); BvMkdir;
                       BvWrite text];
           b_world := torn_cache text (with_data_dir w1);
           b_result := Failed CacheOSError |}
      else
        {| b_trace := [BvDeploy (nonce w) bytecode (Some rc); BvMkdir;
                       BvWrite text];
           b_world := with_cache text (with_data_dir w1);
           b_result := match to_checksum_address (contractAddress rc) with
                       | Some address => Done (address, abi)
                       | None => Failed InvalidAddress
                       end |}
  end.

End Startup.

(** A platform for the examples: a JSON value is its text, and a cache
    file holds the length of the address in unary, then the address, then
    the abi; an address is in order when it is not empty. *)
Fixpoint unary (n : nat) (rest : string) : string :=
  match n with
  | O => String "0" rest
  | S k => String "1" (unary k rest)
  end.

Fixpoint read_unary (s : string) : option (nat * string) :=
  match s with
  | String "0" rest => Some (O, rest)
  | String "1" rest =>
      match read_unary rest with
      | Some (n, r) => Some (S n, r)
      | None => None
      end
  | _ => None
  end.

Fixpoint take_str (n : nat) (s : string) : option (string * string) :=
  match n, s with
  | O, _ => Some ("", s)
  | S k, String c r =>
      match take_str k r with
      | Some (x, y) => Some (String c x, y)
      | None => None
      end
  | S _, EmptyString => None
  end.

#[global] Instance text_platform : Platform string := {|
  to_checksum_address := fun a => if truthy (Some a) then Some a else None;
  json_dumps := fun a b => unary (String.length a) (a ++ b);
  json_loads := fun text =>
    match read_unary text with
    | Some (n, rest) =>
        match take_str n rest with
        | Some (a, b) => Some {| d_address := Some a; d_abi := Some b |}
        | None => None
        end
    | None => None
    end
|}.

(** A machine with nothing installed and no cache file, and a node that
    deploys at the address [0xc0de]; on [reverting] the deployment is
    mined with status 0. *)
Definition blank : Boot string :=
  {| cache := None; data_dir := false; installed := []; selected := None;
     download := fun _ => true;
     compile_source := fun _ =>
       Some [("<stdin>:MetadataRegistry", {| a_abi := "[]"; a_bin := "6080" |})];
     nonce := 0;
     deploy := fun _ _ =>
       Some {| contractAddress := "0xc0de"; rc_status := true |};
     cache_fault := fun _ => false; cache_torn := None |}.

Definition reverting : Boot string :=
  {| cache := None; data_dir := false; installed := []; selected := None;
     download := fun _ => true;
     compile_source := compile_source blank;
     nonce := 0;
     deploy := fun _ _ =>
       Some {| contractAddress := "0xc0de"; rc_status := false |};
     cache_fault := fun _ => false; cache_torn := None |}.

(** The same machine with a disk that has filled up: the cache file can
    be opened, which creates it, but nothing can be written to it. *)
Definition full_boot : Boot string :=
  {| cache := None; data_dir := false; installed := []; selected := None;
     download := fun _ => true;
     compile_source := compile_source blank;
     nonce := 0;
     deploy := deploy blank;
     cache_fault := fun op => match op with
                              | OpWriteCache => true
                              | _ => false
                              end;
     cache_torn := Some 0 |}.

(** * Properties *)

(** ** The digests on known inputs *)

Example sha256_abc :
  hex (SHA256.digest (encode "abc"))
  = "ba7816bf8f01cfea414140de5dae2223b00361a396177a9cb410ff61f20015ad".
Proof. vm_compute. reflexivity. Qed.

Example sha256_two_blocks :
  hex (SHA256.digest (repeat "a"%byte 64))
  = "ffe054fe7ae0cb6dc65c3af9b61d5209f439851db43d0ba5997337df154668eb".
Proof. vm_compute. reflexivity. Qed.

Example keccak256_empty :
  hex (Keccak.keccak256 [])
  = "c5d2460186f7233c927e7db2dcc703c0e500b653ca82273b7bfad8045d85a470".
Proof. vm_compute. reflexivity. Qed.

Example keccak256_abc :
  hex (Keccak.keccak256 (encode "abc"))
  = "4e03657aea45a94fc7d47ba826c8d667c0d1e6e33a64a036ec44f58fa12d6c45".
Proof. vm_compute. reflexivity. Qed.

Example keccak256_full_block :
  hex (Keccak.keccak256 (repeat "a"%byte 136))
  = "a6c4d403279fe3e0af03729caada8374b5ca54d8065329a3ebcaeb4b60aa386e".
Proof. vm_compute. reflexivity. Qed.

(** ** Hexadecimal *)

Lemma string_ind2 (P : string -> Prop) :
  P "" ->
  (forall c, P (String c "")) ->
  (forall a b r, P r -> P (String a (String b r))) ->
  forall s, P s.
Proof.
  intros H0 H1 H2.
  fix IH 1. intros [|a [|b r]].
  - exact H0.
  - apply H1.
  - apply H2, IH.
Qed.

Lemma hex_byte (b : byte) :
  hexval (hexdigit (Byte.to_N b / 16)) = Some (Byte.to_N b / 16)%N
  /\ hexval (hexdigit (Byte.to_N b mod 16)) = Some (Byte.to_N b mod 16)%N
  /\ byte_of_N (16 * (Byte.to_N b / 16) + Byte.to_N b mod 16) = b.
Proof. destruct b; vm_compute; auto. Qed.

Lemma unhex_hex (b : bytes) : unhex (hex b) = Some b.
Proof.
  induction b as [|x r IH]; simpl; [reflexivity|].
  destruct (hex_byte x) as (-> & -> & ->). rewrite IH. reflexivity.
Qed.

Lemma hex_inj (a b : bytes) : hex a = hex b -> a = b.
Proof.
  intros E. assert (Some a = Some b) as [= ->]; [|reflexivity].
  rewrite <- (unhex_hex a), <- (unhex_hex b), E. reflexivity.
Qed.

Lemma hex_length (b : bytes) : String.length (hex b) = 2 * length b.
Proof. induction b; simpl; lia. Qed.

Lemma unhex_length (s : string) (raw : bytes) :
  unhex s = Some raw -> String.length s = 2 * length raw.
Proof.
  revert raw. induction s as [| c | a b r IH] using string_ind2;
    intros raw; simpl.
  - intros [= <-]. reflexivity.
  - discriminate.
  - destruct (hexval a), (hexval b), (unhex r) as [bs|]; try discriminate.
    intros [= <-]. simpl. rewrite (IH bs eq_refl). lia.
Qed.

Lemma hex_digit_ascii (c : ascii) : is_hex_digit c = true -> is_ascii c = true.
Proof.
  destruct c as [[] [] [] [] [] [] [] []]; vm_compute; congruence.
Qed.

Lemma unhex_digits (s : string) :
  is_Some (unhex s)
  <-> Nat.even (String.length s) = true /\ forallb_string is_hex_digit s = true.
Proof.
  induction s as [| c | a b r IH] using string_ind2.
  - simpl. split; [auto | intros _; eexists; reflexivity].
  - simpl. split; [intros [x Hx]; discriminate | intros [H _]; discriminate].
  - cbn [unhex String.length forallb_string]. unfold is_hex_digit at 1 2.
    change (Nat.even (S (S (String.length r)))) with (Nat.even (String.length r)).
    destruct (hexval a), (hexval b); simpl.
    + destruct (unhex r) as [bs|].
      * split; [intros _; apply IH; eexists; reflexivity
               | intros _; eexists; reflexivity].
      * split; [intros [x Hx]; discriminate
               | intros HH; apply IH in HH; destruct HH; discriminate].
    + split; [intros [x Hx]; discriminate | intros [_ ?]; discriminate].
    + split; [intros [x Hx]; discriminate | intros [_ ?]; discriminate].
    + split; [intros [x Hx]; discriminate | intros [_ ?]; discriminate].
Qed.

Lemma forallb_string_impl (p q : ascii -> bool) (s : string) :
  (forall c, p c = true -> q c = true) ->
  forallb_string p s = true -> forallb_string q s = true.
Proof.
  intros Hpq. induction s as [|c r IH]; simpl; [auto|].
  intros [Hc Hr]%andb_true_iff. rewrite (Hpq _ Hc), (IH Hr). reflexivity.
Qed.

Lemma odd_even_length (n : nat) : Nat.odd n = negb (Nat.even n).
Proof. unfold Nat.odd. reflexivity. Qed.

(** [unhexlify] succeeds exactly where the digit decoder does. *)
Lemma unhexlify_Return (s : string) (raw : bytes) :
  unhexlify s = Return raw <-> unhex s = Some raw.
Proof.
  unfold unhexlify. split.
  - destruct (negb (forallb_string is_ascii s)); [discriminate|].
    destruct (Nat.odd (String.length s)); [discriminate|].
    destruct (unhex s); [intros [= ->]; reflexivity | discriminate].
  - intros Hs.
    destruct (proj1 (unhex_digits s)) as [Hev Hdig]; [rewrite Hs; eexists; reflexivity|].
    rewrite (forallb_string_impl _ _ _ hex_digit_ascii Hdig).
    rewrite odd_even_length, Hev, Hs. reflexivity.
Qed.

Lemma unhexlify_Raise (s : string) (e : Exn) :
  unhexlify s = Raise e ->
  unhex s = None /\ exists msg, e = ValueError msg \/ e = BinasciiError msg.
Proof.
  unfold unhexlify.
  destruct (forallb_string is_ascii s) eqn:Ha; simpl.
  - destruct (Nat.odd (String.length s)) eqn:Ho.
    + intros [= <-]. split; [|eauto].
      destruct (unhex s) eqn:Hu; [|reflexivity].
      destruct (proj1 (unhex_digits s)) as [Hev _]; [rewrite Hu; eexists; reflexivity|].
      rewrite odd_even_length, Hev in Ho. discriminate.
    + destruct (unhex s); [discriminate|]. intros [= <-]. eauto.
  - intros [= <-]. split; [|eauto].
    destruct (unhex s) eqn:Hu; [|reflexivity].
    destruct (proj1 (unhex_digits s)) as [_ Hdig]; [rewrite Hu; eexists; reflexivity|].
    rewrite (forallb_string_impl _ _ _ hex_digit_ascii Hdig) in Ha. discriminate.
Qed.

Lemma strip_0x_if (s : string) :
  (if startswith_0x s then strip_0x s else s) = strip_0x s.
Proof.
  destruct s as [|a [|b r]]; try reflexivity; simpl.
  - destruct a as [[] [] [] [] [] [] [] []]; reflexivity.
  - destruct a as [[] [] [] [] [] [] [] []]; try reflexivity;
    destruct b as [[] [] [] [] [] [] [] []]; reflexivity.
Qed.

Lemma drop2_if (s : string) :
  (if startswith_0x s then drop2 s else s) = strip_0x s.
Proof.
  destruct s as [|a [|b r]]; try reflexivity; simpl.
  - destruct a as [[] [] [] [] [] [] [] []]; reflexivity.
  - destruct a as [[] [] [] [] [] [] [] []]; try reflexivity;
    destruct b as [[] [] [] [] [] [] [] []]; reflexivity.
Qed.

(** [_b32] returns [raw] exactly when the digits after the optional prefix
    decode to [raw] and [raw] has 32 bytes. *)
Lemma b32_Return (s : string) (raw : bytes) :
  _b32 s = Return raw <-> unhex (strip_0x s) = Some raw /\ length raw = 32.
Proof.
  unfold _b32. rewrite strip_0x_if. split.
  - destruct (unhexlify (strip_0x s)) as [r|e] eqn:Hu; [|discriminate].
    apply unhexlify_Return in Hu.
    destruct (length r =? 32)%nat eqn:Hl; simpl; [|discriminate].
    intros [= <-]. split; [assumption | apply Nat.eqb_eq, Hl].
  - intros [Hu Hl]. apply unhexlify_Return in Hu. rewrite Hu.
    apply Nat.eqb_eq in Hl. rewrite Hl. reflexivity.
Qed.

Lemma b32_Raise (s : string) (e : Exn) :
  _b32 s = Raise e -> exists msg, e = ValueError msg \/ e = BinasciiError msg.
Proof.
  unfold _b32. rewrite strip_0x_if.
  destruct (unhexlify (strip_0x s)) as [r|e'] eqn:Hu.
  - destruct (negb (length r =? 32)%nat); [|discriminate].
    intros [= <-]. eauto.
  - intros [= <-]. apply unhexlify_Raise in Hu. tauto.
Qed.

Lemma b32_total (s : string) :
  (exists raw, _b32 s = Return raw) \/ (exists e, _b32 s = Raise e).
Proof. destruct (_b32 s); eauto. Qed.

(** In terms of the characters: 64 hexadecimal digits. *)
Lemma b32_accepts (s : string) :
  (exists raw, _b32 s = Return raw)
  <-> String.length (strip_0x s) = 64
      /\ forallb_string is_hex_digit (strip_0x s) = true.
Proof.
  split.
  - intros [raw [Hu Hl]%b32_Return].
    pose proof (unhex_length _ _ Hu) as Hlen.
    destruct (proj1 (unhex_digits (strip_0x s))) as [_ Hd];
      [rewrite Hu; eexists; reflexivity|].
    split; [lia | assumption].
  - intros [Hlen Hd].
    destruct (proj2 (unhex_digits (strip_0x s))) as [raw Hu].
    { split; [rewrite Hlen; reflexivity | assumption]. }
    exists raw. apply b32_Return. split; [assumption|].
    apply unhex_length in Hu. lia.
Qed.

(** ** The handlers, run symbolically *)

Lemma str_app_cons (c : ascii) (r s : string) :
  String c r ++ s = String c (r ++ s).
Proof. reflexivity. Qed.

Lemma str_app_nil (s : string) : "" ++ s = s.
Proof. reflexivity. Qed.

Lemma to_bytes_digest (d : bytes) : to_bytes_hexstr ("0x" ++ hex d) = Return d.
Proof.
  unfold to_bytes_hexstr. rewrite !str_app_cons, str_app_nil.
  cbn [String.length]. rewrite hex_length.
  replace (S (S (2 * length d))) with (2 + 2 * length d) by lia.
  rewrite Nat.odd_add_mul_2. cbn [Nat.odd Nat.even negb remove_0x_prefix].
  apply unhexlify_Return, unhex_hex.
Qed.

Lemma to_bytes_sentinel :
  to_bytes_hexstr ("0x" ++ str_repeat "0" 64) = Return ZERO_HASH.
Proof. vm_compute. reflexivity. Qed.

Lemma drop2_to_hex (b : bytes) : drop2 (to_hex b) = hex b.
Proof. reflexivity. Qed.

Lemma truthy_the (o : option string) :
  truthy o = true -> o = Some (the o) /\ the o <> "".
Proof. destruct o as [[|c r]|]; simpl; try discriminate. intros _. split; congruence. Qed.

(** A write that raised touches its own file only. *)
Lemma torn_chain {L : Type} (p : Path) (text : string) (w : World L) :
  chain (torn p text w) = chain w.
Proof. unfold torn. destruct (fs_torn w p); reflexivity. Qed.

Lemma torn_dirs {L : Type} (p : Path) (text : string) (w : World L) :
  dirs (torn p text w) = dirs w.
Proof. unfold torn. destruct (fs_torn w p); reflexivity. Qed.

Lemma torn_fs_fault {L : Type} (p : Path) (text : string) (w : World L) :
  fs_fault (torn p text w) = fs_fault w.
Proof. unfold torn. destruct (fs_torn w p); reflexivity. Qed.

Lemma torn_objects_ne {L : Type} (p q : Path) (text : string) (w : World L) :
  q <> p -> objects (torn p text w) !! q = objects w !! q.
Proof.
  intros Hq. unfold torn. destruct (fs_torn w p); [|reflexivity].
  cbn [objects with_object]. apply lookup_insert_ne. congruence.
Qed.

Section Runs.
Context {L : Type} `{Ledger L}.
Variable base : string.

Lemma bind_eq {A B : Type} (m : M L A) (k : A -> M L B) (w : World L)
    (o : Outcome L A) :
  m w = o ->
  bind m k w
  = match result o with
    | Return a => prepend (trace o) (k a (world o))
    | Raise e => failed (world o) (trace o) e
    end.
Proof. intros <-. reflexivity. Qed.

Lemma bind_ret {A B : Type} (a : A) (k : A -> M L B) (w : World L) :
  bind (ret a) k w = k a w.
Proof. unfold bind, ret. cbn. destruct (k a w). reflexivity. Qed.

Lemma bind_raise {A B : Type} (e : Exn) (k : A -> M L B) (w : World L) :
  bind (raise e) k w = failed w [] e.
Proof. reflexivity. Qed.

Lemma prepend_nil {A : Type} (o : Outcome L A) : prepend [] o = o.
Proof. destruct o. reflexivity. Qed.

Lemma prepend_prepend {A : Type} (s t : list Effect) (o : Outcome L A) :
  prepend s (prepend t o) = prepend (s ++ t) o.
Proof. unfold prepend. cbn [trace world result]. rewrite app_assoc. reflexivity. Qed.

Lemma prepend_failed {A : Type} (t pre : list Effect) (w : World L) (e : Exn) :
  prepend t (@failed L A w pre e) = failed w (t ++ pre) e.
Proof. reflexivity. Qed.

Lemma prepend_sent {A : Type} (t pre : list Effect) (w : World L) (tx : Tx)
    (resp : bytes -> A) :
  prepend t (sent w tx resp pre) = sent w tx resp (t ++ pre).
Proof.
  unfold sent, prepend. destruct (send_tx (chain w) tx);
    cbn [trace world result]; rewrite app_assoc; reflexivity.
Qed.

Lemma prepend_stored {A : Type} (t pre : list Effect) (w : World L)
    (dir file text : string) (tx : Tx) (resp : bytes -> A) :
  prepend t (stored w dir file text tx resp pre)
  = stored w dir file text tx resp (t ++ pre).
Proof.
  unfold stored.
  destruct (fs_fault w (OpMkdir dir));
    [unfold prepend; cbn [trace world result]; rewrite app_assoc; reflexivity|].
  destruct (fs_fault w (OpWrite (dir, file)));
    [unfold prepend; cbn [trace world result]; rewrite app_assoc; reflexivity|].
  rewrite prepend_sent, app_assoc. reflexivity.
Qed.

(** The transaction step followed by the response. *)
Lemma transact_run {A : Type} (tx : Tx) (resp : bytes -> A) (w : World L) :
  bind (transact tx) (fun h => ret (resp h)) w = sent w tx resp [].
Proof.
  unfold bind, transact, sent.
  destruct (send_tx (chain w) tx); reflexivity.
Qed.

(** Directory and file, followed by [k]. *)
Lemma store_run {A : Type} (dir file text : string) (k : M L A) (w : World L) :
  bind (mkdir dir) (fun _ => bind (write_text (dir, file) text) (fun _ => k)) w
  = if fs_fault w (OpMkdir dir) then failed w [EvMkdir dir] (OSError dir)
    else if fs_fault w (OpWrite (dir, file)) then
      failed (torn (dir, file) text (with_dir dir w))
             [EvMkdir dir; EvWrite (dir, file) text]
             (OSError (path_str (dir, file)))
    else
      prepend [EvMkdir dir; EvWrite (dir, file) text]
              (k (with_object (dir, file) text (with_dir dir w))).
Proof.
  unfold bind at 1. unfold mkdir.
  destruct (fs_fault w (OpMkdir dir)) eqn:Hm; [reflexivity|]. cbn [result world trace].
  unfold bind, write_text. cbn [fs_fault with_dir].
  destruct (fs_fault w (OpWrite (dir, file))) eqn:Hw; reflexivity.
Qed.

Lemma create_rid_run now req (w : World L) :
  (if truthy (cr_recordIdHex req) then parse_rid (the (cr_recordIdHex req))
   else ret (Keccak.keccak256
               (encode (if truthy (cr_json_text req)
                        then the (cr_json_text req) else now)))) w
  = match create_rid now req with
    | Return rid => {| trace := []; world := w; result := Return rid |}
    | Raise e => failed w [] (bad_id e)
    end.
Proof.
  unfold create_rid, parse_rid.
  destruct (truthy (cr_recordIdHex req)); [|reflexivity].
  destruct (_b32 _); reflexivity.
Qed.

Ltac bind_with E :=
  unfold mbind, M_bind; erewrite bind_eq by (apply E);
  cbn [result world trace ret raise].

Lemma create_bad_id now req w e :
  create_rid now req = Raise e ->
  create base now req w = failed w [] (bad_id e).
Proof.
  intros Hrid. unfold create. bind_with create_rid_run.
  rewrite Hrid. reflexivity.
Qed.

Lemma create_neither now req w rid :
  create_rid now req = Return rid ->
  truthy (cr_json_text req) = false -> truthy (cr_uri req) = false ->
  create base now req w = failed w [] (HTTPException 400 MISSING_BODY).
Proof.
  intros Hrid Hj Hu. unfold create. bind_with create_rid_run.
  rewrite Hrid, Hj, Hu. cbn [result world trace].
  rewrite prepend_nil, bind_raise. reflexivity.
Qed.

Lemma create_external now req w rid :
  create_rid now req = Return rid ->
  truthy (cr_json_text req) = false -> truthy (cr_uri req) = true ->
  create base now req w
  = sent w (TxCreate rid ZERO_HASH (the (cr_uri req)))
         (create_resp rid (the (cr_uri req))) [].
Proof.
  intros Hrid Hj Hu. unfold create. bind_with create_rid_run.
  rewrite Hrid, Hj, Hu. cbn [result world trace].
  rewrite prepend_nil, bind_ret. cbn beta iota.
  rewrite to_bytes_sentinel. cbn [lift]. rewrite bind_ret.
  apply (transact_run _ (create_resp rid (the (cr_uri req)))).
Qed.

Lemma create_inline now req w rid :
  create_rid now req = Return rid ->
  truthy (cr_json_text req) = true ->
  create base now req w
  = stored w (hex rid) "v1.json" (the (cr_json_text req))
           (TxCreate rid (SHA256.digest (encode (the (cr_json_text req))))
                     (object_uri base (hex rid) "v1.json"))
           (create_resp rid (object_uri base (hex rid) "v1.json")) [].
Proof.
  intros Hrid Hj. unfold create. bind_with create_rid_run.
  rewrite Hrid, Hj. cbn [result world trace fst].
  rewrite prepend_nil, drop2_to_hex.
  erewrite bind_eq by (apply store_run). unfold stored.
  destruct (fs_fault w (OpMkdir (hex rid))); [reflexivity|].
  destruct (fs_fault w (OpWrite (hex rid, "v1.json"))); [reflexivity|].
  cbn [ret prepend result world trace app].
  unfold _sha256_hex. rewrite to_bytes_digest. cbn [lift].
  rewrite bind_ret.
  rewrite (transact_run _ (create_resp rid (object_uri base (hex rid) "v1.json"))).
  rewrite prepend_sent. reflexivity.
Qed.

Lemma parse_rid_run r (w : World L) :
  parse_rid r w
  = match _b32 r with
    | Return rid => {| trace := []; world := w; result := Return rid |}
    | Raise e => failed w [] (bad_id e)
    end.
Proof. unfold parse_rid. destruct (_b32 r); reflexivity. Qed.

(** [get_one], case by case. *)
Lemma get_one_bad_id r w e :
  _b32 r = Raise e -> get_one r w = failed w [] (bad_id e).
Proof.
  intros Hr. unfold get_one. bind_with parse_rid_run. rewrite Hr. reflexivity.
Qed.

Lemma get_one_unreachable r w rid :
  _b32 r = Return rid -> reachable (chain w) = false ->
  get_one r w = failed w [EvCall rid] RpcError.
Proof.
  intros Hr Hn. unfold get_one. bind_with parse_rid_run. rewrite Hr.
  cbn [result world trace]. rewrite prepend_nil.
  unfold bind, call_get. cbn [result world trace]. rewrite Hn. reflexivity.
Qed.

Lemma get_one_reachable r w rid :
  _b32 r = Return rid -> reachable (chain w) = true ->
  get_one r w
  = if String.eqb (r_owner (contract_get (chain w) rid)) ZERO_ADDRESS
    then failed w [EvCall rid] NOT_FOUND
    else {| trace := [EvCall rid]; world := w;
            result := Return (record_view r (contract_get (chain w) rid)) |}.
Proof.
  intros Hr Hn. unfold get_one. bind_with parse_rid_run. rewrite Hr.
  cbn [result world trace]. rewrite prepend_nil.
  unfold bind, call_get. cbn [result world trace]. rewrite Hn.
  destruct (String.eqb _ _); reflexivity.
Qed.

(** [update], case by case. *)
Lemma update_bad_id r req w e :
  _b32 r = Raise e -> update base r req w = failed w [] (bad_id e).
Proof.
  intros Hr. unfold update. bind_with parse_rid_run. rewrite Hr. reflexivity.
Qed.

Lemma update_unreachable r req w rid :
  _b32 r = Return rid -> reachable (chain w) = false ->
  update base r req w = failed w [EvCall rid] RpcError.
Proof.
  intros Hr Hn. unfold update. bind_with parse_rid_run. rewrite Hr.
  cbn [result world trace]. rewrite prepend_nil.
  unfold bind at 1. unfold call_get. cbn [result world trace].
  rewrite Hn. reflexivity.
Qed.

Lemma update_reachable r req w rid :
  _b32 r = Return rid -> reachable (chain w) = true ->
  let it := contract_get (chain w) rid in
  let file := version_file (r_version it + 1) in
  let text := the (ur_json_text req) in
  update base r req w
  = if String.eqb (r_owner it) ZERO_ADDRESS then
      failed w [EvCall rid] NOT_FOUND
    else if truthy (ur_json_text req) then
      stored w (strip_0x r) file text
             (TxUpdate rid (SHA256.digest (encode text))
                       (object_uri base (strip_0x r) file))
             (update_resp r (object_uri base (strip_0x r) file)) [EvCall rid]
    else if truthy (ur_uri req) then
      sent w (TxUpdate rid ZERO_HASH (the (ur_uri req)))
           (update_resp r (the (ur_uri req))) [EvCall rid]
    else failed w [EvCall rid] (HTTPException 400 MISSING_BODY).
Proof.
  intros Hr Hn it file text. unfold update. bind_with parse_rid_run. rewrite Hr.
  cbn [result world trace]. rewrite prepend_nil.
  erewrite bind_eq by reflexivity. unfold call_get at 1 2 3.
  cbn [result world trace]. rewrite Hn. fold it.
  destruct (String.eqb (r_owner it) ZERO_ADDRESS).
  { rewrite bind_raise. reflexivity. }
  rewrite bind_ret. rewrite drop2_if. fold file.
  destruct (truthy (ur_json_text req)); [|destruct (truthy (ur_uri req))].
  - cbn [fst]. erewrite bind_eq by (apply store_run). unfold stored.
    destruct (fs_fault w (OpMkdir (strip_0x r))); [reflexivity|].
    destruct (fs_fault w (OpWrite (strip_0x r, file))); [reflexivity|].
    cbn [ret prepend result world trace app].
    unfold _sha256_hex. rewrite to_bytes_digest. cbn [lift].
    rewrite bind_ret.
    rewrite (transact_run _ (update_resp r (object_uri base (strip_0x r) file))).
    rewrite !prepend_sent. reflexivity.
  - rewrite bind_ret. cbn beta iota. rewrite to_bytes_sentinel. cbn [lift].
    rewrite bind_ret.
    rewrite (transact_run _ (update_resp r (the (ur_uri req)))).
    rewrite prepend_sent. reflexivity.
  - rewrite bind_raise. reflexivity.
Qed.

End Runs.

(** ** What a run leaves in the trace *)

Lemma writes_app (s t : list Effect) :
  writes (s ++ t) = (writes s ++ writes t)%list.
Proof.
  induction s as [|e s IH]; [reflexivity|].
  destruct e; cbn [writes app]; rewrite IH; reflexivity.
Qed.

Lemma transactions_app (s t : list Effect) :
  transactions (s ++ t) = (transactions s ++ transactions t)%list.
Proof.
  induction s as [|e s IH]; [reflexivity|].
  destruct e; cbn [transactions app]; rewrite IH; reflexivity.
Qed.

Section Shapes.
Context {L : Type} `{Ledger L} {A : Type}.
Implicit Types (w : World L) (tx : Tx) (resp : bytes -> A) (pre : list Effect).

Lemma sent_transactions w tx resp pre :
  transactions (trace (sent w tx resp pre)) = (transactions pre ++ [tx])%list.
Proof.
  unfold sent. destruct (send_tx (chain w) tx); cbn [trace];
    rewrite transactions_app; reflexivity.
Qed.

Lemma sent_writes w tx resp pre :
  writes (trace (sent w tx resp pre)) = writes pre.
Proof.
  unfold sent. destruct (send_tx (chain w) tx); cbn [trace];
    rewrite writes_app; cbn; apply app_nil_r.
Qed.

Lemma sent_status w tx resp pre :
  http_status (result (sent w tx resp pre)) = 200%Z
  \/ http_status (result (sent w tx resp pre)) = 500%Z.
Proof. unfold sent. destruct (send_tx (chain w) tx); cbn; auto. Qed.

Lemma sent_Return w tx resp pre a :
  result (sent w tx resp pre) = Return a ->
  exists l' h st, send_tx (chain w) tx = Mined l' h st /\ a = resp h
    /\ sent w tx resp pre
       = {| trace := pre ++ [EvTransact tx (Some st)];
            world := with_chain l' w; result := Return (resp h) |}.
Proof.
  unfold sent. destruct (send_tx (chain w) tx) as [l' h st|l']; cbn.
  - intros [= <-]. eauto 6.
  - discriminate.
Qed.

Lemma stored_transactions w dir file text tx resp pre :
  transactions (trace (stored w dir file text tx resp pre))
  = (transactions pre
     ++ (if fs_fault w (OpMkdir dir) || fs_fault w (OpWrite (dir, file))
         then [] else [tx]))%list.
Proof.
  unfold stored.
  destruct (fs_fault w (OpMkdir dir)); cbn [orb trace].
  { rewrite transactions_app. reflexivity. }
  destruct (fs_fault w (OpWrite (dir, file))); cbn [trace].
  { rewrite transactions_app. reflexivity. }
  rewrite sent_transactions, transactions_app. cbn. rewrite app_nil_r.
  reflexivity.
Qed.

Lemma stored_writes w dir file text tx resp pre :
  writes (trace (stored w dir file text tx resp pre))
  = (writes pre
     ++ (if fs_fault w (OpMkdir dir) then [] else [(dir, file)]))%list.
Proof.
  unfold stored.
  destruct (fs_fault w (OpMkdir dir)); cbn [trace].
  { rewrite writes_app. reflexivity. }
  destruct (fs_fault w (OpWrite (dir, file))); cbn [trace].
  { rewrite writes_app. reflexivity. }
  rewrite sent_writes, writes_app. reflexivity.
Qed.

Lemma stored_status w dir file text tx resp pre :
  http_status (result (stored w dir file text tx resp pre)) = 200%Z
  \/ http_status (result (stored w dir file text tx resp pre)) = 500%Z.
Proof.
  unfold stored.
  destruct (fs_fault w (OpMkdir dir)); [cbn; auto|].
  destruct (fs_fault w (OpWrite (dir, file))); [cbn; auto|].
  apply sent_status.
Qed.

Lemma stored_Return w dir file text tx resp pre a :
  result (stored w dir file text tx resp pre) = Return a ->
  fs_fault w (OpMkdir dir) = false /\ fs_fault w (OpWrite (dir, file)) = false
  /\ exists l' h st,
       send_tx (chain w) tx = Mined l' h st /\ a = resp h
       /\ stored w dir file text tx resp pre
          = {| trace := pre ++ [EvMkdir dir; EvWrite (dir, file) text;
                                EvTransact tx (Some st)];
               world := with_chain l' (with_object (dir, file) text
                                         (with_dir dir w));
               result := Return (resp h) |}.
Proof.
  unfold stored.
  destruct (fs_fault w (OpMkdir dir)); [discriminate|].
  destruct (fs_fault w (OpWrite (dir, file))); [discriminate|].
  intros (l' & h & st & Hs & -> & Hq)%sent_Return. cbn [chain with_object with_dir] in Hs.
  repeat split; try reflexivity. exists l', h, st. repeat split; [assumption|].
  rewrite Hq, <- app_assoc. reflexivity.
Qed.

End Shapes.





Lemma bad_id_status {A : Type} (e : Exn) :
  http_status (@Raise A (bad_id e)) = 400%Z.
Proof. reflexivity. Qed.

Ltac status_absurd H :=
  let E := fresh "E" in
  match type of H with
  | http_status (result (sent ?w ?tx ?resp ?pre)) = _ =>
      destruct (sent_status w tx resp pre) as [E|E];
      rewrite E in H; discriminate H
  | http_status (result (stored ?w ?d ?f ?t ?tx ?resp ?pre)) = _ =>
      destruct (stored_status w d f t tx resp pre) as [E|E];
      rewrite E in H; discriminate H
  end.

(** ** C1: which requests are refused for a missing body *)

(** C1, as claimed, fails: a create and an update that carry both
    [json_text] and [uri] are answered with 200. *)
Lemma C1_both_supplied_is_accepted :
  truthy (cr_json_text req_both) = true
  /\ truthy (cr_uri req_both) = true
  /\ http_status (result (create "" "1700000000.0" req_both genesis)) = 200%Z
  /\ truthy (ur_json_text upd_both) = true
  /\ truthy (ur_uri upd_both) = true
  /\ http_status (result (update "" RID1 upd_both world1)) = 200%Z.
Proof. vm_compute. repeat split; reflexivity. Qed.

(** C1 (amended): [create] and [update] answer 400 exactly when the record
    id is malformed or, the id being in order (and, for [update], the
    record found), neither [json_text] nor [uri] is supplied; in
    particular a request supplying both is not refused. *)
Theorem C1_missing_body_400 :
  forall (L : Type) (HL : Ledger L) (base now r : string) (req : CreateReq)
         (ureq : UpdateReq) (w : World L),
    (http_status (result (create base now req w)) = 400%Z
     <-> (exists e, create_rid now req = Raise e)
         \/ (truthy (cr_json_text req) = false
             /\ truthy (cr_uri req) = false))
    /\ (http_status (result (update base r ureq w)) = 400%Z
        <-> (exists e, _b32 r = Raise e)
            \/ (exists rid, _b32 r = Return rid
                  /\ reachable (chain w) = true
                  /\ r_owner (contract_get (chain w) rid) <> ZERO_ADDRESS
                  /\ truthy (ur_json_text ureq) = false
                  /\ truthy (ur_uri ureq) = false)).
Proof.
  intros L HL base now r req ureq w. split.
  - destruct (create_rid now req) as [rid|e] eqn:Hrid.
    + destruct (truthy (cr_json_text req)) eqn:Hj;
        [|destruct (truthy (cr_uri req)) eqn:Hu].
      * rewrite (create_inline base now req w rid Hrid Hj). split.
        -- intros Hs. status_absurd Hs.
        -- intros [[e He]|[? _]]; discriminate.
      * rewrite (create_external base now req w rid Hrid Hj Hu). split.
        -- intros Hs. status_absurd Hs.
        -- intros [[e He]|[_ ?]]; discriminate.
      * rewrite (create_neither base now req w rid Hrid Hj Hu). split; auto.
    + rewrite (create_bad_id base now req w e Hrid). split; eauto.
  - destruct (_b32 r) as [rid|e] eqn:Hr.
    + destruct (reachable (chain w)) eqn:Hn.
      * rewrite (update_reachable base r ureq w rid Hr Hn). cbv zeta.
        destruct (String.eqb_spec (r_owner (contract_get (chain w) rid)) ZERO_ADDRESS) as [Ho|Ho].
        { split; [discriminate|].
          intros [[e He]|(rid' & [= <-] & _ & Hne & _)]; [discriminate|contradiction]. }
        destruct (truthy (ur_json_text ureq)) eqn:Hj;
          [|destruct (truthy (ur_uri ureq)) eqn:Hu].
        -- split; [intros Hs; status_absurd Hs|].
           intros [[e He]|(rid' & _ & _ & _ & ? & _)]; discriminate.
        -- split; [intros Hs; status_absurd Hs|].
           intros [[e He]|(rid' & _ & _ & _ & _ & ?)]; discriminate.
        -- split; [|reflexivity]. intros _. right. exists rid. auto.
      * rewrite (update_unreachable base r ureq w rid Hr Hn). split; [discriminate|].
        intros [[e He]|(rid' & _ & ? & _)]; discriminate.
    + rewrite (update_bad_id base r ureq w e Hr). split; eauto.
Qed.

(** ** C2: the content hash handed to the ledger *)

(** C2: every transaction that [create] or [update] submits carries the
    SHA-256 digest of the encoded [json_text] when that is supplied, and
    32 zero bytes when only [uri] is; a request that is answered with 200
    has submitted exactly one transaction. *)
Theorem C2_content_hash :
  forall (L : Type) (HL : Ledger L) (base now r : string) (req : CreateReq)
         (ureq : UpdateReq) (w : World L),
    Forall (fun tx =>
              (truthy (cr_json_text req) = true
               /\ tx_contentHash tx
                  = SHA256.digest (encode (the (cr_json_text req))))
              \/ (truthy (cr_json_text req) = false
                  /\ truthy (cr_uri req) = true
                  /\ tx_contentHash tx = repeat x00 32))
           (transactions (trace (create base now req w)))
    /\ Forall (fun tx =>
                 (truthy (ur_json_text ureq) = true
                  /\ tx_contentHash tx
                     = SHA256.digest (encode (the (ur_json_text ureq))))
                 \/ (truthy (ur_json_text ureq) = false
                     /\ truthy (ur_uri ureq) = true
                     /\ tx_contentHash tx = repeat x00 32))
              (transactions (trace (update base r ureq w)))
    /\ (http_status (result (create base now req w)) = 200%Z ->
        exists tx, transactions (trace (create base now req w)) = [tx])
    /\ (http_status (result (update base r ureq w)) = 200%Z ->
        exists tx, transactions (trace (update base r ureq w)) = [tx]).
Proof.
  intros L HL base now r req ureq w.
  assert (Hc : forall A (o : Outcome L A) (P : Tx -> Prop) tx,
             P tx ->
             (transactions (trace o) = [] \/ transactions (trace o) = [tx]) ->
             Forall P (transactions (trace o))).
  { intros A o P tx Hp [-> | ->]; repeat constructor; assumption. }
  assert (Hst : forall A (w0 : World L) d f t tx (resp : bytes -> A),
             transactions (trace (stored w0 d f t tx resp [])) = []
             \/ transactions (trace (stored w0 d f t tx resp [])) = [tx]).
  { intros. rewrite stored_transactions.
    destruct (_ || _); cbn; auto. }
  assert (Hst1 : forall A (w0 : World L) d f t tx (resp : bytes -> A) rid,
             transactions (trace (stored w0 d f t tx resp [EvCall rid])) = []
             \/ transactions (trace (stored w0 d f t tx resp [EvCall rid])) = [tx]).
  { intros. rewrite stored_transactions.
    destruct (_ || _); cbn; auto. }
  assert (Hok : forall A (w0 : World L) d f t tx (resp : bytes -> A) pre,
             transactions pre = [] ->
             http_status (result (stored w0 d f t tx resp pre)) = 200%Z ->
             transactions (trace (stored w0 d f t tx resp pre)) = [tx]).
  { intros A w0 d f t tx resp pre Hpre Hs. rewrite stored_transactions, Hpre.
    unfold stored in Hs.
    destruct (fs_fault w0 (OpMkdir d)); [discriminate|].
    destruct (fs_fault w0 (OpWrite (d, f))); [discriminate|]. reflexivity. }
  repeat split.
  - destruct (create_rid now req) as [rid|e] eqn:Hrid.
    + destruct (truthy (cr_json_text req)) eqn:Hj;
        [|destruct (truthy (cr_uri req)) eqn:Hu].
      * rewrite (create_inline base now req w rid Hrid Hj).
        eapply Hc; [|apply Hst]. cbv beta. left. split; reflexivity.
      * rewrite (create_external base now req w rid Hrid Hj Hu).
        rewrite sent_transactions. cbn [transactions app].
           constructor; [right; auto | constructor].
      * rewrite (create_neither base now req w rid Hrid Hj Hu). constructor.
    + rewrite (create_bad_id base now req w e Hrid). constructor.
  - destruct (_b32 r) as [rid|e] eqn:Hr.
    + destruct (reachable (chain w)) eqn:Hn.
      * rewrite (update_reachable base r ureq w rid Hr Hn). cbv zeta.
        destruct (String.eqb _ ZERO_ADDRESS); [constructor|].
        destruct (truthy (ur_json_text ureq)) eqn:Hj;
          [|destruct (truthy (ur_uri ureq)) eqn:Hu].
        -- eapply Hc; [|apply Hst1]. cbv beta. left. split; reflexivity.
        -- rewrite sent_transactions. cbn [transactions app].
           constructor; [right; auto | constructor].
        -- constructor.
      * rewrite (update_unreachable base r ureq w rid Hr Hn). constructor.
    + rewrite (update_bad_id base r ureq w e Hr). constructor.
  - destruct (create_rid now req) as [rid|e] eqn:Hrid.
    + destruct (truthy (cr_json_text req)) eqn:Hj;
        [|destruct (truthy (cr_uri req)) eqn:Hu].
      * rewrite (create_inline base now req w rid Hrid Hj).
        intros Hs. eexists. apply Hok; [reflexivity | exact Hs].
      * rewrite (create_external base now req w rid Hrid Hj Hu).
        intros _. rewrite sent_transactions. eexists. reflexivity.
      * rewrite (create_neither base now req w rid Hrid Hj Hu). discriminate.
    + rewrite (create_bad_id base now req w e Hrid). discriminate.
  - destruct (_b32 r) as [rid|e] eqn:Hr.
    + destruct (reachable (chain w)) eqn:Hn.
      * rewrite (update_reachable base r ureq w rid Hr Hn). cbv zeta.
        destruct (String.eqb _ ZERO_ADDRESS); [discriminate|].
        destruct (truthy (ur_json_text ureq)) eqn:Hj;
          [|destruct (truthy (ur_uri ureq)) eqn:Hu].
        -- intros Hs. eexists. apply Hok; [reflexivity | exact Hs].
        -- intros _. rewrite sent_transactions. eexists. reflexivity.
        -- discriminate.
      * rewrite (update_unreachable base r ureq w rid Hr Hn). discriminate.
    + rewrite (update_bad_id base r ureq w e Hr). discriminate.
Qed.

(** C2 on a fresh deployment: an inline create and an update with only a
    uri are both answered with 200. *)
Lemma C2_content_hash_witness :
  (exists tx, transactions (trace (create "" "0" req_inline genesis)) = [tx])
  /\ (exists tx, transactions (trace (update "" RID1 upd_external world1)) = [tx]).
Proof.
  destruct (C2_content_hash Registry registry_ledger "" "0" RID1 req_inline
              upd_external genesis) as (_ & _ & Hc & _).
  destruct (C2_content_hash Registry registry_ledger "" "0" RID1 req_inline
              upd_external world1) as (_ & _ & _ & Hu).
  split; [apply Hc | apply Hu]; vm_compute; reflexivity.
Defined.

(** ** C4: the file is written before the transaction is sent *)

Lemma lookup_write (t : list Effect) (i : nat) p text :
  t !! i = Some (EvWrite p text) -> p ∈ writes t.
Proof.
  revert i. induction t as [|e t IH]; intros [|i]; cbn; try discriminate.
  - intros [= ->]. cbn. apply list_elem_of_here.
  - intros Hi. apply IH in Hi. destruct e; cbn; auto using list_elem_of_further.
Qed.

Lemma lookup_transaction (t : list Effect) (j : nat) tx st :
  t !! j = Some (EvTransact tx st) -> tx ∈ transactions t.
Proof.
  revert j. induction t as [|e t IH]; intros [|j]; cbn; try discriminate.
  - intros [= ->]. cbn. apply list_elem_of_here.
  - intros Hj. apply IH in Hj. destruct e; cbn; auto using list_elem_of_further.
Qed.

Lemma precede_split (a b : list Effect) :
  transactions a = [] -> writes b = [] -> writes_precede_txs (a ++ b).
Proof.
  intros Ha Hb i j p text tx st Hi Hj.
  destruct (decide (j < length a)) as [Hlt|Hge].
  { rewrite lookup_app_l in Hj by assumption.
    apply lookup_transaction in Hj. rewrite Ha in Hj.
    apply not_elem_of_nil in Hj. contradiction. }
  destruct (decide (i < length a)) as [Hlt|Hge']; [lia|].
  rewrite lookup_app_r in Hi by lia.
  apply lookup_write in Hi. rewrite Hb in Hi.
  apply not_elem_of_nil in Hi. contradiction.
Qed.

Lemma calls_no_transactions (pre : list Effect) :
  Forall is_call pre -> transactions pre = [] /\ writes pre = [].
Proof.
  induction 1 as [|e pre [rid ->] _ IH]; [split; reflexivity|]. exact IH.
Qed.

Section Ordering.
Context {L : Type} `{Ledger L} {A : Type}.
Implicit Types (w : World L) (tx : Tx) (resp : bytes -> A) (pre : list Effect).

Lemma sent_trace w tx resp pre :
  exists st, trace (sent w tx resp pre) = (pre ++ [EvTransact tx st])%list.
Proof. unfold sent. destruct (send_tx (chain w) tx); cbn; eauto. Qed.

Lemma stored_precede w dir file text tx resp pre :
  Forall is_call pre ->
  writes_precede_txs (trace (stored w dir file text tx resp pre)).
Proof.
  intros [Ht Hw]%calls_no_transactions. unfold stored.
  destruct (fs_fault w (OpMkdir dir)); cbn [trace].
  { rewrite <- (app_nil_r (pre ++ _)). apply precede_split; [|reflexivity].
    rewrite transactions_app, Ht. reflexivity. }
  destruct (fs_fault w (OpWrite (dir, file))); cbn [trace].
  { rewrite <- (app_nil_r (pre ++ _)). apply precede_split; [|reflexivity].
    rewrite transactions_app, Ht. reflexivity. }
  destruct (sent_trace (with_object (dir, file) text (with_dir dir w)) tx resp
              (pre ++ [EvMkdir dir; EvWrite (dir, file) text])) as [st ->].
  apply precede_split; [|reflexivity].
  rewrite transactions_app, Ht. reflexivity.
Qed.

Lemma failed_precede pre :
  Forall is_call pre -> writes_precede_txs pre.
Proof.
  intros [Ht Hw]%calls_no_transactions.
  rewrite <- (app_nil_r pre). apply precede_split; [assumption | reflexivity].
Qed.

Lemma call_not_mkdir pre d : Forall is_call pre -> EvMkdir d ∉ pre.
Proof.
  intros Hp Hin. rewrite Forall_forall in Hp.
  destruct (Hp _ Hin) as [rid Hr]. discriminate.
Qed.

Lemma call_not_write pre p text : Forall is_call pre -> EvWrite p text ∉ pre.
Proof.
  intros Hp Hin. rewrite Forall_forall in Hp.
  destruct (Hp _ Hin) as [rid Hr]. discriminate.
Qed.

Lemma stored_no_commit w dir file text tx resp pre :
  Forall is_call pre ->
  no_commit_on_fault w (stored w dir file text tx resp pre).
Proof.
  intros Hp. pose proof (calls_no_transactions pre Hp) as [Ht _].
  unfold no_commit_on_fault, stored.
  destruct (fs_fault w (OpMkdir dir)) eqn:Hm; cbn [trace].
  { split; intros; cbn [trace world result];
      rewrite transactions_app, Ht; auto. }
  destruct (fs_fault w (OpWrite (dir, file))) eqn:Hw; cbn [trace].
  { split; intros; cbn [trace world result];
      rewrite transactions_app, Ht, torn_chain; auto. }
  destruct (sent_trace (with_object (dir, file) text (with_dir dir w)) tx resp
              (pre ++ [EvMkdir dir; EvWrite (dir, file) text])) as [st Hst].
  rewrite Hst. split.
  - intros d Hin Hf. exfalso.
    rewrite !elem_of_app, !elem_of_cons in Hin.
    destruct Hin as [[Hin|[Hin|[Hin|Hin]]]|[Hin|Hin]];
      try discriminate; try (apply elem_of_nil in Hin; contradiction).
    + exact (call_not_mkdir pre d Hp Hin).
    + injection Hin as ->. congruence.
  - intros p t Hin Hf. exfalso.
    rewrite !elem_of_app, !elem_of_cons in Hin.
    destruct Hin as [[Hin|[Hin|[Hin|Hin]]]|[Hin|Hin]];
      try discriminate; try (apply elem_of_nil in Hin; contradiction).
    + exact (call_not_write pre p t Hp Hin).
    + injection Hin as -> ->. congruence.
Qed.

Lemma failed_no_commit w pre e :
  Forall is_call pre -> no_commit_on_fault w (@failed L A w pre e).
Proof.
  intros Hp. split.
  - intros d Hin. exfalso. exact (call_not_mkdir pre d Hp Hin).
  - intros p t Hin. exfalso. exact (call_not_write pre p t Hp Hin).
Qed.

End Ordering.

Lemma call_is_call (rid : bytes) : Forall is_call [EvCall rid].
Proof. repeat constructor. exists rid. reflexivity. Qed.

(** C4: in a run of [create] or [update] with inline content every
    [write_text] comes before every transaction; when the directory or the
    file cannot be written, no transaction is sent, the ledger is as it was
    and the answer is 500; and a run answered with 200 has written the file
    and then sent the transaction. *)
Theorem C4_write_before_transaction :
  forall (L : Type) (HL : Ledger L) (base now r : string) (req : CreateReq)
         (ureq : UpdateReq) (w : World L),
    truthy (cr_json_text req) = true ->
    truthy (ur_json_text ureq) = true ->
    writes_precede_txs (trace (create base now req w))
    /\ writes_precede_txs (trace (update base r ureq w))
    /\ no_commit_on_fault w (create base now req w)
    /\ no_commit_on_fault w (update base r ureq w)
    /\ (http_status (result (create base now req w)) = 200%Z ->
        exists dir file tx st,
          trace (create base now req w)
          = [EvMkdir dir; EvWrite (dir, file) (the (cr_json_text req));
             EvTransact tx st]
          /\ objects (world (create base now req w)) !! (dir, file)
             = Some (the (cr_json_text req)))
    /\ (http_status (result (update base r ureq w)) = 200%Z ->
        exists rid dir file tx st,
          trace (update base r ureq w)
          = [EvCall rid; EvMkdir dir;
             EvWrite (dir, file) (the (ur_json_text ureq)); EvTransact tx st]
          /\ objects (world (update base r ureq w)) !! (dir, file)
             = Some (the (ur_json_text ureq))).
Proof.
  intros L HL base now r req ureq w Hj Hju.
  assert (Hcreate :
    (exists e, create base now req w = failed w [] e
               /\ http_status (result (create base now req w)) <> 200%Z)
    \/ (exists rid, create base now req w
          = stored w (hex rid) "v1.json" (the (cr_json_text req))
              (TxCreate rid (SHA256.digest (encode (the (cr_json_text req))))
                 (object_uri base (hex rid) "v1.json"))
              (create_resp rid (object_uri base (hex rid) "v1.json")) [])).
  { destruct (create_rid now req) as [rid|e] eqn:Hrid.
    - right. exists rid. apply create_inline; assumption.
    - left. exists (bad_id e).
      rewrite (create_bad_id base now req w e Hrid). split; [reflexivity|].
      discriminate. }
  assert (Hupdate :
    (exists pre e, Forall is_call pre /\ update base r ureq w = failed w pre e
                   /\ http_status (result (update base r ureq w)) <> 200%Z)
    \/ (exists rid file tx resp,
          update base r ureq w
          = stored w (strip_0x r) file (the (ur_json_text ureq)) tx resp
                   [EvCall rid])).
  { destruct (_b32 r) as [rid|e] eqn:Hr.
    - destruct (reachable (chain w)) eqn:Hn.
      + rewrite (update_reachable base r ureq w rid Hr Hn). cbv zeta.
        rewrite Hju. destruct (String.eqb _ ZERO_ADDRESS).
        * left. exists [EvCall rid]. eexists.
          split; [apply call_is_call|]. split; [reflexivity|discriminate].
        * right. eauto 6.
      + left. exists [EvCall rid]. eexists. split; [apply call_is_call|].
        rewrite (update_unreachable base r ureq w rid Hr Hn).
        split; [reflexivity|discriminate].
    - left. exists []. eexists. split; [constructor|].
      rewrite (update_bad_id base r ureq w e Hr).
      split; [reflexivity|discriminate]. }
  split; [|split; [|split; [|split; [|split]]]].
  - destruct Hcreate as [(e & -> & _)|[rid ->]].
    + apply failed_precede. constructor.
    + apply stored_precede. constructor.
  - destruct Hupdate as [(pre & e & Hp & -> & _)|(rid & file & tx & resp & ->)].
    + apply failed_precede. assumption.
    + apply stored_precede, call_is_call.
  - destruct Hcreate as [(e & -> & _)|[rid ->]].
    + apply failed_no_commit. constructor.
    + apply stored_no_commit. constructor.
  - destruct Hupdate as [(pre & e & Hp & -> & _)|(rid & file & tx & resp & ->)].
    + apply failed_no_commit. assumption.
    + apply stored_no_commit, call_is_call.
  - destruct Hcreate as [(e & _ & Hne)|[rid ->]]; intros Hs.
    + contradiction.
    + destruct (result (stored w (hex rid) "v1.json" _ _ _ [])) as [a|e] eqn:Hres.
      * apply stored_Return in Hres as (_ & _ & l' & h & st & _ & _ & ->).
        exists (hex rid), "v1.json". do 2 eexists. split; [reflexivity|].
        cbn. apply lookup_insert_eq.
      * exfalso. unfold stored, sent in Hres.
        repeat match type of Hres with
               | context [if ?b then _ else _] => destruct b
               | context [match ?o with Mined _ _ _ => _ | TxRaised _ => _ end] =>
                   destruct o
               end; cbn in Hres; try discriminate Hres;
          injection Hres as <-; discriminate Hs.
  - destruct Hupdate as [(pre & e & Hp & _ & Hne)|(rid & file & tx & resp & ->)];
      intros Hs.
    + contradiction.
    + destruct (result (stored w (strip_0x r) file _ tx resp [EvCall rid]))
        as [a|e] eqn:Hres.
      * apply stored_Return in Hres as (_ & _ & l' & h & st & _ & _ & ->).
        exists rid, (strip_0x r), file. do 2 eexists. split; [reflexivity|].
        cbn. apply lookup_insert_eq.
      * exfalso. unfold stored, sent in Hres.
        repeat match type of Hres with
               | context [if ?b then _ else _] => destruct b
               | context [match ?o with Mined _ _ _ => _ | TxRaised _ => _ end] =>
                   destruct o
               end; cbn in Hres; try discriminate Hres;
          injection Hres as <-; discriminate Hs.
Qed.

(** C4 on the world left by a first create. *)
Lemma C4_write_before_transaction_witness :
  writes_precede_txs (trace (create "" "0" req_inline world1))
  /\ writes_precede_txs (trace (update "" RID1 upd_inline world1))
  /\ no_commit_on_fault world1 (create "" "0" req_inline world1)
  /\ no_commit_on_fault world1 (update "" RID1 upd_inline world1)
  /\ (http_status (result (create "" "0" req_inline world1)) = 200%Z ->
      exists dir file tx st,
        trace (create "" "0" req_inline world1)
        = [EvMkdir dir; EvWrite (dir, file) (the (cr_json_text req_inline));
           EvTransact tx st]
        /\ objects (world (create "" "0" req_inline world1)) !! (dir, file)
           = Some (the (cr_json_text req_inline)))
  /\ (http_status (result (update "" RID1 upd_inline world1)) = 200%Z ->
      exists rid dir file tx st,
        trace (update "" RID1 upd_inline world1)
        = [EvCall rid; EvMkdir dir;
           EvWrite (dir, file) (the (ur_json_text upd_inline));
           EvTransact tx st]
        /\ objects (world (update "" RID1 upd_inline world1)) !! (dir, file)
           = Some (the (ur_json_text upd_inline))).
Proof.
  apply (C4_write_before_transaction Registry registry_ledger "" "0" RID1
           req_inline upd_inline world1); reflexivity.
Defined.

(** On a disk that refuses the directory, nothing reaches the ledger. *)
Example create_on_broken_disk :
  let o := create "" "0" req_inline broken_disk in
  transactions (trace o) = [] /\ http_status (result o) = 500%Z
  /\ chain (world o) = chain broken_disk.
Proof. vm_compute. repeat split; reflexivity. Qed.

(** ** C5: parsing a record id *)

(** C5, as claimed, fails for [create]: an empty [recordIdHex] is not 32
    bytes, [_b32] refuses it, and yet the request is answered with 200
    because [create] treats an empty id as no id. *)
Lemma C5_empty_id_not_rejected_by_create :
  _b32 "" = Raise (ValueError "must be 32 bytes")
  /\ cr_recordIdHex req_empty_id = Some ""
  /\ http_status (result (create "" "1700000000.0" req_empty_id genesis))
     = 200%Z.
Proof. vm_compute. repeat split; reflexivity. Qed.

(** C5 (amended): [_b32] returns exactly on the strings that, once an
    optional [0x] is removed, are 64 hexadecimal digits, that is decode to
    32 bytes; every other string raises a [ValueError] (or its subclass
    [binascii.Error]), which [get_one] and [update] always, and [create]
    for a non-empty [recordIdHex], turn into HTTP 400 before any effect. *)
Theorem C5_record_id_parsing :
  forall (L : Type) (HL : Ledger L) (base now s : string) (req : CreateReq)
         (ureq : UpdateReq) (w : World L),
    ((exists raw, _b32 s = Return raw)
     <-> exists raw, unhex (strip_0x s) = Some raw /\ length raw = 32)
    /\ ((exists raw, _b32 s = Return raw)
        <-> String.length (strip_0x s) = 64
            /\ forallb_string is_hex_digit (strip_0x s) = true)
    /\ (forall e, _b32 s = Raise e ->
          (exists msg, e = ValueError msg \/ e = BinasciiError msg)
          /\ get_one s w = failed w [] (bad_id e)
          /\ http_status (result (get_one s w)) = 400%Z
          /\ update base s ureq w = failed w [] (bad_id e)
          /\ http_status (result (update base s ureq w)) = 400%Z
          /\ (s <> "" -> cr_recordIdHex req = Some s ->
              create base now req w = failed w [] (bad_id e)
              /\ http_status (result (create base now req w)) = 400%Z)).
Proof.
  intros L HL base now s req ureq w. split; [|split].
  - split.
    + intros [raw Hr]. exists raw. apply b32_Return, Hr.
    + intros [raw Hr]. exists raw. apply b32_Return, Hr.
  - apply b32_accepts.
  - intros e He. split; [exact (b32_Raise s e He)|].
    rewrite (get_one_bad_id s w e He), (update_bad_id base s ureq w e He).
    do 4 (split; [reflexivity|]).
    intros Hne Hid.
    assert (Hrid : create_rid now req = Raise e).
    { unfold create_rid. rewrite Hid. destruct s; [contradiction|]. exact He. }
    rewrite (create_bad_id base now req w e Hrid). split; reflexivity.
Qed.

(** C5 on an id that is one digit short. *)
Lemma C5_record_id_parsing_witness :
  http_status (result (get_one "0xabc" genesis)) = 400%Z
  /\ http_status (result (update "" "0xabc" upd_inline genesis)) = 400%Z
  /\ http_status
       (result (create "" "0"
                  {| cr_recordIdHex := Some "0xabc"; cr_json_text := Some "[1]";
                     cr_uri := None |} genesis)) = 400%Z.
Proof.
  destruct (C5_record_id_parsing Registry registry_ledger "" "0" "0xabc"
              {| cr_recordIdHex := Some "0xabc"; cr_json_text := Some "[1]";
                 cr_uri := None |} upd_inline genesis) as (_ & _ & Hbad).
  destruct (Hbad (BinasciiError "Odd-length string") eq_refl)
    as (_ & _ & Hg & _ & Hu & Hc).
  split; [exact Hg|]. split; [exact Hu|].
  apply Hc; [discriminate | reflexivity].
Defined.

(** ** C6: reading one record *)

(** C6: for an id that parses, on a node that answers, [get_one] is
    answered 404 ("not found") exactly when the owner returned by the
    contract is the zero address, and otherwise returns the fields of the
    tuple returned by the contract. *)
Theorem C6_read_record :
  forall (L : Type) (HL : Ledger L) (r : string) (rid : bytes) (w : World L),
    _b32 r = Return rid ->
    reachable (chain w) = true ->
    let it := contract_get (chain w) rid in
    (result (get_one r w) = Raise (HTTPException 404 "not found")
     <-> r_owner it = ZERO_ADDRESS)
    /\ (http_status (result (get_one r w)) = 404%Z
        <-> r_owner it = ZERO_ADDRESS)
    /\ (r_owner it <> ZERO_ADDRESS ->
        exists v, result (get_one r w) = Return v
          /\ v_contentHash v = to_hex (r_contentHash it)
          /\ v_uri v = r_uri it
          /\ v_version v = r_version it
          /\ v_owner v = r_owner it
          /\ v_createdAt v = r_createdAt it
          /\ v_updatedAt v = r_updatedAt it
          /\ v_updatedBy v = r_updatedBy it)
    /\ trace (get_one r w) = [EvCall rid]
    /\ world (get_one r w) = w.
Proof.
  intros L HL r rid w Hr Hn it.
  rewrite (get_one_reachable r w rid Hr Hn). fold it.
  destruct (String.eqb_spec (r_owner it) ZERO_ADDRESS) as [Ho|Ho]; cbn.
  - repeat split; auto. contradiction.
  - repeat split; try discriminate; try contradiction.
    intros _. eexists. split; [reflexivity|]. cbn. repeat split.
Qed.

(** C6 on the record created by [req_inline]. *)
Lemma C6_read_record_witness :
  let it := contract_get (chain world1) RID1_bytes in
  (result (get_one RID1 world1) = Raise (HTTPException 404 "not found")
   <-> r_owner it = ZERO_ADDRESS)
  /\ (http_status (result (get_one RID1 world1)) = 404%Z
      <-> r_owner it = ZERO_ADDRESS)
  /\ (r_owner it <> ZERO_ADDRESS ->
      exists v, result (get_one RID1 world1) = Return v
        /\ v_contentHash v = to_hex (r_contentHash it)
        /\ v_uri v = r_uri it
        /\ v_version v = r_version it
        /\ v_owner v = r_owner it
        /\ v_createdAt v = r_createdAt it
        /\ v_updatedAt v = r_updatedAt it
        /\ v_updatedBy v = r_updatedBy it)
  /\ trace (get_one RID1 world1) = [EvCall RID1_bytes]
  /\ world (get_one RID1 world1) = world1.
Proof.
  apply (C6_read_record Registry registry_ledger RID1 RID1_bytes world1);
    vm_compute; reflexivity.
Defined.

(** The same record read back, and an id that was never created. *)
Example read_after_create :
  (exists v, result (get_one RID1 world1) = Return v
             /\ v_version v = 1%N /\ v_owner v = ACCOUNT
             /\ v_contentHash v = "0x" ++ _sha256_hex (encode "[1]"))
  /\ http_status (result (get_one RID1 genesis)) = 404%Z.
Proof.
  split.
  - eexists. vm_compute. repeat split; reflexivity.
  - vm_compute. reflexivity.
Qed.

(** ** C7: where the payload goes *)


Lemma hexval_lower (a : ascii) (h : N) :
  hexval a = Some h -> (h < 16)%N /\ lower_char a = hexdigit h.
Proof.
  destruct a as [[] [] [] [] [] [] [] []]; vm_compute;
    intros E; try discriminate E; injection E as <-; split; reflexivity.
Qed.

Lemma to_N_byte_of_N (n : N) : (n < 256)%N -> Byte.to_N (byte_of_N n) = n.
Proof.
  intros Hn. unfold byte_of_N. rewrite N.mod_small by assumption.
  destruct (Byte.of_N n) as [b|] eqn:E.
  - apply Byte.to_of_N, E.
  - apply Byte.of_N_None_iff in E. lia.
Qed.

(** The digits that decode to [raw] are, up to the case of the letters,
    the digits that [hex] prints for [raw]. *)
Lemma unhex_lower (s : string) (raw : bytes) :
  unhex s = Some raw -> lower s = hex raw.
Proof.
  revert raw. induction s as [| c | a b r IH] using string_ind2; intros raw.
  - intros [= <-]. reflexivity.
  - discriminate.
  - cbn [unhex].
    destruct (hexval a) as [h|] eqn:Ha; [|discriminate].
    destruct (hexval b) as [l|] eqn:Hb; [|discriminate].
    destruct (unhex r) as [bs|]; [|discriminate].
    intros [= <-]. cbn [lower hex].
    apply hexval_lower in Ha as [Hh ->]. apply hexval_lower in Hb as [Hl ->].
    rewrite (IH bs eq_refl), to_N_byte_of_N by lia.
    replace (16 * h + l)%N with (l + h * 16)%N by lia.
    rewrite N.div_add, N.Div0.mod_add, N.div_small, N.mod_small by lia.
    reflexivity.
Qed.

Lemma version_file_1 : version_file 1 = "v1.json".
Proof. reflexivity. Qed.

(** C7 at an id typed in upper case.  [RID1_UPPER] and [RID1] name the
    same record, whose payload [create] put in [<hex of the id>/v1.json].
    The update for [RID1_UPPER], at version 1, is answered with 200 and
    has written [v2.json] to the directory of the digits as typed; that
    is not the directory of the record, where no [v2.json] appears.  The
    same update for [RID1] writes [<hex of the id>/v2.json]. *)
Theorem C7_update_misses_the_record_directory :
  _b32 RID1_UPPER = Return RID1_bytes
  /\ _b32 RID1 = Return RID1_bytes
  /\ writes (trace (create "" "0" req_inline genesis))
     = [(hex RID1_bytes, "v1.json")]
  /\ r_version (contract_get (chain world1) RID1_bytes) = 1%N
  /\ http_status (result (update "" RID1_UPPER upd_inline world1)) = 200%Z
  /\ writes (trace (update "" RID1_UPPER upd_inline world1))
     = [(strip_0x RID1_UPPER, "v2.json")]
  /\ strip_0x RID1_UPPER <> hex RID1_bytes
  /\ objects (world (update "" RID1_UPPER upd_inline world1))
       !! (hex RID1_bytes, "v2.json") = None
  /\ writes (trace (update "" RID1 upd_inline world1))
     = [(hex RID1_bytes, "v2.json")].
Proof.
  repeat match goal with |- _ /\ _ => split end;
    try (vm_compute; reflexivity).
  vm_compute. discriminate.
Qed.

(** The update after a first create writes version 2, next to version 1. *)
Example update_writes_v2 :
  writes (trace (update "" RID1 upd_inline world1))
  = [(drop2 RID1, "v2.json")]
  /\ writes (trace (create "" "0" req_inline genesis))
     = [(drop2 RID1, "v1.json")].
Proof. vm_compute. split; reflexivity. Qed.

(** ** C9: the derived record id *)

Lemma fold_left_snoc {A B : Type} (f : A -> B -> A) (l : list B) (x : B) (a : A) :
  fold_left f (l ++ [x]) a = f (fold_left f l a) x.
Proof. rewrite fold_left_app. reflexivity. Qed.

Lemma keccak_round_length (a : list Z) (rc : Z) :
  length (Keccak.round a rc) = 25.
Proof.
  unfold Keccak.round, Keccak.chi.
  destruct (map _ (seq 0 25)) as [|x l] eqn:E.
  - apply (f_equal (@length Z)) in E. rewrite length_map, length_seq in E.
    discriminate.
  - apply (f_equal (@length Z)) in E. rewrite length_map, length_seq in E.
    cbn [Keccak.iota length] in *. lia.
Qed.

Lemma keccak_f1600_length (a : list Z) : length (Keccak.f1600 a) = 25.
Proof.
  unfold Keccak.f1600.
  change Keccak.RC with (firstn 23 Keccak.RC ++ [nth 23 Keccak.RC 0%Z])%list.
  rewrite fold_left_snoc. apply keccak_round_length.
Qed.

Lemma keccak_sponge_length (m : bytes) : length (Keccak.sponge m) = 25.
Proof.
  unfold Keccak.sponge.
  generalize (chunks (length (Keccak.pad (map Z_of_byte m))) 136
                (Keccak.pad (map Z_of_byte m))).
  intros blocks. induction blocks as [|b blocks _] using rev_ind.
  - reflexivity.
  - rewrite fold_left_snoc. apply keccak_f1600_length.
Qed.

(** [Web3.keccak] always returns 32 bytes. *)
Lemma keccak256_length (m : bytes) : length (Keccak.keccak256 m) = 32.
Proof.
  unfold Keccak.keccak256. pose proof (keccak_sponge_length m) as Hl.
  destruct (Keccak.sponge m) as [|a [|b [|c [|d rest]]]]; try discriminate Hl.
  reflexivity.
Qed.



(** The ids derived for the test requests. *)
Example derived_ids :
  (exists resp, result (create "" "1700000000.0" req_inline genesis) = Return resp
                /\ cs_recordId resp = RID1)
  /\ (exists resp, result (create "" "0" req_inline world1) = Return resp
                   /\ cs_recordId resp = RID1).
Proof. split; eexists; vm_compute; split; reflexivity. Qed.

(** ** C10: both fields supplied *)



(** The caller's uri appears nowhere in the answer. *)
Example both_fields_answer :
  exists resp,
    result (create "" "0" req_both genesis) = Return resp
    /\ cs_uri resp = ("/objects/" ++ drop2 RID1 ++ "/v1.json")%string.
Proof. eexists. vm_compute. split; reflexivity. Qed.

(** ** C8: the listing *)

(** *** The dict *)

Lemma dict_get_set_eq (k : string) (v : Item) (d : Dict) :
  dict_get k (dict_set k v d) = Some v.
Proof.
  induction d as [|[k' v'] d IH]; cbn.
  - rewrite String.eqb_refl. reflexivity.
  - destruct (String.eqb k k') eqn:E; cbn; rewrite ?String.eqb_refl, ?E; auto.
Qed.

Lemma dict_get_set_ne (k k' : string) (v : Item) (d : Dict) :
  k <> k' -> dict_get k' (dict_set k v d) = dict_get k' d.
Proof.
  intros Hne. induction d as [|[k0 v0] d IH]; cbn.
  - destruct (String.eqb_spec k' k); [congruence | reflexivity].
  - destruct (String.eqb_spec k k0) as [->|Hk]; cbn.
    + destruct (String.eqb_spec k' k0); [congruence | reflexivity].
    + destruct (String.eqb_spec k' k0); [reflexivity | exact IH].
Qed.

Lemma dict_set_set (k : string) (v v' : Item) (d : Dict) :
  dict_set k v (dict_set k v' d) = dict_set k v d.
Proof.
  induction d as [|[k0 v0] d IH]; cbn.
  - rewrite String.eqb_refl. reflexivity.
  - destruct (String.eqb k k0) eqn:E; cbn; rewrite ?String.eqb_refl, ?E;
      [reflexivity | rewrite IH; reflexivity].
Qed.

Lemma dict_get_key (k : string) (d : Dict) :
  is_Some (dict_get k d) <-> k ∈ map fst d.
Proof.
  induction d as [|[k0 v0] d IH]; cbn.
  - split; [intros [x Hx]; discriminate | intros Hin; inversion Hin].
  - destruct (String.eqb_spec k k0) as [->|Hk].
    + split; [intros _; apply list_elem_of_here | intros _; eexists; reflexivity].
    + rewrite IH, elem_of_cons. tauto.
Qed.

Lemma dict_set_keys (k : string) (v : Item) (d : Dict) :
  map fst (dict_set k v d)
  = match dict_get k d with
    | Some _ => map fst d
    | None => (map fst d ++ [k])%list
    end.
Proof.
  induction d as [|[k0 v0] d IH]; cbn; [reflexivity|].
  destruct (String.eqb_spec k k0) as [->|Hk]; cbn; [reflexivity|].
  rewrite IH. destruct (dict_get k d); reflexivity.
Qed.

Lemma dict_set_NoDup (k : string) (v : Item) (d : Dict) :
  NoDup (map fst d) -> NoDup (map fst (dict_set k v d)).
Proof.
  intros Hd. rewrite dict_set_keys.
  destruct (dict_get k d) eqn:E; [assumption|].
  apply NoDup_app. split; [assumption|]. split; [|apply NoDup_singleton].
  intros x Hx ->%list_elem_of_singleton.
  apply dict_get_key in Hx. rewrite E in Hx. destruct Hx; discriminate.
Qed.

Lemma dict_get_elem (k : string) (v : Item) (d : Dict) :
  NoDup (map fst d) -> ((k, v) ∈ d <-> dict_get k d = Some v).
Proof.
  induction d as [|[k0 v0] d IH]; cbn.
  - intros _. split; [intros Hin; inversion Hin | discriminate].
  - intros Hd. apply NoDup_cons in Hd as [Hk0 Hd].
    rewrite elem_of_cons. destruct (String.eqb_spec k k0) as [->|Hk].
    + split.
      * intros [[= ->]|Hin]; [reflexivity|].
        exfalso. apply Hk0. apply list_elem_of_fmap. exists (k0, v). auto.
      * intros [= ->]. auto.
    + rewrite <- (IH Hd). split; [intros [[= -> ->]|?]; [contradiction|auto] | auto].
Qed.

Lemma dict_set_keyed (k : string) (v : Item) (d : Dict) :
  i_recordId v = Some k -> keyed d -> keyed (dict_set k v d).
Proof.
  intros Hv. induction 1 as [|[k0 v0] d H0 Hd IH]; cbn.
  - repeat constructor. assumption.
  - destruct (String.eqb k k0); constructor; assumption.
Qed.

(** *** The two loops *)

Lemma item_update_update (d : Item) (a b : UpdatedArgs) :
  item_update (item_update d a) b = item_update d b.
Proof. reflexivity. Qed.

Lemma add_created_eq (items : Dict) (a : CreatedArgs) :
  add_created items a
  = dict_set (hex (c_recordId a)) (item_of_created a) items.
Proof. reflexivity. Qed.

Lemma add_updated_eq (items : Dict) (a : UpdatedArgs) :
  add_updated items a
  = dict_set (hex (u_recordId a))
      (item_update (default empty_item (dict_get (hex (u_recordId a)) items)) a)
      items.
Proof.
  unfold add_updated. destruct (dict_get (hex (u_recordId a)) items) eqn:E.
  - rewrite E. reflexivity.
  - rewrite dict_get_set_eq, dict_set_set. reflexivity.
Qed.

Lemma filter_snoc {A : Type} (p : A -> bool) (l : list A) (x : A) :
  List.filter p (l ++ [x])
  = (List.filter p l ++ (if p x then [x] else []))%list.
Proof. rewrite List.filter_app. reflexivity. Qed.

Lemma last_app_if {A : Type} (l : list A) (b : bool) (x : A) :
  last (l ++ (if b then [x] else [])) = if b then Some x else last l.
Proof. destruct b; [apply last_snoc | rewrite app_nil_r; reflexivity]. Qed.

Lemma created_loop_get (rid : bytes) (created : list CreatedArgs) :
  dict_get (hex rid) (fold_left add_created created [])
  = item_of_created <$> last (created_for rid created).
Proof.
  induction created as [|a l IH] using rev_ind; [reflexivity|].
  rewrite fold_left_snoc. unfold created_for. rewrite filter_snoc, last_app_if.
  rewrite add_created_eq.
  destruct (String.eqb_spec (hex (c_recordId a)) (hex rid)) as [E|E].
  - rewrite E, dict_get_set_eq. reflexivity.
  - rewrite dict_get_set_ne by assumption. exact IH.
Qed.

Lemma updated_loop_get (rid : bytes) (updated : list UpdatedArgs) (d0 : Dict) :
  dict_get (hex rid) (fold_left add_updated updated d0)
  = match last (updated_for rid updated) with
    | Some u => Some (item_update (default empty_item (dict_get (hex rid) d0)) u)
    | None => dict_get (hex rid) d0
    end.
Proof.
  induction updated as [|a l IH] using rev_ind; [reflexivity|].
  rewrite fold_left_snoc. unfold updated_for. rewrite filter_snoc, last_app_if.
  rewrite add_updated_eq.
  destruct (String.eqb_spec (hex (u_recordId a)) (hex rid)) as [E|E].
  - rewrite E, dict_get_set_eq, IH. fold (updated_for rid l).
    destruct (last (updated_for rid l)); reflexivity.
  - rewrite dict_get_set_ne by assumption. exact IH.
Qed.

Lemma loops_get (rid : bytes) created updated :
  dict_get (hex rid)
    (fold_left add_updated updated (fold_left add_created created []))
  = expected_item created updated rid.
Proof.
  rewrite updated_loop_get, created_loop_get. reflexivity.
Qed.

Lemma created_loop_inv (created : list CreatedArgs) :
  let d := fold_left add_created created [] in
  NoDup (map fst d) /\ keyed d
  /\ forall k, k ∈ map fst d -> exists rid, k = hex rid.
Proof.
  induction created as [|a l IH] using rev_ind.
  - cbn. split; [constructor|]. split; [constructor|]. intros k Hk. inversion Hk.
  - cbv zeta in *. rewrite fold_left_snoc, add_created_eq.
    destruct IH as (Hn & Hk & Hh). split; [apply dict_set_NoDup, Hn|].
    split; [apply dict_set_keyed; [reflexivity | exact Hk]|].
    intros k. rewrite dict_set_keys.
    destruct (dict_get _ _); [apply Hh|].
    rewrite elem_of_app, list_elem_of_singleton. intros [?| ->]; eauto.
Qed.

Lemma updated_loop_inv (updated : list UpdatedArgs) (d0 : Dict) :
  NoDup (map fst d0) -> keyed d0 ->
  (forall k, k ∈ map fst d0 -> exists rid, k = hex rid) ->
  let d := fold_left add_updated updated d0 in
  NoDup (map fst d) /\ keyed d
  /\ forall k, k ∈ map fst d -> exists rid, k = hex rid.
Proof.
  intros Hn0 Hk0 Hh0. induction updated as [|a l IH] using rev_ind.
  - cbn. auto.
  - cbv zeta in *. rewrite fold_left_snoc, add_updated_eq.
    destruct IH as (Hn & Hk & Hh).
    split; [apply dict_set_NoDup, Hn|].
    split; [apply dict_set_keyed; [reflexivity | exact Hk]|].
    intros k. rewrite dict_set_keys.
    destruct (dict_get _ _); [apply Hh|].
    rewrite elem_of_app, list_elem_of_singleton. intros [?| ->]; eauto.
Qed.

(** *** The sort *)

Lemma insert_desc_perm (x : Item) (l : list Item) :
  Permutation (insert_desc x l) (x :: l).
Proof.
  induction l as [|y r IH]; cbn; [reflexivity|].
  destruct (sort_key x <? sort_key y)%N; [|reflexivity].
  rewrite IH. apply perm_swap.
Qed.

Lemma sorted_desc_perm (l : list Item) : Permutation (sorted_desc l) l.
Proof.
  induction l as [|x l IH]; cbn; [reflexivity|].
  rewrite insert_desc_perm, IH. reflexivity.
Qed.

Lemma insert_desc_sorted (x : Item) (l : list Item) :
  StronglySorted newer_first l -> StronglySorted newer_first (insert_desc x l).
Proof.
  induction 1 as [|y r Hr IH Hy]; cbn; [repeat constructor|].
  destruct (sort_key x <? sort_key y)%N eqn:E.
  - apply N.ltb_lt in E. constructor; [exact IH|].
    rewrite insert_desc_perm. constructor; [unfold newer_first; lia | exact Hy].
  - apply N.ltb_ge in E. constructor; [constructor; assumption|].
    constructor; [exact E|].
    eapply Forall_impl; [exact Hy|]. unfold newer_first. intros z Hz. lia.
Qed.

Lemma sorted_desc_sorted (l : list Item) :
  StronglySorted newer_first (sorted_desc l).
Proof.
  induction l as [|x l IH]; cbn; [constructor | apply insert_desc_sorted, IH].
Qed.

(** Entries with the same key stay in the order they had: the sort is
    stable. *)
Lemma insert_desc_stable (k : N) (x : Item) (l : list Item) :
  List.filter (fun y => (sort_key y =? k)%N) (insert_desc x l)
  = List.filter (fun y => (sort_key y =? k)%N) (x :: l).
Proof.
  induction l as [|y r IH]; [reflexivity|]. cbn [insert_desc].
  destruct (sort_key x <? sort_key y)%N eqn:E; [|reflexivity].
  apply N.ltb_lt in E. cbn [List.filter] in *. rewrite IH.
  destruct (sort_key x =? k)%N eqn:Ex, (sort_key y =? k)%N eqn:Ey;
    try reflexivity.
  apply N.eqb_eq in Ex, Ey. lia.
Qed.

Lemma sorted_desc_stable (k : N) (l : list Item) :
  List.filter (fun y => (sort_key y =? k)%N) (sorted_desc l)
  = List.filter (fun y => (sort_key y =? k)%N) l.
Proof.
  induction l as [|x l IH]; [reflexivity|]. cbn [sorted_desc fold_right].
  rewrite insert_desc_stable. cbn [List.filter]. fold (sorted_desc l).
  rewrite IH. reflexivity.
Qed.

(** *** The handler *)

Lemma hex_eqb (a b : bytes) : String.eqb (hex a) (hex b) = true <-> a = b.
Proof.
  rewrite String.eqb_eq. split; [apply hex_inj | intros ->; reflexivity].
Qed.

Lemma created_for_nonempty (rid : bytes) (l : list CreatedArgs) :
  is_Some (last (created_for rid l)) <-> rid ∈ map c_recordId l.
Proof.
  rewrite last_is_Some. unfold created_for. split.
  - intros Hne. destruct (List.filter _ l) as [|a r] eqn:E; [contradiction|].
    assert (Ha : In a (List.filter
                         (fun a => String.eqb (hex (c_recordId a)) (hex rid)) l))
      by (rewrite E; left; reflexivity).
    apply List.filter_In in Ha as [Hin Heq]. apply hex_eqb in Heq as <-.
    apply list_elem_of_fmap. exists a. split; [reflexivity|].
    apply list_elem_of_In, Hin.
  - intros (a & -> & Hin%list_elem_of_In)%list_elem_of_fmap Hnil.
    assert (Ha : In a (List.filter
                         (fun x => String.eqb (hex (c_recordId x))
                                     (hex (c_recordId a))) l)).
    { apply List.filter_In. split; [assumption | apply String.eqb_refl]. }
    rewrite Hnil in Ha. destruct Ha.
Qed.

Lemma updated_for_nonempty (rid : bytes) (l : list UpdatedArgs) :
  is_Some (last (updated_for rid l)) <-> rid ∈ map u_recordId l.
Proof.
  rewrite last_is_Some. unfold updated_for. split.
  - intros Hne. destruct (List.filter _ l) as [|a r] eqn:E; [contradiction|].
    assert (Ha : In a (List.filter
                         (fun a => String.eqb (hex (u_recordId a)) (hex rid)) l))
      by (rewrite E; left; reflexivity).
    apply List.filter_In in Ha as [Hin Heq]. apply hex_eqb in Heq as <-.
    apply list_elem_of_fmap. exists a. split; [reflexivity|].
    apply list_elem_of_In, Hin.
  - intros (a & -> & Hin%list_elem_of_In)%list_elem_of_fmap Hnil.
    assert (Ha : In a (List.filter
                         (fun x => String.eqb (hex (u_recordId x))
                                     (hex (u_recordId a))) l)).
    { apply List.filter_In. split; [assumption | apply String.eqb_refl]. }
    rewrite Hnil in Ha. destruct Ha.
Qed.

Lemma expected_item_Some (created : list CreatedArgs)
    (updated : list UpdatedArgs) (rid : bytes) :
  is_Some (expected_item created updated rid)
  <-> rid ∈ map c_recordId created \/ rid ∈ map u_recordId updated.
Proof.
  rewrite <- created_for_nonempty, <- updated_for_nonempty.
  unfold expected_item.
  destruct (last (updated_for rid updated)) as [u|],
           (last (created_for rid created)) as [c|]; cbn;
    split; intros Hs; eauto;
    repeat match goal with
           | H : _ \/ _ |- _ => destruct H
           | H : is_Some None |- _ => destruct (is_Some_None H)
           end.
Qed.

Lemma expected_item_fields (created : list CreatedArgs)
    (updated : list UpdatedArgs) (rid : bytes) (it : Item) :
  expected_item created updated rid = Some it ->
  i_recordId it = Some (hex rid)
  /\ is_Some (i_updatedAt it).
Proof.
  unfold expected_item.
  destruct (last (updated_for rid updated)) as [u|] eqn:Eu.
  - intros [= <-]. cbn. split; [|eexists; reflexivity].
    apply last_Some_elem_of, list_elem_of_In, List.filter_In in Eu as [_ Eq].
    apply String.eqb_eq in Eq. rewrite Eq. reflexivity.
  - destruct (last (created_for rid created)) as [c|] eqn:Ec; [|discriminate].
    intros [= <-]. cbn. split; [|eexists; reflexivity].
    apply last_Some_elem_of, list_elem_of_In, List.filter_In in Ec as [_ Eq].
    apply String.eqb_eq in Eq. rewrite Eq. reflexivity.
Qed.

(** The entries of [project] are the expected ones, one per id, newest
    first. *)
Lemma project_spec (created : list CreatedArgs) (updated : list UpdatedArgs) :
  let items := project created updated in
  NoDup (map i_recordId items)
  /\ (forall rid, Some (hex rid) ∈ map i_recordId items
                  <-> rid ∈ map c_recordId created
                      \/ rid ∈ map u_recordId updated)
  /\ (forall it, it ∈ items ->
        exists rid, i_recordId it = Some (hex rid)
                    /\ expected_item created updated rid = Some it)
  /\ (forall rid it, expected_item created updated rid = Some it -> it ∈ items)
  /\ StronglySorted newer_first items.
Proof.
  cbv zeta. unfold project.
  set (d := fold_left add_updated updated (fold_left add_created created [])).
  destruct (created_loop_inv created) as (Hn0 & Hk0 & Hh0).
  destruct (updated_loop_inv updated _ Hn0 Hk0 Hh0) as (Hn & Hk & Hh).
  fold d in Hn, Hk, Hh.
  assert (Hget : forall rid, dict_get (hex rid) d = expected_item created updated rid)
    by (intros rid; apply loops_get).
  assert (Hids : map i_recordId (dict_values d) = map Some (map fst d)).
  { unfold dict_values. clear -Hk. induction Hk as [|[k v] d Hkv _ IH]; cbn;
      [reflexivity|]. cbn in Hkv. rewrite Hkv, IH. reflexivity. }
  assert (Hvals : forall it, it ∈ dict_values d <->
                    exists rid, dict_get (hex rid) d = Some it).
  { intros it. unfold dict_values. rewrite list_elem_of_fmap. split.
    - intros ([k v] & -> & Hin). cbn.
      destruct (Hh k) as [rid ->].
      { apply list_elem_of_fmap. exists (k, v). auto. }
      exists rid. apply dict_get_elem; assumption.
    - intros [rid Hg]. apply dict_get_elem in Hg; [|assumption].
      exists (hex rid, it). auto. }
  split; [|split; [|split; [|split]]].
  - rewrite (sorted_desc_perm (dict_values d)), Hids.
    apply NoDup_fmap; [intros ? ? [= ->]; reflexivity | exact Hn].
  - intros rid. rewrite (sorted_desc_perm (dict_values d)), Hids.
    rewrite <- expected_item_Some, <- Hget, dict_get_key.
    rewrite list_elem_of_fmap. split.
    + intros (k & [= ->] & Hin). exact Hin.
    + intros Hin. exists (hex rid). auto.
  - intros it. rewrite (sorted_desc_perm (dict_values d)), Hvals.
    intros [rid Hg]. rewrite Hget in Hg. exists rid. split; [|assumption].
    apply (expected_item_fields created updated rid it Hg).
  - intros rid it He. rewrite (sorted_desc_perm (dict_values d)), Hvals.
    exists rid. rewrite Hget. exact He.
  - apply sorted_desc_sorted.
Qed.



(** The listing of those logs: the updated record first, at version 3. *)
Example listing_sample :
  exists a b,
    result (list_metadata sample_logs) = Return [a; b]
    /\ i_version a = Some 3%N /\ i_updatedAt a = Some 40%N
    /\ i_createdAt a = Some 20%N /\ i_uri a = Some "ipfs://b3"
    /\ i_version b = Some 1%N /\ i_updatedAt b = Some 10%N.
Proof. do 2 eexists. vm_compute. repeat split; reflexivity. Qed.

(** An update event without a creation event gives a partial entry. *)
Example listing_update_only :
  project []
    [ {| u_recordId := repeat x02 32; u_contentHash := repeat x00 32;
         u_uri := "ipfs://b2"; u_version := 2; u_updatedBy := ACCOUNT;
         u_timestamp := 30 |} ]
  = [ {| i_recordId := Some (hex (repeat x02 32));
         i_contentHash := Some (hex (repeat x00 32));
         i_uri := Some "ipfs://b2"; i_version := Some 2%N; i_owner := None;
         i_updatedBy := Some ACCOUNT; i_updatedAt := Some 30%N;
         i_createdAt := None |} ].
Proof. vm_compute. reflexivity. Qed.

(** ** C3: which paths are written twice *)

(** C3, as claimed, fails: a second [create] for an id that exists writes
    [v1.json] of that id again, replacing the stored content, before the
    ledger refuses the transaction. *)
Lemma C3_create_twice_overwrites :
  let ops := [OpCreate "0" req_inline; OpCreate "1" req_again] in
  ~ NoDup (all_writes (run_ops "" ops genesis))
  /\ objects world1 !! (drop2 RID1, "v1.json") = Some "[1]"
  /\ objects (world (create "" "1" req_again world1)) !! (drop2 RID1, "v1.json")
     = Some "[9]"
  /\ transactions (trace (create "" "1" req_again world1))
     = [TxCreate RID1_bytes (SHA256.digest (encode "[9]"))
          ("/objects/" ++ drop2 RID1 ++ "/v1.json")]
  /\ chain (world (create "" "1" req_again world1)) = chain world1.
Proof.
  cbv zeta. split; [|vm_compute; repeat split; reflexivity].
  assert (E : all_writes (run_ops "" [OpCreate "0" req_inline;
                                     OpCreate "1" req_again] genesis)
              = [(drop2 RID1, "v1.json"); (drop2 RID1, "v1.json")])
    by (vm_compute; reflexivity).
  rewrite E. intros [Hn _]%NoDup_cons. apply Hn, list_elem_of_here.
Qed.

Lemma str_app_inv_tail (s1 s2 x : string) :
  (s1 ++ x = s2 ++ x)%string -> s1 = s2.
Proof.
  assert (Hlen : forall a b, String.length (a ++ b)%string
                             = String.length a + String.length b).
  { intros a b. induction a as [|c a IH]; [reflexivity|].
    rewrite str_app_cons. cbn [String.length]. rewrite IH. reflexivity. }
  revert s2. induction s1 as [|c s1 IH]; intros [|c2 s2]; rewrite ?str_app_cons, ?str_app_nil.
  - reflexivity.
  - intros E. apply (f_equal String.length) in E.
    cbn [String.length] in E. rewrite Hlen in E. lia.
  - intros E. apply (f_equal String.length) in E.
    cbn [String.length] in E. rewrite Hlen in E. lia.
  - intros [= -> E]. rewrite (IH s2 E). reflexivity.
Qed.

Lemma str_of_N_inj (n m : N) : str_of_N n = str_of_N m -> n = m.
Proof.
  unfold str_of_N. intros E.
  assert (Hnn : forall k, N.to_uint k <> Decimal.Nil).
  { intros [|p]; [discriminate | apply DecimalPos.Unsigned.to_uint_nonnil]. }
  apply (f_equal NilZero.uint_of_string) in E.
  rewrite !NilZero.usu in E by apply Hnn.
  injection E as E. apply DecimalN.Unsigned.to_uint_inj, E.
Qed.

Lemma version_file_inj (n m : N) : version_file n = version_file m -> n = m.
Proof.
  unfold version_file. rewrite !str_app_cons, !str_app_nil.
  intros [= E]. apply str_app_inv_tail in E. apply str_of_N_inj, E.
Qed.

Section Freshness.
Context {L : Type} `{HV : Versioned L}.
Variable base : string.

Lemma accounted_after_tx (l : L) (tx : Tx) (W : list Path) :
  accounted l W -> accounted (outcome_state (send_tx l tx)) W.
Proof.
  intros Ha dir file Hin.
  destruct (Ha dir file Hin) as (rid & t & Hd & Hf & He & Hv).
  destruct (tx_keeps l tx rid He) as [He' Hv'].
  exists rid, t. repeat split; try assumption. lia.
Qed.

Lemma sent_world {A : Type} (w : World L) tx (resp : bytes -> A) pre :
  chain (world (sent w tx resp pre)) = outcome_state (send_tx (chain w) tx).
Proof. unfold sent. destruct (send_tx (chain w) tx); reflexivity. Qed.

(** A committed run of the file-then-transaction shape either wrote
    nothing, or wrote the file and had its transaction applied. *)
Lemma stored_committed {A : Type} (w : World L) dir file text tx
    (resp : bytes -> A) pre :
  Forall is_call pre ->
  committed (trace (stored w dir file text tx resp pre)) ->
  (writes (trace (stored w dir file text tx resp pre)) = []
   /\ world (stored w dir file text tx resp pre) = w)
  \/ (writes (trace (stored w dir file text tx resp pre)) = [(dir, file)]
      /\ exists l' h, send_tx (chain w) tx = Mined l' h true
                      /\ chain (world (stored w dir file text tx resp pre)) = l').
Proof.
  intros Hp. pose proof (calls_no_transactions pre Hp) as [_ Hw].
  unfold stored.
  destruct (fs_fault w (OpMkdir dir)); cbn [trace world].
  { intros _. left. rewrite writes_app, Hw. auto. }
  destruct (fs_fault w (OpWrite (dir, file))); cbn [trace world].
  { intros [Hc|[tx' Hc]].
    - rewrite writes_app, Hw in Hc. discriminate.
    - change (pre ++ [EvMkdir dir; EvWrite (dir, file) text])%list
        with (pre ++ [EvMkdir dir] ++ [EvWrite (dir, file) text])%list in Hc.
      rewrite app_assoc, last_snoc in Hc. discriminate. }
  intros Hc. right. rewrite sent_writes, writes_app, Hw. split; [reflexivity|].
  unfold sent in *. cbn [chain with_object with_dir] in *.
  destruct (send_tx (chain w) tx) as [l' h st|l']; cbn [trace world] in *.
  - destruct Hc as [Hc|[tx' Hc]].
    + rewrite writes_app, writes_app, Hw in Hc. discriminate.
    + rewrite last_snoc in Hc. injection Hc as _ ->. eauto.
  - destruct Hc as [Hc|[tx' Hc]].
    + rewrite writes_app, writes_app, Hw in Hc. discriminate.
    + rewrite last_snoc in Hc. discriminate.
Qed.

(** One request: if its run is committed, the path it writes is new and
    everything written stays accounted for. *)
Lemma run_op_fresh (op : Op) (w : World L) (W : list Path) :
  NoDup W -> accounted (chain w) W ->
  committed (fst (fst (run_op base op w))) ->
  NoDup (W ++ writes (fst (fst (run_op base op w))))
  /\ accounted (chain (snd (run_op base op w)))
               (W ++ writes (fst (fst (run_op base op w)))).
Proof.
  intros Hn Ha.
  assert (Hsame : forall A (o : Outcome L A),
            writes (trace o) = [] -> world o = w ->
            NoDup (W ++ writes (trace o))
            /\ accounted (chain (world o)) (W ++ writes (trace o))).
  { intros A o -> ->. rewrite app_nil_r. auto. }
  assert (Hsent : forall A tx (resp : bytes -> A) pre,
            Forall is_call pre ->
            NoDup (W ++ writes (trace (sent w tx resp pre)))
            /\ accounted (chain (world (sent w tx resp pre)))
                 (W ++ writes (trace (sent w tx resp pre)))).
  { intros A tx resp pre [_ Hw]%calls_no_transactions.
    rewrite sent_writes, Hw, app_nil_r, sent_world.
    split; [assumption | apply accounted_after_tx, Ha]. }
  destruct op as [now req | r req]; unfold run_op; cbv zeta; cbn [fst snd].
  - (* create *)
    destruct (create_rid now req) as [rid|e] eqn:Hrid.
    2:{ rewrite (create_bad_id base now req w e Hrid). intros _.
        apply Hsame; reflexivity. }
    destruct (truthy (cr_json_text req)) eqn:Hj;
      [|destruct (truthy (cr_uri req)) eqn:Hu].
    + rewrite (create_inline base now req w rid Hrid Hj).
      intros Hc. apply stored_committed in Hc; [|constructor].
      destruct Hc as [[Hw Hwd]|[Hw (l' & h & Htx & Hch)]].
      { apply Hsame; assumption. }
      rewrite Hw, Hch.
      destruct (create_fresh _ _ _ _ _ _ Htx) as (Hno & Hyes & Hver).
      split.
      * apply NoDup_app. split; [assumption|]. split; [|apply NoDup_singleton].
        intros p Hp ->%list_elem_of_singleton.
        destruct (Ha _ _ Hp) as (rid' & t & Hd & _ & He & _).
        rewrite unhex_hex in Hd. injection Hd as <-. contradiction.
      * intros dir file [Hin|[= -> ->]%list_elem_of_singleton]%elem_of_app.
        -- destruct (accounted_after_tx (chain w)
                       (TxCreate rid (SHA256.digest (encode (the (cr_json_text req))))
                          (object_uri base (hex rid) "v1.json")) W Ha dir file Hin)
             as (rid' & t & ?). rewrite Htx in *. exists rid', t. assumption.
        -- exists rid, 1%N. rewrite unhex_hex. repeat split; assumption.
    + rewrite (create_external base now req w rid Hrid Hj Hu). intros _.
      apply Hsent. constructor.
    + rewrite (create_neither base now req w rid Hrid Hj Hu). intros _.
      apply Hsame; reflexivity.
  - (* update *)
    destruct (_b32 r) as [rid|e] eqn:Hr.
    2:{ rewrite (update_bad_id base r req w e Hr). intros _.
        apply Hsame; reflexivity. }
    destruct (reachable (chain w)) eqn:Hreach.
    2:{ rewrite (update_unreachable base r req w rid Hr Hreach). intros _.
        apply Hsame; reflexivity. }
    rewrite (update_reachable base r req w rid Hr Hreach). cbv zeta.
    destruct (String.eqb_spec (r_owner (contract_get (chain w) rid)) ZERO_ADDRESS)
      as [Ho|Ho].
    { intros _. apply Hsame; reflexivity. }
    destruct (truthy (ur_json_text req)) eqn:Hj;
      [|destruct (truthy (ur_uri req)) eqn:Hu].
    + intros Hc. apply stored_committed in Hc; [|apply call_is_call].
      destruct Hc as [[Hw Hwd]|[Hw (l' & h & Htx & Hch)]].
      { apply Hsame; assumption. }
      rewrite Hw, Hch. pose proof (update_bumps _ _ _ _ _ _ Htx) as Hver.
      apply b32_Return in Hr as [Hdir _].
      split.
      * apply NoDup_app. split; [assumption|]. split; [|apply NoDup_singleton].
        intros p Hp ->%list_elem_of_singleton.
        destruct (Ha _ _ Hp) as (rid' & t & Hd & Hf & _ & Ht).
        rewrite Hdir in Hd. injection Hd as <-.
        apply version_file_inj in Hf. unfold version_on in Ht. lia.
      * intros dir file [Hin|[= -> ->]%list_elem_of_singleton]%elem_of_app.
        -- destruct (accounted_after_tx (chain w)
                       (TxUpdate rid (SHA256.digest (encode (the (ur_json_text req))))
                          (object_uri base (strip_0x r)
                             (version_file (r_version (contract_get (chain w) rid) + 1))))
                       W Ha dir file Hin)
             as (rid' & t & ?). rewrite Htx in *. exists rid', t. assumption.
        -- exists rid, (r_version (contract_get (chain w) rid) + 1)%N.
           destruct (tx_keeps (chain w)
                       (TxUpdate rid (SHA256.digest (encode (the (ur_json_text req))))
                          (object_uri base (strip_0x r)
                             (version_file (r_version (contract_get (chain w) rid) + 1))))
                       rid Ho) as [He _].
           rewrite Htx in He. cbn [outcome_state] in He.
           repeat split; try assumption. rewrite Hver. unfold version_on. lia.
    + intros _. apply Hsent, call_is_call.
    + intros _. apply Hsame; reflexivity.
Qed.

Lemma run_ops_fresh (ops : list Op) (w : World L) (W : list Path) :
  NoDup W -> accounted (chain w) W ->
  Forall (fun run => committed (fst run)) (run_ops base ops w) ->
  NoDup (W ++ all_writes (run_ops base ops w)).
Proof.
  revert w W. induction ops as [|op ops IH]; intros w W Hn Ha Hc.
  - cbn. rewrite app_nil_r. assumption.
  - cbn [run_ops] in *.
    pose proof (run_op_fresh op w W Hn Ha) as Hstep.
    destruct (run_op base op w) as [[t s] w'] eqn:Eop.
    cbn [fst snd] in Hstep. apply Forall_cons in Hc as [Hc1 Hc].
    destruct (Hstep Hc1) as [Hn' Ha'].
    unfold all_writes. cbn [flat_map fst]. rewrite app_assoc.
    apply IH; assumption.
Qed.

End Freshness.

(** The reference ledger keeps the versioning discipline. *)
Lemma registry_versioned : Versioned Registry.
Proof.
  assert (Hne : ACCOUNT <> ZERO_ADDRESS) by discriminate.
  split.
  - intros l tx rid. unfold exists_on, version_on. cbn [contract_get registry_ledger send_tx].
    unfold registry_send, registry_get.
    destruct (node_up l); cbn [negb outcome_state]; [|split; [assumption|lia]].
    destruct tx as [rid' ch uri | rid' ch uri].
    + destruct (storage l !! hex rid') as [old|] eqn:E; cbn [outcome_state storage];
        [split; [assumption|lia]|].
      destruct (decide (hex rid' = hex rid)) as [Heq|Hneq].
      * rewrite <- Heq, E. cbn. contradiction.
      * rewrite lookup_insert_ne by assumption. split; [assumption|lia].
    + destruct (storage l !! hex rid') as [old|] eqn:E; cbn [outcome_state storage];
        [|split; [assumption|lia]].
      destruct (decide (hex rid' = hex rid)) as [Heq|Hneq].
      * rewrite <- Heq, E, lookup_insert_eq. cbn. split; [assumption|lia].
      * rewrite lookup_insert_ne by assumption. split; [assumption|lia].
  - intros l l' rid ch h uri. unfold exists_on, version_on.
    cbn [contract_get registry_ledger send_tx]. unfold registry_send, registry_get.
    destruct (node_up l); cbn [negb]; [|discriminate].
    destruct (storage l !! hex rid) as [old|] eqn:E; [discriminate|].
    intros [= <- _]. cbn [storage]. rewrite lookup_insert_eq. cbn.
    split; [auto|]. split; [assumption|lia].
  - intros l l' rid ch h uri. unfold version_on.
    cbn [contract_get registry_ledger send_tx]. unfold registry_send, registry_get.
    destruct (node_up l); cbn [negb]; [|discriminate].
    destruct (storage l !! hex rid) as [old|] eqn:E; [|discriminate].
    intros [= <- _]. cbn [storage]. rewrite lookup_insert_eq. reflexivity.
Qed.

Lemma run_op_one_write {L : Type} `{Ledger L} (base : string) (op : Op)
    (w : World L) :
  length (writes (fst (fst (run_op base op w)))) <= 1.
Proof.
  destruct op as [now req | r req]; unfold run_op; cbv zeta; cbn [fst snd].
  - destruct (create_rid now req) as [rid|e] eqn:Hrid.
    2:{ rewrite (create_bad_id base now req w e Hrid). cbn. lia. }
    destruct (truthy (cr_json_text req)) eqn:Hj;
      [|destruct (truthy (cr_uri req)) eqn:Hu].
    + rewrite (create_inline base now req w rid Hrid Hj), stored_writes.
      destruct (fs_fault _ _); cbn; lia.
    + rewrite (create_external base now req w rid Hrid Hj Hu), sent_writes.
      cbn. lia.
    + rewrite (create_neither base now req w rid Hrid Hj Hu). cbn. lia.
  - destruct (_b32 r) as [rid|e] eqn:Hr.
    2:{ rewrite (update_bad_id base r req w e Hr). cbn. lia. }
    destruct (reachable (chain w)) eqn:Hreach.
    2:{ rewrite (update_unreachable base r req w rid Hr Hreach). cbn. lia. }
    rewrite (update_reachable base r req w rid Hr Hreach). cbv zeta.
    destruct (String.eqb _ ZERO_ADDRESS); [cbn; lia|].
    destruct (truthy (ur_json_text req)); [|destruct (truthy (ur_uri req))].
    + rewrite stored_writes. destruct (fs_fault _ _); cbn; lia.
    + rewrite sent_writes. cbn. lia.
    + cbn. lia.
Qed.

(** C3 (amended): every request writes at most one file; over a sequence
    of creates and updates in which each run that wrote a file had its
    transaction applied, on a ledger that refuses a create for an existing
    id, never lowers a version and adds one per applied update, no path is
    written twice. *)
Theorem C3_committed_writes_are_fresh :
  forall (L : Type) (HL : Ledger L),
    Versioned L ->
    forall (base : string) (ops : list Op) (w : World L),
      Forall (fun run => length (writes (fst run)) <= 1) (run_ops base ops w)
      /\ (Forall (fun run => committed (fst run)) (run_ops base ops w) ->
          NoDup (all_writes (run_ops base ops w))).
Proof.
  intros L HL HV base ops w. split.
  - revert w. induction ops as [|op ops IH]; intros w; cbn [run_ops];
      [constructor|].
    pose proof (run_op_one_write base op w) as H1.
    destruct (run_op base op w) as [[t s] w']. constructor; [exact H1 | apply IH].
  - intros Hc. apply (run_ops_fresh base ops w [] NoDup_nil_2); [|exact Hc].
    intros dir file Hin. inversion Hin.
Qed.

(** C3 on a create followed by three updates of the same record, the
    second update carrying only a uri: versions 1, 2 and 4 are written. *)
Lemma C3_committed_writes_are_fresh_witness :
  NoDup (all_writes (run_ops "" [OpCreate "0" req_inline;
                                 OpUpdate RID1 upd_inline;
                                 OpUpdate RID1 upd_external;
                                 OpUpdate RID1 upd_inline] genesis)).
Proof.
  apply (C3_committed_writes_are_fresh Registry registry_ledger
           registry_versioned).
  vm_compute.
  repeat (constructor; [right; eexists; reflexivity|]). constructor.
Defined.

(** The paths of that sequence. *)
Example versions_written :
  all_writes (run_ops "" [OpCreate "0" req_inline;
                          OpUpdate RID1 upd_inline;
                          OpUpdate RID1 upd_external;
                          OpUpdate RID1 upd_inline] genesis)
  = [(drop2 RID1, "v1.json"); (drop2 RID1, "v2.json"); (drop2 RID1, "v4.json")].
Proof. vm_compute. reflexivity. Qed.

(** An update whose id is spelled in upper case writes next to, not into,
    the directory that [create] made. *)
Example update_upper_case_directory :
  exists dir,
    writes (trace (update "" ("0x" ++ dir) upd_inline world1)) = [(dir, "v2.json")]
    /\ dir <> drop2 RID1 /\ lower dir = drop2 RID1.
Proof.
  exists "F6CC8A8074FC139ADDC7AB80C06269C38BC357F401CA9A36165B0C12CEF4E186".
  vm_compute. repeat split; try reflexivity. discriminate.
Qed.

(** * Further properties of the handlers and their helpers *)

(** ** [_b32] *)

Lemma strip_0x_hex (b : bytes) : strip_0x (hex b) = hex b.
Proof. destruct b as [|x r]; [reflexivity|]. destruct x; reflexivity. Qed.

(** An id printed by [Web3.to_hex] or by [bytes.hex] parses back to
    itself. *)
Theorem b32_round_trip :
  forall rid : bytes,
    length rid = 32 ->
    _b32 (to_hex rid) = Return rid /\ _b32 (hex rid) = Return rid.
Proof.
  intros rid Hl. split; apply b32_Return; split; try assumption.
  - apply unhex_hex.
  - rewrite strip_0x_hex. apply unhex_hex.
Qed.

Lemma b32_round_trip_witness :
  _b32 (to_hex RID1_bytes) = Return RID1_bytes
  /\ _b32 (hex RID1_bytes) = Return RID1_bytes.
Proof. apply (b32_round_trip RID1_bytes). reflexivity. Defined.

Lemma hexval_lower_char (c : ascii) : hexval (lower_char c) = hexval c.
Proof. destruct c as [[] [] [] [] [] [] [] []]; reflexivity. Qed.

Lemma lower_char_zero (c : ascii) : lower_char c = "0"%char -> c = "0"%char.
Proof.
  destruct c as [[] [] [] [] [] [] [] []]; vm_compute; intros E;
    try discriminate E; reflexivity.
Qed.

Lemma lower_char_x (c : ascii) :
  lower_char c = "x"%char -> c = "x"%char \/ c = "X"%char.
Proof.
  destruct c as [[] [] [] [] [] [] [] []]; vm_compute; intros E;
    try discriminate E; auto.
Qed.

Lemma unhex_lower_same (s : string) : unhex (lower s) = unhex s.
Proof.
  induction s as [| c | a b r IH] using string_ind2; [reflexivity| |].
  - reflexivity.
  - cbn [lower unhex]. rewrite !hexval_lower_char, IH. reflexivity.
Qed.

Lemma strip_0x_lower (s : string) :
  is_Some (unhex (strip_0x s)) -> strip_0x (lower s) = lower (strip_0x s).
Proof.
  destruct s as [|a [|b r]]; [reflexivity| |].
  - intros _. cbn [lower].
    destruct (Ascii.eqb_spec (lower_char a) "0"%char) as [E|E].
    + apply lower_char_zero in E as ->. reflexivity.
    + destruct a as [[] [] [] [] [] [] [] []]; reflexivity.
  - intros Hs.
    destruct (Ascii.eqb_spec a "0"%char) as [->|Ea].
    + destruct (Ascii.eqb_spec b "x"%char) as [->|Eb]; [reflexivity|].
      destruct (Ascii.eqb_spec b "X"%char) as [->|EX].
      * exfalso. cbn in Hs. destruct Hs as [x Hx]. discriminate.
      * assert (Hl : lower_char b <> "x"%char).
        { intros [?|?]%lower_char_x; contradiction. }
        assert (Hs1 : strip_0x (String "0" (String b r)) = String "0" (String b r)).
        { destruct b as [[] [] [] [] [] [] [] []]; try reflexivity.
          contradiction. }
        rewrite Hs1. cbn [lower].
        change (lower_char "0") with "0"%char.
        destruct (lower_char b) as [[] [] [] [] [] [] [] []]; try reflexivity.
        contradiction.
    + assert (Hl : lower_char a <> "0"%char).
      { intros ?%lower_char_zero. contradiction. }
      assert (Hs1 : strip_0x (String a (String b r)) = String a (String b r)).
      { destruct a as [[] [] [] [] [] [] [] []]; try reflexivity.
        contradiction. }
      rewrite Hs1. cbn [lower].
      destruct (lower_char a) as [[] [] [] [] [] [] [] []]; try reflexivity.
      contradiction.
Qed.

(** [_b32] does not care about the case of the digits: the lower-cased
    string parses to the same id. *)
Theorem b32_case_insensitive :
  forall (s : string) (raw : bytes),
    _b32 s = Return raw -> _b32 (lower s) = Return raw.
Proof.
  intros s raw [Hu Hl]%b32_Return. apply b32_Return. split; [|assumption].
  rewrite strip_0x_lower by (rewrite Hu; eexists; reflexivity).
  rewrite unhex_lower_same. assumption.
Qed.

Lemma b32_case_insensitive_witness :
  _b32 (lower "0xF6CC8A8074FC139ADDC7AB80C06269C38BC357F401CA9A36165B0C12CEF4E186")
  = Return RID1_bytes.
Proof.
  apply (b32_case_insensitive
           "0xF6CC8A8074FC139ADDC7AB80C06269C38BC357F401CA9A36165B0C12CEF4E186").
  vm_compute. reflexivity.
Defined.

Lemma hex_digits (b : bytes) :
  forallb_string is_hex_digit (hex b) = true
  /\ forallb_string is_lower_hex (hex b) = true
  /\ forallb_string is_ascii (hex b) = true.
Proof.
  induction b as [|x r (IH1 & IH2 & IH3)]; [repeat split|].
  cbn [hex forallb_string]. rewrite IH1, IH2, IH3.
  destruct x; repeat split; reflexivity.
Qed.

(** Which refusal a string gets from [_b32], in the order in which the
    checks are made on the text that follows the optional [0x]: text that
    is not ASCII, an odd number of characters, a character that is not a
    hexadecimal digit, a length other than 64.  An upper-case [0X] is not
    taken as a prefix, so such an id is refused for its [X]. *)
Theorem b32_refusals :
  forall s : string,
    let t := strip_0x s in
    (forallb_string is_ascii t = false ->
     _b32 s = Raise (ValueError
                       "string argument should contain only ASCII characters"))
    /\ (forallb_string is_ascii t = true -> Nat.odd (String.length t) = true ->
        _b32 s = Raise (BinasciiError "Odd-length string"))
    /\ (forallb_string is_ascii t = true -> Nat.odd (String.length t) = false ->
        forallb_string is_hex_digit t = false ->
        _b32 s = Raise (BinasciiError "Non-hexadecimal digit found"))
    /\ (forallb_string is_hex_digit t = true ->
        Nat.odd (String.length t) = false -> String.length t <> 64 ->
        _b32 s = Raise (ValueError "must be 32 bytes"))
    /\ (forall rid : bytes,
          _b32 ("0X" ++ hex rid)
          = Raise (BinasciiError "Non-hexadecimal digit found")).
Proof.
  intros s t. unfold _b32. rewrite strip_0x_if. fold t. unfold unhexlify.
  split; [|split; [|split; [|split]]].
  - intros ->. reflexivity.
  - intros -> ->. reflexivity.
  - intros -> -> Hd. cbn [negb].
    destruct (unhex t) as [raw|] eqn:Hu; [|reflexivity].
    destruct (proj1 (unhex_digits t)) as [_ Hd'];
      [rewrite Hu; eexists; reflexivity|]. congruence.
  - intros Hd Ho Hlen.
    rewrite (forallb_string_impl _ _ _ hex_digit_ascii Hd), Ho. cbn [negb].
    destruct (proj2 (unhex_digits t)) as [raw Hu].
    { split; [|assumption]. rewrite odd_even_length in Ho.
      destruct (Nat.even _); [reflexivity | discriminate]. }
    rewrite Hu. pose proof (unhex_length _ _ Hu) as Hl.
    destruct (Nat.eqb_spec (length raw) 32) as [E|E]; [lia | reflexivity].
  - intros rid. clear s t.
    rewrite strip_0x_if. rewrite !str_app_cons, str_app_nil.
    cbn [strip_0x forallb_string String.length].
    destruct (hex_digits rid) as (_ & _ & Ha). rewrite Ha.
    rewrite hex_length.
    replace (S (S (2 * length rid))) with (2 + 2 * length rid) by lia.
    rewrite Nat.odd_add_mul_2. reflexivity.
Qed.

Lemma b32_refusals_witness :
  _b32 "0xabc" = Raise (BinasciiError "Odd-length string")
  /\ _b32 "0xzz" = Raise (BinasciiError "Non-hexadecimal digit found")
  /\ _b32 "0xabcd" = Raise (ValueError "must be 32 bytes").
Proof.
  split; [|split].
  - apply (proj1 (proj2 (b32_refusals "0xabc"))); reflexivity.
  - apply (proj1 (proj2 (proj2 (b32_refusals "0xzz")))); reflexivity.
  - apply (proj1 (proj2 (proj2 (proj2 (b32_refusals "0xabcd")))));
      [reflexivity | reflexivity | discriminate].
Defined.

(** ** [_sha256_hex] *)

Lemma sha256_round_length (st : list Z) (kw : Z * Z) :
  length (SHA256.round st kw) = length st.
Proof.
  destruct st as [|a [|b [|c [|d [|e [|f [|g [|h [|i r]]]]]]]]]; reflexivity.
Qed.

Lemma sha256_rounds_length (l : list (Z * Z)) (st : list Z) :
  length (fold_left SHA256.round l st) = length st.
Proof.
  revert st. induction l as [|kw l IH]; intros st; [reflexivity|].
  cbn [fold_left]. rewrite IH. apply sha256_round_length.
Qed.

Lemma sha256_zip_length (f : Z -> Z -> Z) (a b : list Z) :
  length a = length b -> length (SHA256.zip_with f a b) = length a.
Proof.
  revert b. induction a as [|x a IH]; intros [|y b]; cbn; try discriminate;
    [reflexivity|]. intros [= E]. rewrite (IH b E). reflexivity.
Qed.

Lemma sha256_compress_length (st block : list Z) :
  length (SHA256.compress st block) = length st.
Proof.
  unfold SHA256.compress. apply sha256_zip_length.
  symmetry. apply sha256_rounds_length.
Qed.

(** [hashlib.sha256(data).digest()] has 32 bytes. *)
Lemma sha256_digest_length (m : bytes) : length (SHA256.digest m) = 32.
Proof.
  unfold SHA256.digest, SHA256.digest_words.
  set (p := SHA256.pad (map Z_of_byte m)).
  assert (H8 : length (fold_left SHA256.compress (chunks (length p) 64 p)
                         SHA256.H0) = 8).
  { generalize (chunks (length p) 64 p). intros blocks.
    induction blocks as [|b blocks IH] using rev_ind; [reflexivity|].
    rewrite fold_left_snoc, sha256_compress_length. exact IH. }
  destruct (fold_left SHA256.compress _ SHA256.H0)
    as [|a [|b [|c [|d [|e [|f [|g [|h [|i r]]]]]]]]]; try discriminate H8.
  reflexivity.
Qed.

(** The text that [_sha256_hex] returns is 64 digits out of [0-9a-f], and
    [Web3.to_bytes] turns it, behind [0x], back into the 32 bytes of the
    digest. *)
Theorem sha256_hex_shape :
  forall data : bytes,
    String.length (_sha256_hex data) = 64
    /\ forallb_string is_lower_hex (_sha256_hex data) = true
    /\ to_bytes_hexstr ("0x" ++ _sha256_hex data)
       = Return (SHA256.digest data)
    /\ length (SHA256.digest data) = 32.
Proof.
  intros data. unfold _sha256_hex.
  rewrite hex_length, sha256_digest_length.
  split; [reflexivity|]. split; [apply hex_digits|].
  split; [apply to_bytes_digest | reflexivity].
Qed.

(** ** What reaches the ledger *)

Lemma create_rid_length (now : string) (req : CreateReq) (rid : bytes) :
  create_rid now req = Return rid -> length rid = 32.
Proof.
  unfold create_rid. destruct (truthy (cr_recordIdHex req)).
  - intros [_ Hl]%b32_Return. exact Hl.
  - intros [= <-]. apply keccak256_length.
Qed.

(** Every transaction that [create] or [update] hands to the node has an
    id of 32 bytes and a content hash of 32 bytes, the two [bytes32]
    arguments of the contract. *)
Theorem transactions_are_bytes32 :
  forall (L : Type) (HL : Ledger L) (base now r : string) (req : CreateReq)
         (ureq : UpdateReq) (w : World L),
    Forall (fun tx => length (tx_rid tx) = 32
                      /\ length (tx_contentHash tx) = 32)
           (transactions (trace (create base now req w)))
    /\ Forall (fun tx => length (tx_rid tx) = 32
                         /\ length (tx_contentHash tx) = 32)
              (transactions (trace (update base r ureq w))).
Proof.
  intros L HL base now r req ureq w. split.
  - destruct (create_rid now req) as [rid|e] eqn:Hrid.
    + pose proof (create_rid_length now req rid Hrid) as Hl.
      destruct (truthy (cr_json_text req)) eqn:Hj;
        [|destruct (truthy (cr_uri req)) eqn:Hu].
      * rewrite (create_inline base now req w rid Hrid Hj), stored_transactions.
        destruct (_ || _); cbn [transactions app]; [constructor|].
        constructor; [|constructor].
        split; [exact Hl | apply sha256_digest_length].
      * rewrite (create_external base now req w rid Hrid Hj Hu),
                sent_transactions.
        cbn [transactions app]. constructor; [|constructor].
        split; [exact Hl | reflexivity].
      * rewrite (create_neither base now req w rid Hrid Hj Hu). constructor.
    + rewrite (create_bad_id base now req w e Hrid). constructor.
  - destruct (_b32 r) as [rid|e] eqn:Hr.
    + pose proof (proj2 (proj1 (b32_Return r rid) Hr)) as Hl.
      destruct (reachable (chain w)) eqn:Hn.
      * rewrite (update_reachable base r ureq w rid Hr Hn). cbv zeta.
        destruct (String.eqb _ ZERO_ADDRESS); [constructor|].
        destruct (truthy (ur_json_text ureq)); [|destruct (truthy (ur_uri ureq))].
        -- rewrite stored_transactions.
           destruct (_ || _); cbn [transactions app]; [constructor|].
           constructor; [|constructor].
           split; [exact Hl | apply sha256_digest_length].
        -- rewrite sent_transactions.
           cbn [transactions app]. constructor; [|constructor].
        split; [exact Hl | reflexivity].
        -- constructor.
      * rewrite (update_unreachable base r ureq w rid Hr Hn). constructor.
    + rewrite (update_bad_id base r ureq w e Hr). constructor.
Qed.

(** ** The reading handlers *)

(** [get_one] and [list_metadata] only read: whatever they answer, they
    write no file, send no transaction and leave the world as it was. *)
Theorem reads_change_nothing :
  forall (L : Type) (HL : Ledger L) (r : string) (w : World L),
    world (get_one r w) = w
    /\ writes (trace (get_one r w)) = []
    /\ transactions (trace (get_one r w)) = []
    /\ world (list_metadata w) = w
    /\ writes (trace (list_metadata w)) = []
    /\ transactions (trace (list_metadata w)) = [].
Proof.
  intros L HL r w.
  assert (Hg : world (get_one r w) = w /\ writes (trace (get_one r w)) = []
               /\ transactions (trace (get_one r w)) = []).
  { destruct (_b32 r) as [rid|e] eqn:Hr.
    - destruct (reachable (chain w)) eqn:Hn.
      + rewrite (get_one_reachable r w rid Hr Hn).
        destruct (String.eqb _ ZERO_ADDRESS); repeat split.
      + rewrite (get_one_unreachable r w rid Hr Hn). repeat split.
    - rewrite (get_one_bad_id r w e Hr). repeat split. }
  destruct Hg as (H1 & H2 & H3). repeat split; assumption.
Qed.

(** The [recordId] that [get_one] returns is the lower-cased input, and
    it parses to the id that was looked up. *)
Theorem get_one_returns_parseable_id :
  forall (L : Type) (HL : Ledger L) (r : string) (w : World L) (v : RecordView),
    result (get_one r w) = Return v ->
    v_recordId v = lower r
    /\ exists rid, _b32 r = Return rid
                   /\ _b32 (v_recordId v) = Return rid
                   /\ trace (get_one r w) = [EvCall rid].
Proof.
  intros L HL r w v.
  destruct (_b32 r) as [rid|e] eqn:Hr.
  - destruct (reachable (chain w)) eqn:Hn.
    + rewrite (get_one_reachable r w rid Hr Hn).
      destruct (String.eqb _ ZERO_ADDRESS); [discriminate|].
      cbn. intros [= <-]. cbn. split; [reflexivity|].
      exists rid. split; [reflexivity|].
      split; [apply b32_case_insensitive, Hr | reflexivity].
    + rewrite (get_one_unreachable r w rid Hr Hn). discriminate.
  - rewrite (get_one_bad_id r w e Hr). discriminate.
Qed.

Lemma get_one_returns_parseable_id_witness :
  exists v, result (get_one RID1 world1) = Return v
            /\ v_recordId v = lower RID1.
Proof.
  assert (E : exists v, result (get_one RID1 world1) = Return v)
    by (eexists; vm_compute; reflexivity).
  destruct E as [v E]. exists v. split; [exact E|].
  exact (proj1 (get_one_returns_parseable_id Registry registry_ledger RID1
                  world1 v E)).
Defined.

(** ** The id in the answers of [create] and [update] *)

Lemma lower_hex (b : bytes) : lower (hex b) = hex b.
Proof. apply unhex_lower, unhex_hex. Qed.

(** The [recordId] that [create] returns is [0x] followed by lower-case
    digits whatever the case of the id in the request; it parses to the id
    of the transaction.  [update] returns the id as it was given. *)
Theorem answered_record_id :
  forall (L : Type) (HL : Ledger L) (base now r : string) (req : CreateReq)
         (ureq : UpdateReq) (w : World L),
    (forall resp, result (create base now req w) = Return resp ->
       exists rid,
         cs_recordId resp = to_hex rid
         /\ _b32 (cs_recordId resp) = Return rid
         /\ Forall (fun tx => tx_rid tx = rid)
                   (transactions (trace (create base now req w)))
         /\ (truthy (cr_recordIdHex req) = true ->
             cs_recordId resp
             = ("0x" ++ lower (strip_0x (the (cr_recordIdHex req))))%string))
    /\ (forall resp, result (update base r ureq w) = Return resp ->
          us_recordId resp = r).
Proof.
  intros L HL base now r req ureq w. split.
  - intros resp Hres.
    destruct (create_rid now req) as [rid|e] eqn:Hrid.
    2:{ rewrite (create_bad_id base now req w e Hrid) in Hres. discriminate. }
    pose proof (create_rid_length now req rid Hrid) as Hl.
    assert (Hexp : truthy (cr_recordIdHex req) = true ->
                   to_hex rid
                   = ("0x" ++ lower (strip_0x (the (cr_recordIdHex req))))%string).
    { intros Ht. unfold create_rid in Hrid. rewrite Ht in Hrid.
      apply b32_Return in Hrid as [Hu _].
      rewrite (unhex_lower _ _ Hu). reflexivity. }
    exists rid.
    destruct (truthy (cr_json_text req)) eqn:Hj;
      [|destruct (truthy (cr_uri req)) eqn:Hu].
    + rewrite (create_inline base now req w rid Hrid Hj) in Hres |- *.
      apply stored_Return in Hres as (_ & _ & l' & h & st & _ & -> & ->).
      cbn [create_resp cs_recordId trace].
      split; [reflexivity|]. split; [apply b32_round_trip, Hl|].
      split; [repeat constructor | exact Hexp].
    + rewrite (create_external base now req w rid Hrid Hj Hu) in Hres |- *.
      apply sent_Return in Hres as (l' & h & st & _ & -> & ->).
      cbn [create_resp cs_recordId trace].
      split; [reflexivity|]. split; [apply b32_round_trip, Hl|].
      split; [repeat constructor | exact Hexp].
    + rewrite (create_neither base now req w rid Hrid Hj Hu) in Hres.
      discriminate.
  - intros resp.
    destruct (_b32 r) as [rid|e] eqn:Hr.
    + destruct (reachable (chain w)) eqn:Hn.
      * rewrite (update_reachable base r ureq w rid Hr Hn). cbv zeta.
        destruct (String.eqb _ ZERO_ADDRESS); [discriminate|].
        destruct (truthy (ur_json_text ureq)); [|destruct (truthy (ur_uri ureq))].
        -- intros (_ & _ & l' & h & st & _ & -> & _)%stored_Return. reflexivity.
        -- intros (l' & h & st & _ & -> & _)%sent_Return. reflexivity.
        -- discriminate.
      * rewrite (update_unreachable base r ureq w rid Hr Hn). discriminate.
    + rewrite (update_bad_id base r ureq w e Hr). discriminate.
Qed.

Lemma answered_record_id_witness :
  exists resp,
    result (create "" "0"
              {| cr_recordIdHex :=
                   Some "0xF6CC8A8074FC139ADDC7AB80C06269C38BC357F401CA9A36165B0C12CEF4E186";
                 cr_json_text := None; cr_uri := Some "ipfs://meta" |} genesis)
    = Return resp
    /\ exists rid, cs_recordId resp = to_hex rid
                   /\ _b32 (cs_recordId resp) = Return rid.
Proof.
  assert (E : exists resp,
             result (create "" "0"
                       {| cr_recordIdHex :=
                            Some "0xF6CC8A8074FC139ADDC7AB80C06269C38BC357F401CA9A36165B0C12CEF4E186";
                          cr_json_text := None; cr_uri := Some "ipfs://meta" |}
                       genesis) = Return resp)
    by (eexists; vm_compute; reflexivity).
  destruct E as [resp E]. exists resp. split; [exact E|].
  destruct (proj1 (answered_record_id Registry registry_ledger "" "0" RID1 _
                     upd_inline genesis) resp E) as (rid & H1 & H2 & _).
  exists rid. split; assumption.
Defined.

(** ** An update for a record that is not there *)

(** [update] looks the record up before it looks at the body: for an id
    that the contract does not hold the answer is 404 whatever the body,
    also an empty one, and nothing is written or sent; on a node that does
    not answer the handler stops at the lookup in the same way. *)
Theorem update_of_missing_record :
  forall (L : Type) (HL : Ledger L) (base r : string) (rid : bytes)
         (ureq : UpdateReq) (w : World L),
    _b32 r = Return rid ->
    (reachable (chain w) = true ->
     r_owner (contract_get (chain w) rid) = ZERO_ADDRESS ->
     update base r ureq w
     = failed w [EvCall rid] (HTTPException 404 "not found"))
    /\ (reachable (chain w) = false ->
        update base r ureq w = failed w [EvCall rid] RpcError)
    /\ (r_owner (contract_get (chain w) rid) = ZERO_ADDRESS
        \/ reachable (chain w) = false ->
        writes (trace (update base r ureq w)) = []
        /\ transactions (trace (update base r ureq w)) = []
        /\ world (update base r ureq w) = w
        /\ http_status (result (update base r ureq w)) <> 400%Z).
Proof.
  intros L HL base r rid ureq w Hr.
  assert (H404 : reachable (chain w) = true ->
                 r_owner (contract_get (chain w) rid) = ZERO_ADDRESS ->
                 update base r ureq w = failed w [EvCall rid] NOT_FOUND).
  { intros Hn Ho. rewrite (update_reachable base r ureq w rid Hr Hn). cbv zeta.
    rewrite Ho. reflexivity. }
  split; [exact H404|]. split; [apply update_unreachable; assumption|].
  intros Hcase. destruct (reachable (chain w)) eqn:Hn.
  - destruct Hcase as [Ho|?]; [|discriminate].
    rewrite (H404 eq_refl Ho). repeat split. discriminate.
  - rewrite (update_unreachable base r ureq w rid Hr Hn). repeat split.
    discriminate.
Qed.

Lemma update_of_missing_record_witness :
  update "" RID1 {| ur_json_text := None; ur_uri := None |} genesis
  = failed genesis [EvCall RID1_bytes] (HTTPException 404 "not found").
Proof.
  apply (proj1 (update_of_missing_record Registry registry_ledger "" RID1
                  RID1_bytes {| ur_json_text := None; ur_uri := None |}
                  genesis ltac:(vm_compute; reflexivity)));
    vm_compute; reflexivity.
Defined.

(** ** Requests that carry only a uri *)

(** A [create] or [update] with a [uri] and no [json_text] touches no
    directory and no file: its only effect after the lookup is the
    transaction, which carries the uri unchanged, as does the answer. *)
Theorem uri_only_requests :
  forall (L : Type) (HL : Ledger L) (base now r : string) (rid urid : bytes)
         (req : CreateReq) (ureq : UpdateReq) (w : World L),
    (truthy (cr_json_text req) = false -> truthy (cr_uri req) = true ->
     create_rid now req = Return rid ->
     (exists st,
        trace (create base now req w)
        = [EvTransact (TxCreate rid (repeat x00 32) (the (cr_uri req))) st])
     /\ dirs (world (create base now req w)) = dirs w
     /\ objects (world (create base now req w)) = objects w
     /\ (forall resp, result (create base now req w) = Return resp ->
                      cs_uri resp = the (cr_uri req)))
    /\ (truthy (ur_json_text ureq) = false -> truthy (ur_uri ureq) = true ->
        _b32 r = Return urid -> reachable (chain w) = true ->
        r_owner (contract_get (chain w) urid) <> ZERO_ADDRESS ->
        (exists st,
           trace (update base r ureq w)
           = [EvCall urid;
              EvTransact (TxUpdate urid (repeat x00 32) (the (ur_uri ureq))) st])
        /\ dirs (world (update base r ureq w)) = dirs w
        /\ objects (world (update base r ureq w)) = objects w
        /\ (forall resp, result (update base r ureq w) = Return resp ->
                         us_newUri resp = the (ur_uri ureq))).
Proof.
  intros L HL base now r rid urid req ureq w. split.
  - intros Hj Hu Hrid.
    rewrite (create_external base now req w rid Hrid Hj Hu).
    unfold sent, ZERO_HASH.
    destruct (send_tx (chain w) _) as [l' h st|l']; cbn.
    + repeat split; eauto. intros resp [= <-]. reflexivity.
    + repeat split; eauto. discriminate.
  - intros Hj Hu Hr Hn Ho.
    rewrite (update_reachable base r ureq w urid Hr Hn). cbv zeta.
    rewrite Hj, Hu.
    destruct (String.eqb_spec (r_owner (contract_get (chain w) urid)) ZERO_ADDRESS);
      [contradiction|].
    unfold sent, ZERO_HASH.
    destruct (send_tx (chain w) _) as [l' h st|l']; cbn.
    + repeat split; eauto. intros resp [= <-]. reflexivity.
    + repeat split; eauto. discriminate.
Qed.

Lemma uri_only_requests_witness :
  (exists st,
     trace (create "" "0" req_external genesis)
     = [EvTransact (TxCreate (Keccak.keccak256 (encode "0")) (repeat x00 32)
                      (the (cr_uri req_external))) st])
  /\ objects (world (update "" RID1 upd_external world1)) = objects world1.
Proof.
  split.
  - apply (proj1 (uri_only_requests Registry registry_ledger "" "0" RID1
                    (Keccak.keccak256 (encode "0")) RID1_bytes req_external
                    upd_external genesis)); reflexivity.
  - apply (proj2 (uri_only_requests Registry registry_ledger "" "0" RID1
                    (Keccak.keccak256 (encode "0")) RID1_bytes req_external
                    upd_external world1)); vm_compute; try reflexivity.
    discriminate.
Defined.

(** ** Status codes *)

(** The answers of the four handlers: [create] never answers 404 and
    [list_metadata] never refuses; every other failure is a 500. *)
Theorem status_codes :
  forall (L : Type) (HL : Ledger L) (base now r : string) (req : CreateReq)
         (ureq : UpdateReq) (w : World L),
    (http_status (result (create base now req w)) ∈ [200; 400; 500]%Z)
    /\ (http_status (result (update base r ureq w)) ∈ [200; 400; 404; 500]%Z)
    /\ (http_status (result (get_one r w)) ∈ [200; 400; 404; 500]%Z)
    /\ (http_status (result (list_metadata w)) ∈ [200; 500]%Z)
    /\ (http_status (result (list_metadata w)) = 200%Z
        <-> reachable (chain w) = true).
Proof.
  intros L HL base now r req ureq w.
  assert (Hsent : forall A (w0 : World L) tx (resp : bytes -> A) pre (l : list Z),
            (200 ∈ l -> 500 ∈ l ->
             http_status (result (sent w0 tx resp pre)) ∈ l)%Z).
  { intros A w0 tx resp pre l H2 H5.
    destruct (sent_status w0 tx resp pre) as [-> | ->]; assumption. }
  assert (Hstored : forall A (w0 : World L) d f t tx (resp : bytes -> A) pre
                           (l : list Z),
            (200 ∈ l -> 500 ∈ l ->
             http_status (result (stored w0 d f t tx resp pre)) ∈ l)%Z).
  { intros A w0 d f t tx resp pre l H2 H5.
    destruct (stored_status w0 d f t tx resp pre) as [-> | ->]; assumption. }
  split; [|split; [|split; [|split]]].
  - destruct (create_rid now req) as [rid|e] eqn:Hrid.
    + destruct (truthy (cr_json_text req)) eqn:Hj;
        [|destruct (truthy (cr_uri req)) eqn:Hu].
      * rewrite (create_inline base now req w rid Hrid Hj).
        apply Hstored; set_solver.
      * rewrite (create_external base now req w rid Hrid Hj Hu).
        apply Hsent; set_solver.
      * rewrite (create_neither base now req w rid Hrid Hj Hu). cbn. set_solver.
    + rewrite (create_bad_id base now req w e Hrid). cbn. set_solver.
  - destruct (_b32 r) as [rid|e] eqn:Hr.
    + destruct (reachable (chain w)) eqn:Hn.
      * rewrite (update_reachable base r ureq w rid Hr Hn). cbv zeta.
        destruct (String.eqb _ ZERO_ADDRESS); [cbn; set_solver|].
        destruct (truthy (ur_json_text ureq)); [|destruct (truthy (ur_uri ureq))].
        -- apply Hstored; set_solver.
        -- apply Hsent; set_solver.
        -- cbn. set_solver.
      * rewrite (update_unreachable base r ureq w rid Hr Hn). cbn. set_solver.
    + rewrite (update_bad_id base r ureq w e Hr). cbn. set_solver.
  - destruct (_b32 r) as [rid|e] eqn:Hr.
    + destruct (reachable (chain w)) eqn:Hn.
      * rewrite (get_one_reachable r w rid Hr Hn).
        destruct (String.eqb _ ZERO_ADDRESS); cbn; set_solver.
      * rewrite (get_one_unreachable r w rid Hr Hn). cbn. set_solver.
    + rewrite (get_one_bad_id r w e Hr). cbn. set_solver.
  - unfold list_metadata. cbn. destruct (reachable (chain w)); cbn; set_solver.
  - unfold list_metadata. cbn. destruct (reachable (chain w)); cbn;
      split; congruence.
Qed.

(** ** What [create] does not do *)

(** [create] never consults the ledger before it writes and sends: its
    trace holds no contract call and no log query, so an id that exists
    already is only found out by the transaction. *)
Theorem create_does_not_look_up :
  forall (L : Type) (HL : Ledger L) (base now : string) (req : CreateReq)
         (w : World L),
    Forall (fun e => is_ledger_read e = false) (trace (create base now req w))
    /\ length (trace (create base now req w)) <= 3.
Proof.
  intros L HL base now req w.
  destruct (create_rid now req) as [rid|e] eqn:Hrid.
  - destruct (truthy (cr_json_text req)) eqn:Hj;
      [|destruct (truthy (cr_uri req)) eqn:Hu].
    + rewrite (create_inline base now req w rid Hrid Hj). unfold stored, sent.
      destruct (fs_fault w (OpMkdir _)); [cbn; split; [repeat constructor|lia]|].
      destruct (fs_fault w (OpWrite _)); [cbn; split; [repeat constructor|lia]|].
      destruct (send_tx _ _); cbn; (split; [repeat constructor|lia]).
    + rewrite (create_external base now req w rid Hrid Hj Hu). unfold sent.
      destruct (send_tx _ _); cbn; (split; [repeat constructor|lia]).
    + rewrite (create_neither base now req w rid Hrid Hj Hu). cbn.
      split; [constructor|lia].
  - rewrite (create_bad_id base now req w e Hrid). cbn. split; [constructor|lia].
Qed.

(** ** A transaction that fails after the file was written *)

(** Nothing is undone: when the node raises after an inline [create] or
    [update] has written its file, the answer is a 500 and the file stays
    in the object store. *)
Theorem no_rollback_of_the_file :
  forall (L : Type) (HL : Ledger L) (base now r : string) (rid urid : bytes)
         (req : CreateReq) (ureq : UpdateReq) (w : World L) (lc lu : L),
    (create_rid now req = Return rid ->
     truthy (cr_json_text req) = true ->
     fs_fault w (OpMkdir (hex rid)) = false ->
     fs_fault w (OpWrite (hex rid, "v1.json")) = false ->
     send_tx (chain w)
       (TxCreate rid (SHA256.digest (encode (the (cr_json_text req))))
          (object_uri base (hex rid) "v1.json")) = TxRaised lc ->
     result (create base now req w) = Raise RpcError
     /\ http_status (result (create base now req w)) = 500%Z
     /\ objects (world (create base now req w)) !! (hex rid, "v1.json")
        = Some (the (cr_json_text req))
     /\ hex rid ∈ dirs (world (create base now req w)))
    /\ (_b32 r = Return urid -> reachable (chain w) = true ->
        r_owner (contract_get (chain w) urid) <> ZERO_ADDRESS ->
        truthy (ur_json_text ureq) = true ->
        let file := version_file (r_version (contract_get (chain w) urid) + 1) in
        fs_fault w (OpMkdir (strip_0x r)) = false ->
        fs_fault w (OpWrite (strip_0x r, file)) = false ->
        send_tx (chain w)
          (TxUpdate urid (SHA256.digest (encode (the (ur_json_text ureq))))
             (object_uri base (strip_0x r) file)) = TxRaised lu ->
        result (update base r ureq w) = Raise RpcError
        /\ http_status (result (update base r ureq w)) = 500%Z
        /\ objects (world (update base r ureq w)) !! (strip_0x r, file)
           = Some (the (ur_json_text ureq))).
Proof.
  intros L HL base now r rid urid req ureq w lc lu. split.
  - intros Hrid Hj Hm Hw Htx.
    rewrite (create_inline base now req w rid Hrid Hj).
    unfold stored. rewrite Hm, Hw. unfold sent. cbn [chain with_object with_dir].
    rewrite Htx. cbn. repeat split; [apply lookup_insert_eq | set_solver].
  - intros Hr Hn Ho Hj file Hm Hw Htx.
    rewrite (update_reachable base r ureq w urid Hr Hn). cbv zeta. rewrite Hj.
    destruct (String.eqb_spec (r_owner (contract_get (chain w) urid)) ZERO_ADDRESS);
      [contradiction|].
    fold file. unfold stored. rewrite Hm, Hw. unfold sent.
    cbn [chain with_object with_dir].
    rewrite Htx. cbn. repeat split. apply lookup_insert_eq.
Qed.

Lemma no_rollback_of_the_file_witness :
  result (create "" "0" req_inline offline) = Raise RpcError
  /\ http_status (result (create "" "0" req_inline offline)) = 500%Z
  /\ objects (world (create "" "0" req_inline offline))
       !! (hex RID1_bytes, "v1.json")
     = Some (the (cr_json_text req_inline))
  /\ hex RID1_bytes ∈ dirs (world (create "" "0" req_inline offline)).
Proof.
  apply (proj1 (no_rollback_of_the_file Registry registry_ledger "" "0" RID1
                  RID1_bytes RID1_bytes req_inline upd_inline offline
                  (chain offline) (chain offline)));
    vm_compute; reflexivity.
Defined.

(** ** What a request leaves alone *)

Section Frames.
Context {L : Type} `{Ledger L} {A : Type}.
Implicit Types (w : World L) (tx : Tx) (resp : bytes -> A) (pre : list Effect).

Lemma failed_framed w pre e : store_framed w (@failed L A w pre e).
Proof. repeat split; auto. Qed.

Lemma sent_framed w tx resp pre : store_framed w (sent w tx resp pre).
Proof.
  unfold sent. destruct (send_tx (chain w) tx); repeat split; cbn; auto.
Qed.

Lemma stored_framed w dir file text tx resp pre :
  Forall is_call pre ->
  store_framed w (stored w dir file text tx resp pre).
Proof.
  intros Hp. pose proof (calls_no_transactions pre Hp) as [_ Hw].
  unfold stored.
  destruct (fs_fault w (OpMkdir dir)); [repeat split; auto|].
  destruct (fs_fault w (OpWrite (dir, file))).
  { unfold store_framed. cbn [world trace].
    rewrite torn_fs_fault, torn_dirs. cbn [with_dir dirs fs_fault].
    split; [reflexivity|]. split; [set_solver|]. split.
    - intros d [->%elem_of_singleton|Hd]%elem_of_union; [right|left; assumption].
      apply elem_of_app. right. apply list_elem_of_here.
    - intros p Hp'. rewrite torn_objects_ne; [reflexivity|].
      intros ->. apply Hp'. rewrite writes_app, Hw. cbn.
      apply list_elem_of_here. }
  unfold sent. cbn [chain with_object with_dir].
  assert (Hin : forall p st,
            p ∉ writes ((pre ++ [EvMkdir dir; EvWrite (dir, file) text])
                          ++ [EvTransact tx st]) ->
            p <> (dir, file)).
  { intros p st Hn ->. apply Hn. rewrite !writes_app, Hw. cbn.
    apply list_elem_of_here. }
  destruct (send_tx (chain w) tx) as [l' h st|l'];
    repeat split; cbn [world trace with_chain with_object with_dir dirs objects
                       fs_fault]; auto.
  - set_solver.
  - intros d [->%elem_of_singleton|Hd]%elem_of_union; [right|left; assumption].
    apply elem_of_app. left. apply elem_of_app. right. apply list_elem_of_here.
  - intros p Hp'. apply lookup_insert_ne. intros <-.
    exact (Hin _ _ Hp' eq_refl).
  - set_solver.
  - intros d [->%elem_of_singleton|Hd]%elem_of_union; [right|left; assumption].
    apply elem_of_app. left. apply elem_of_app. right. apply list_elem_of_here.
  - intros p Hp'. apply lookup_insert_ne. intros <-.
    exact (Hin _ _ Hp' eq_refl).
Qed.

(** A receipt, whatever its status, is answered with 200; the handlers do
    not look at [rc.status]. *)
Lemma sent_receipts w tx resp pre :
  receipts pre = [] ->
  (forall st, Some st ∈ receipts (trace (sent w tx resp pre)) ->
              http_status (result (sent w tx resp pre)) = 200%Z)
  /\ (None ∈ receipts (trace (sent w tx resp pre)) ->
      http_status (result (sent w tx resp pre)) = 500%Z).
Proof.
  intros Hp. unfold sent.
  assert (Happ : forall t e, receipts (pre ++ [EvTransact t e]) = [e]).
  { intros t e. clear -Hp. induction pre as [|x pre' IH]; [reflexivity|].
    destruct x; cbn in *; try (apply IH; assumption). discriminate. }
  destruct (send_tx (chain w) tx) as [l' h st|l']; cbn [trace result];
    rewrite Happ; split; try reflexivity.
  - intros [=]%list_elem_of_singleton.
  - intros st [=]%list_elem_of_singleton.
Qed.

Lemma stored_receipts w dir file text tx resp pre :
  receipts pre = [] ->
  (forall st, Some st ∈ receipts (trace (stored w dir file text tx resp pre)) ->
              http_status (result (stored w dir file text tx resp pre)) = 200%Z)
  /\ (None ∈ receipts (trace (stored w dir file text tx resp pre)) ->
      http_status (result (stored w dir file text tx resp pre)) = 500%Z).
Proof.
  intros Hp. unfold stored.
  assert (Happ : forall t, receipts t = [] -> receipts (pre ++ t) = []).
  { intros t Ht. clear -Hp Ht. induction pre as [|x pre' IH]; [exact Ht|].
    destruct x; cbn in *; try (apply IH; assumption). discriminate. }
  destruct (fs_fault w (OpMkdir dir)); cbn [trace result].
  { rewrite Happ by reflexivity. split; [intros st Hin|intros Hin];
      inversion Hin. }
  destruct (fs_fault w (OpWrite (dir, file))); cbn [trace result].
  { rewrite Happ by reflexivity. split; [intros st Hin|intros Hin];
      inversion Hin. }
  apply sent_receipts, Happ. reflexivity.
Qed.

End Frames.

(** Whatever [create] and [update] answer, they keep the rest of the
    object store: no directory is removed, a new directory is one the
    handler made, and every file other than the one written holds what it
    held before. *)
Theorem requests_keep_other_files :
  forall (L : Type) (HL : Ledger L) (base now r : string) (req : CreateReq)
         (ureq : UpdateReq) (w : World L),
    store_framed w (create base now req w)
    /\ store_framed w (update base r ureq w).
Proof.
  intros L HL base now r req ureq w. split.
  - destruct (create_rid now req) as [rid|e] eqn:Hrid.
    + destruct (truthy (cr_json_text req)) eqn:Hj;
        [|destruct (truthy (cr_uri req)) eqn:Hu].
      * rewrite (create_inline base now req w rid Hrid Hj).
        apply stored_framed. constructor.
      * rewrite (create_external base now req w rid Hrid Hj Hu).
        apply sent_framed.
      * rewrite (create_neither base now req w rid Hrid Hj Hu).
        apply failed_framed.
    + rewrite (create_bad_id base now req w e Hrid). apply failed_framed.
  - destruct (_b32 r) as [rid|e] eqn:Hr.
    + destruct (reachable (chain w)) eqn:Hn.
      * rewrite (update_reachable base r ureq w rid Hr Hn). cbv zeta.
        destruct (String.eqb _ ZERO_ADDRESS); [apply failed_framed|].
        destruct (truthy (ur_json_text ureq)); [|destruct (truthy (ur_uri ureq))].
        -- apply stored_framed, call_is_call.
        -- apply sent_framed.
        -- apply failed_framed.
      * rewrite (update_unreachable base r ureq w rid Hr Hn). apply failed_framed.
    + rewrite (update_bad_id base r ureq w e Hr). apply failed_framed.
Qed.

(** ** The status of the receipt *)

(** [create] and [update] answer 200 as soon as a receipt comes back,
    with status 1 or with status 0: a transaction that the contract
    reverted is reported to the caller like one that was applied.  Only a
    call to the node that raises gives a 500. *)
Theorem receipt_status_is_ignored :
  forall (L : Type) (HL : Ledger L) (base now r : string) (req : CreateReq)
         (ureq : UpdateReq) (w : World L),
    (forall st, Some st ∈ receipts (trace (create base now req w)) ->
                http_status (result (create base now req w)) = 200%Z)
    /\ (None ∈ receipts (trace (create base now req w)) ->
        http_status (result (create base now req w)) = 500%Z)
    /\ (forall st, Some st ∈ receipts (trace (update base r ureq w)) ->
                   http_status (result (update base r ureq w)) = 200%Z)
    /\ (None ∈ receipts (trace (update base r ureq w)) ->
        http_status (result (update base r ureq w)) = 500%Z).
Proof.
  intros L HL base now r req ureq w.
  assert (Hc : (forall st, Some st ∈ receipts (trace (create base now req w)) ->
                  http_status (result (create base now req w)) = 200%Z)
               /\ (None ∈ receipts (trace (create base now req w)) ->
                   http_status (result (create base now req w)) = 500%Z)).
  { destruct (create_rid now req) as [rid|e] eqn:Hrid.
    - destruct (truthy (cr_json_text req)) eqn:Hj;
        [|destruct (truthy (cr_uri req)) eqn:Hu].
      + rewrite (create_inline base now req w rid Hrid Hj).
        apply stored_receipts. reflexivity.
      + rewrite (create_external base now req w rid Hrid Hj Hu).
        apply sent_receipts. reflexivity.
      + rewrite (create_neither base now req w rid Hrid Hj Hu).
        split; [intros st Hin|intros Hin]; inversion Hin.
    - rewrite (create_bad_id base now req w e Hrid).
      split; [intros st Hin|intros Hin]; inversion Hin. }
  assert (Hu : (forall st, Some st ∈ receipts (trace (update base r ureq w)) ->
                  http_status (result (update base r ureq w)) = 200%Z)
               /\ (None ∈ receipts (trace (update base r ureq w)) ->
                   http_status (result (update base r ureq w)) = 500%Z)).
  { destruct (_b32 r) as [rid|e] eqn:Hr.
    - destruct (reachable (chain w)) eqn:Hn.
      + rewrite (update_reachable base r ureq w rid Hr Hn). cbv zeta.
        destruct (String.eqb _ ZERO_ADDRESS);
          [split; [intros st Hin|intros Hin]; inversion Hin|].
        destruct (truthy (ur_json_text ureq)); [|destruct (truthy (ur_uri ureq))].
        * apply stored_receipts. reflexivity.
        * apply sent_receipts. reflexivity.
        * split; [intros st Hin|intros Hin]; inversion Hin.
      + rewrite (update_unreachable base r ureq w rid Hr Hn).
        split; [intros st Hin|intros Hin]; inversion Hin.
    - rewrite (update_bad_id base r ureq w e Hr).
      split; [intros st Hin|intros Hin]; inversion Hin. }
  destruct Hc, Hu. repeat split; assumption.
Qed.

(** A second create of an existing id on the reference ledger: the
    contract refuses it, the caller is told 200. *)
Lemma receipt_status_is_ignored_witness :
  receipts (trace (create "" "1" req_again world1)) = [Some false]
  /\ http_status (result (create "" "1" req_again world1)) = 200%Z.
Proof.
  assert (E : receipts (trace (create "" "1" req_again world1)) = [Some false])
    by (vm_compute; reflexivity).
  split; [exact E|].
  apply (proj1 (receipt_status_is_ignored Registry registry_ledger "" "1" RID1
                  req_again upd_inline world1) false).
  rewrite E. apply list_elem_of_here.
Defined.

(** ** More on the listing *)

Lemma created_loop_keys (created : list CreatedArgs) :
  NoDup (map c_recordId created) ->
  map fst (fold_left add_created created [])
  = map (fun a => hex (c_recordId a)) created.
Proof.
  induction created as [|a l IH] using rev_ind; [reflexivity|].
  rewrite map_app. cbn [map]. intros [Hl [Hdis _]]%NoDup_app.
  rewrite fold_left_snoc, add_created_eq, dict_set_keys, map_app, IH by assumption.
  destruct (dict_get (hex (c_recordId a)) (fold_left add_created l [])) eqn:E;
    [|reflexivity].
  exfalso.
  assert (Hin : hex (c_recordId a) ∈ map fst (fold_left add_created l []))
    by (apply dict_get_key; rewrite E; eexists; reflexivity).
  rewrite IH in Hin by assumption.
  apply list_elem_of_fmap in Hin as (c & Heq & Hc). apply hex_inj in Heq.
  apply (Hdis (c_recordId a)); [|apply list_elem_of_here].
  rewrite Heq. apply list_elem_of_fmap. exists c. auto.
Qed.

Lemma updated_loop_keys (updated : list UpdatedArgs) (d0 : Dict) :
  (forall u, u ∈ updated -> hex (u_recordId u) ∈ map fst d0) ->
  map fst (fold_left add_updated updated d0) = map fst d0.
Proof.
  induction updated as [|a l IH] using rev_ind; [reflexivity|].
  intros Hall. rewrite fold_left_snoc, add_updated_eq, dict_set_keys.
  assert (IH' : map fst (fold_left add_updated l d0) = map fst d0).
  { apply IH. intros u Hu. apply Hall, elem_of_app. auto. }
  destruct (dict_get (hex (u_recordId a)) (fold_left add_updated l d0)) eqn:E;
    [exact IH'|].
  exfalso.
  assert (Hin : hex (u_recordId a) ∈ map fst (fold_left add_updated l d0)).
  { rewrite IH'. apply Hall, elem_of_app. right. apply list_elem_of_here. }
  apply dict_get_key in Hin. rewrite E in Hin. destruct Hin; discriminate.
Qed.

(** When no id is created twice and every update is for an id that was
    created, as on the ledger, the listing has exactly one entry per
    creation event, however many updates there are. *)
Theorem listing_counts_the_creations :
  forall (created : list CreatedArgs) (updated : list UpdatedArgs),
    NoDup (map c_recordId created) ->
    (forall u, u ∈ updated -> u_recordId u ∈ map c_recordId created) ->
    length (project created updated) = length created
    /\ Permutation (map i_recordId (project created updated))
                   (map (fun a => Some (hex (c_recordId a))) created).
Proof.
  intros created updated Hnd Hsub.
  destruct (created_loop_inv created) as (Hn0 & Hk0 & Hh0).
  destruct (updated_loop_inv updated _ Hn0 Hk0 Hh0) as (Hn & Hk & Hh).
  assert (Hkeys : map fst (fold_left add_updated updated
                             (fold_left add_created created []))
                  = map (fun a => hex (c_recordId a)) created).
  { rewrite updated_loop_keys; [apply created_loop_keys, Hnd|].
    intros u Hu. rewrite created_loop_keys by assumption.
    destruct (proj1 (list_elem_of_fmap _ _ _) (Hsub u Hu)) as (c & Heq & Hc).
    apply list_elem_of_fmap. exists c. split; [rewrite Heq; reflexivity | exact Hc]. }
  assert (Hids : Permutation (map i_recordId (project created updated))
                   (map (fun a => Some (hex (c_recordId a))) created)).
  { unfold project. rewrite (sorted_desc_perm (dict_values _)).
    unfold dict_values.
    set (d := fold_left add_updated updated (fold_left add_created created [])) in *.
    assert (E : map i_recordId (map snd d) = map Some (map fst d)).
    { clear -Hk. induction Hk as [|[k v] d Hkv _ IH]; cbn; [reflexivity|].
      cbn in Hkv. rewrite Hkv, IH. reflexivity. }
    rewrite E, Hkeys, map_map. reflexivity. }
  split; [|exact Hids].
  apply Permutation_length in Hids. rewrite !length_map in Hids. exact Hids.
Qed.

Lemma listing_counts_the_creations_witness :
  length (project (created_entries (chain sample_logs))
                  (updated_entries (chain sample_logs))) = 2.
Proof.
  destruct (listing_counts_the_creations
              (created_entries (chain sample_logs))
              (updated_entries (chain sample_logs))) as [Hlen _];
    [| |exact Hlen].
  - cbn. apply NoDup_cons_2; [|apply NoDup_singleton].
    intros Hin. apply list_elem_of_singleton in Hin. discriminate.
  - intros u Hu. cbn in Hu.
    apply elem_of_cons in Hu as [->|Hu];
      [|apply elem_of_cons in Hu as [->|Hu]; [|inversion Hu]];
      cbn; apply list_elem_of_further, list_elem_of_here.
Defined.

(** Owner and creation time of an entry come from the creation event of
    its id and from nothing else: no update changes them, and an id that
    has update events only is listed without them. *)
Theorem listing_owner_and_creation_time :
  forall (created : list CreatedArgs) (updated : list UpdatedArgs)
         (rid : bytes) (it : Item),
    it ∈ project created updated ->
    i_recordId it = Some (hex rid) ->
    (rid ∉ map c_recordId created ->
     i_owner it = None /\ i_createdAt it = None
     /\ rid ∈ map u_recordId updated)
    /\ (forall c, last (created_for rid created) = Some c ->
                  i_owner it = Some (c_owner c)
                  /\ i_createdAt it = Some (c_timestamp c))
    /\ (forall u, last (updated_for rid updated) = Some u ->
                  i_updatedBy it = Some (u_updatedBy u)
                  /\ i_updatedAt it = Some (u_timestamp u)
                  /\ i_version it = Some (u_version u)
                  /\ i_uri it = Some (u_uri u)
                  /\ i_contentHash it = Some (hex (u_contentHash u))).
Proof.
  intros created updated rid it Hin Hid.
  destruct (project_spec created updated) as (_ & _ & Hexp & _).
  destruct (Hexp it Hin) as (rid' & Hid' & He).
  rewrite Hid in Hid'. injection Hid' as Heq. apply hex_inj in Heq as <-.
  unfold expected_item in He. split; [|split].
  - intros Hnot.
    assert (Hc : last (created_for rid created) = None).
    { destruct (last (created_for rid created)) eqn:E; [|reflexivity].
      exfalso. apply Hnot, created_for_nonempty. rewrite E. eexists; reflexivity. }
    rewrite Hc in He. cbn in He.
    destruct (last (updated_for rid updated)) as [u|] eqn:Eu; [|discriminate].
    injection He as <-. cbn. repeat split.
    apply updated_for_nonempty. rewrite Eu. eexists; reflexivity.
  - intros c Hc. rewrite Hc in He. cbn in He.
    destruct (last (updated_for rid updated)) as [u|]; injection He as <-;
      split; reflexivity.
  - intros u Hu. rewrite Hu in He. injection He as <-. repeat split.
Qed.

Lemma listing_owner_and_creation_time_witness :
  let u := {| u_recordId := repeat x02 32; u_contentHash := repeat x00 32;
              u_uri := "ipfs://b2"; u_version := 2; u_updatedBy := ACCOUNT;
              u_timestamp := 30 |} in
  i_owner (item_update empty_item u) = None
  /\ i_createdAt (item_update empty_item u) = None
  /\ repeat x02 32 ∈ map u_recordId [u].
Proof.
  intros u.
  apply (proj1 (listing_owner_and_creation_time [] [u] (repeat x02 32)
                  (item_update empty_item u)
                  ltac:(vm_compute; apply list_elem_of_here) eq_refl)).
  intros Hx. inversion Hx.
Defined.

(** ** Where the payload goes *)



(** ** A write that fails *)

(** When [write_text] raises, the request ends with that error and no
    transaction is handed to the node.  The directory that was made
    stays, and the file is as the disk left it: untouched when it could
    not be opened, and otherwise cut down to the part of the new text
    that was written, whatever an earlier request had stored there. *)
Theorem failed_write_leaves_a_torn_file :
  forall (L : Type) (HL : Ledger L) (base now r : string) (rid urid : bytes)
         (req : CreateReq) (ureq : UpdateReq) (w : World L),
    (create_rid now req = Return rid ->
     truthy (cr_json_text req) = true ->
     fs_fault w (OpMkdir (hex rid)) = false ->
     fs_fault w (OpWrite (hex rid, "v1.json")) = true ->
     let text := the (cr_json_text req) in
     let p := (hex rid, "v1.json") in
     let o := create base now req w in
     result o = Raise (OSError (path_str p))
     /\ trace o = [EvMkdir (hex rid); EvWrite p text]
     /\ chain (world o) = chain w
     /\ hex rid ∈ dirs (world o)
     /\ objects (world o) !! p
        = match fs_torn w p with
          | Some n => Some (substring 0 n text)
          | None => objects w !! p
          end)
    /\ (_b32 r = Return urid -> reachable (chain w) = true ->
        r_owner (contract_get (chain w) urid) <> ZERO_ADDRESS ->
        truthy (ur_json_text ureq) = true ->
        let file := version_file (r_version (contract_get (chain w) urid) + 1) in
        fs_fault w (OpMkdir (strip_0x r)) = false ->
        fs_fault w (OpWrite (strip_0x r, file)) = true ->
        let text := the (ur_json_text ureq) in
        let p := (strip_0x r, file) in
        let o := update base r ureq w in
        result o = Raise (OSError (path_str p))
        /\ trace o = [EvCall urid; EvMkdir (strip_0x r); EvWrite p text]
        /\ chain (world o) = chain w
        /\ strip_0x r ∈ dirs (world o)
        /\ objects (world o) !! p
           = match fs_torn w p with
             | Some n => Some (substring 0 n text)
             | None => objects w !! p
             end).
Proof.
  assert (Htorn : forall (L : Type) (w : World L) dir file text,
            chain (torn (dir, file) text (with_dir dir w)) = chain w
            /\ dir ∈ dirs (torn (dir, file) text (with_dir dir w))
            /\ objects (torn (dir, file) text (with_dir dir w)) !! (dir, file)
               = match fs_torn w (dir, file) with
                 | Some n => Some (substring 0 n text)
                 | None => objects w !! (dir, file)
                 end).
  { intros L w dir file text. rewrite torn_chain, torn_dirs.
    split; [reflexivity|]. split; [cbn; set_solver|].
    unfold torn. cbn [fs_torn with_dir].
    destruct (fs_torn w (dir, file)); [apply lookup_insert_eq|reflexivity]. }
  intros L HL base now r rid urid req ureq w. split.
  - intros Hrid Hj Hm Hw text p o. subst o.
    rewrite (create_inline base now req w rid Hrid Hj).
    unfold stored. rewrite Hm, Hw. cbn [trace world result app].
    split; [reflexivity|]. split; [reflexivity|]. apply Htorn.
  - intros Hr Hn Ho Hj file Hm Hw text p o. subst o.
    rewrite (update_reachable base r ureq w urid Hr Hn). cbv zeta. rewrite Hj.
    destruct (String.eqb_spec (r_owner (contract_get (chain w) urid))
                ZERO_ADDRESS) as [Hz|_]; [contradiction|].
    fold file. unfold stored. rewrite Hm, Hw. cbn [trace world result app].
    split; [reflexivity|]. split; [reflexivity|]. apply Htorn.
Qed.

(** On a disk that has filled up, a second create of an existing id
    empties the file of version 1 and the request fails. *)
Lemma failed_write_leaves_a_torn_file_witness :
  objects full_disk !! (hex RID1_bytes, "v1.json") = Some "[1]"
  /\ result (create "" "1" req_again full_disk)
     = Raise (OSError (path_str (hex RID1_bytes, "v1.json")))
  /\ objects (world (create "" "1" req_again full_disk))
       !! (hex RID1_bytes, "v1.json") = Some "".
Proof.
  split; [vm_compute; reflexivity|].
  destruct (failed_write_leaves_a_torn_file Registry registry_ledger "" "1"
              RID1 RID1_bytes RID1_bytes req_again upd_inline full_disk)
    as [Hc _].
  destruct Hc as (Hres & _ & _ & _ & Hobj); [vm_compute; reflexivity..|].
  split; [exact Hres | exact Hobj].
Defined.

(** ** Start-up *)

Section StartupFacts.
Context {J : Type} `{Platform J}.
Implicit Types (w : Boot J).

Lemma bbind_eq {A B : Type} (m : BM J A) (k : A -> BM J B) w :
  (x ← m; k x) w = bbind m k w.
Proof. reflexivity. Qed.

Lemma pure_bind {A B : Type} (m : BM J A) (k : A -> BM J B) w r :
  m w = {| b_trace := []; b_world := w; b_result := r |} ->
  (x ← m; k x) w
  = match r with
    | Done a => k a w
    | Failed e => {| b_trace := []; b_world := w; b_result := Failed e |}
    end.
Proof.
  intros Hm. rewrite bbind_eq. unfold bbind. rewrite Hm.
  cbn [b_result b_world b_trace app].
  destruct r; [destruct (k a w)|]; reflexivity.
Qed.

Lemma install_solc_once_run w :
  _install_solc_once w
  = if bool_decide (SOLC_VER ∈ installed w) then
      {| b_trace := []; b_world := with_selected SOLC_VER w;
         b_result := Done tt |}
    else if download w SOLC_VER then
      {| b_trace := [BvInstall SOLC_VER];
         b_world := with_selected SOLC_VER (with_installed SOLC_VER w);
         b_result := Done tt |}
    else
      {| b_trace := [BvInstall SOLC_VER]; b_world := w;
         b_result := Failed (SolcInstallError SOLC_VER) |}.
Proof.
  unfold _install_solc_once, btry.
  assert (Hs : forall w' : Boot J,
            set_solc_version SOLC_VER w'
            = if bool_decide (SOLC_VER ∈ installed w') then
                {| b_trace := []; b_world := with_selected SOLC_VER w';
                   b_result := Done tt |}
              else
                {| b_trace := []; b_world := w';
                   b_result := Failed (SolcNotInstalled SOLC_VER) |})
    by reflexivity.
  rewrite (Hs w).
  destruct (bool_decide (SOLC_VER ∈ installed w)) eqn:E; [reflexivity|].
  cbn [b_result b_world b_trace app].
  change ((install_solc SOLC_VER;; set_solc_version SOLC_VER) w)
    with (bbind (install_solc SOLC_VER)
            (fun _ => set_solc_version SOLC_VER) w).
  unfold bbind, install_solc.
  destruct (download w SOLC_VER); [|reflexivity].
  cbn [b_result b_world b_trace]. rewrite Hs.
  rewrite bool_decide_eq_true_2 by (cbn; apply list_elem_of_here).
  reflexivity.
Qed.

Lemma compile_after_set w :
  (out ← run_compile; '(_, artifact) ← popitem out;
   mret (a_abi artifact, a_bin artifact)) (with_selected SOLC_VER w)
  = compiled (with_selected SOLC_VER w).
Proof.
  rewrite bbind_eq. unfold bbind, run_compile, compiled.
  cbn [selected with_selected b_result b_trace b_world compile_source].
  destruct (compile_source w SOLC_VER) as [out|]; [|reflexivity].
  rewrite bbind_eq. unfold bbind, popitem.
  destruct (last out) as [[k a]|]; reflexivity.
Qed.

Lemma compile_contract_run w :
  _compile_contract w
  = if bool_decide (SOLC_VER ∈ installed w) then
      compiled (with_selected SOLC_VER w)
    else if download w SOLC_VER then
      {| b_trace := BvInstall SOLC_VER
                    :: b_trace (compiled (with_selected SOLC_VER
                                            (with_installed SOLC_VER w)));
         b_world := with_selected SOLC_VER (with_installed SOLC_VER w);
         b_result := b_result (compiled (with_selected SOLC_VER
                                           (with_installed SOLC_VER w))) |}
    else
      {| b_trace := [BvInstall SOLC_VER]; b_world := w;
         b_result := Failed (SolcInstallError SOLC_VER) |}.
Proof.
  unfold _compile_contract. rewrite bbind_eq. unfold bbind.
  rewrite install_solc_once_run.
  destruct (bool_decide (SOLC_VER ∈ installed w)).
  - cbn [b_result b_world b_trace]. rewrite compile_after_set. reflexivity.
  - destruct (download w SOLC_VER); [|reflexivity].
    cbn [b_result b_world b_trace]. rewrite compile_after_set. reflexivity.
Qed.

Lemma load_cached (auto : bool) w text :
  cache w = Some text ->
  _load_or_deploy_contract auto w
  = {| b_trace := []; b_world := w; b_result := from_cache text w |}.
Proof.
  intros Hc. unfold _load_or_deploy_contract. rewrite bbind_eq.
  unfold bbind, cache_exists. cbn [b_result b_world b_trace].
  rewrite Hc. rewrite bool_decide_eq_true_2 by (eexists; reflexivity).
  rewrite bbind_eq. unfold bbind, read_cache, from_cache.
  cbn [b_result b_world b_trace]. rewrite Hc.
  destruct (cache_fault w OpReadCache); [reflexivity|].
  cbn [b_result b_world b_trace app].
  rewrite bbind_eq. unfold bbind, loads.
  destruct (json_loads text) as [d|]; [|reflexivity].
  cbn [bret b_result b_world b_trace app].
  rewrite bbind_eq. unfold bbind, getitem.
  destruct (d_address d) as [a|]; [|reflexivity].
  cbn [bret braise b_result b_world b_trace app].
  rewrite bbind_eq. unfold bbind, checksum.
  destruct (to_checksum_address a) as [address|]; [|reflexivity].
  cbn [bret braise b_result b_world b_trace app].
  rewrite bbind_eq. unfold bbind.
  destruct (d_abi d) as [abi|]; reflexivity.
Qed.

Lemma load_nothing w :
  cache w = None ->
  _load_or_deploy_contract false w
  = {| b_trace := []; b_world := w;
       b_result := Failed (RuntimeError NO_CONTRACT) |}.
Proof.
  intros Hc. unfold _load_or_deploy_contract. rewrite bbind_eq.
  unfold bbind, cache_exists. cbn [b_result b_world b_trace].
  rewrite Hc. rewrite bool_decide_eq_false_2 by (intros [x Hx]; discriminate).
  reflexivity.
Qed.

Lemma deploy_run (abi : J) (bytecode : string) w :
  (rc ← send_deployment bytecode;
   let addr := contractAddress rc in
   mkdir_data;;
   write_cache (json_dumps addr abi);;
   address ← checksum addr;
   mret (address, abi)) w
  = deployed abi bytecode w.
Proof.
  rewrite bbind_eq. unfold bbind, send_deployment, deployed.
  destruct (deploy w (nonce w) bytecode) as [rc|]; [|reflexivity].
  cbn [b_result b_world b_trace]. cbv zeta.
  rewrite bbind_eq. unfold bbind, mkdir_data.
  cbn [cache_fault with_nonce].
  destruct (cache_fault w OpMkdirData); [reflexivity|].
  cbn [b_result b_world b_trace]. rewrite bbind_eq. unfold bbind, write_cache.
  cbn [cache_fault with_data_dir with_nonce].
  destruct (cache_fault w OpWriteCache); [reflexivity|].
  cbn [b_result b_world b_trace]. rewrite bbind_eq. unfold bbind, checksum.
  destruct (to_checksum_address (contractAddress rc)); reflexivity.
Qed.

Lemma load_deploy w :
  cache w = None ->
  _load_or_deploy_contract true w
  = let c := _compile_contract w in
    match b_result c with
    | Done (abi, bytecode) =>
        let d := deployed abi bytecode (b_world c) in
        {| b_trace := b_trace c ++ b_trace d; b_world := b_world d;
           b_result := b_result d |}
    | Failed e =>
        {| b_trace := b_trace c; b_world := b_world c; b_result := Failed e |}
    end.
Proof.
  intros Hc. unfold _load_or_deploy_contract.
  erewrite pure_bind by reflexivity.
  rewrite Hc. rewrite bool_decide_eq_false_2 by (intros [x Hx]; discriminate).
  rewrite bbind_eq. unfold bbind. cbv zeta.
  destruct (b_result (_compile_contract w)) as [[abi bytecode]|e];
    [|reflexivity].
  rewrite deploy_run. reflexivity.
Qed.

(** What [_compile_contract] leaves of the machine. *)
Lemma compile_contract_frame w :
  cache (b_world (_compile_contract w)) = cache w
  /\ nonce (b_world (_compile_contract w)) = nonce w
  /\ cache_fault (b_world (_compile_contract w)) = cache_fault w
  /\ deploy (b_world (_compile_contract w)) = deploy w
  /\ Forall (fun e => forall n b rc t, e <> BvDeploy n b rc /\ e <> BvWrite t
                                       /\ e <> BvMkdir)
            (b_trace (_compile_contract w)).
Proof.
  rewrite compile_contract_run.
  destruct (bool_decide (SOLC_VER ∈ installed w));
    [|destruct (download w SOLC_VER)]; cbn;
    repeat split; auto; repeat constructor; discriminate.
Qed.

(** A cache write that raised touches the cache file only. *)
Lemma torn_cache_nonce (text : string) w :
  nonce (torn_cache text w) = nonce w.
Proof. unfold torn_cache. destruct (cache_torn w); reflexivity. Qed.

Lemma torn_cache_cache (text : string) w :
  cache (torn_cache text w)
  = match cache_torn w with
    | Some k => Some (substring 0 k text)
    | None => cache w
    end.
Proof. unfold torn_cache. destruct (cache_torn w); reflexivity. Qed.

Lemma compile_contract_torn w :
  cache_torn (b_world (_compile_contract w)) = cache_torn w.
Proof.
  rewrite compile_contract_run.
  destruct (bool_decide (SOLC_VER ∈ installed w));
    [|destruct (download w SOLC_VER)]; reflexivity.
Qed.

End StartupFacts.

(** [_install_solc_once] returns exactly when the version is installed
    or can be downloaded, and then the version is installed and set; it
    downloads only when the version is not installed, and the failure of
    the first [set_solc_version] never reaches the caller. *)
Theorem solc_is_installed_only_when_missing :
  forall (J : Type) (w : Boot J),
    let o := _install_solc_once w in
    (b_result o = Done tt
     <-> SOLC_VER ∈ installed w \/ download w SOLC_VER = true)
    /\ (b_result o = Done tt ->
        selected (b_world o) = Some SOLC_VER
        /\ SOLC_VER ∈ installed (b_world o))
    /\ (b_trace o <> [] <-> SOLC_VER ∉ installed w)
    /\ (SOLC_VER ∈ installed w -> installed (b_world o) = installed w)
    /\ b_result o <> Failed (SolcNotInstalled SOLC_VER).
Proof.
  intros J w o. subst o. rewrite install_solc_once_run.
  destruct (bool_decide_reflect (SOLC_VER ∈ installed w)) as [Hin|Hin].
  - cbn. repeat split; intros; auto; try discriminate; try contradiction;
      try congruence.
  - destruct (download w SOLC_VER) eqn:Hd; cbn.
    + repeat split; intros; auto; try discriminate; try contradiction;
        try congruence; apply list_elem_of_here.
    + repeat split; intros; auto; try discriminate; try contradiction;
        try congruence.
      destruct H; [contradiction|discriminate].
Qed.

(** With a cache file, and without one when [AUTO_DEPLOY] is off,
    start-up has no effect at all: nothing is installed, compiled,
    deployed or written.  A cache file is used whatever [AUTO_DEPLOY]
    says, and start-up returns exactly when the file can be read and
    parsed, holds both keys, and its address is accepted. *)
Theorem start_up_without_deployment :
  forall (J : Type) (P : Platform J) (auto : bool) (w : Boot J),
    let o := _load_or_deploy_contract auto w in
    (forall text, cache w = Some text ->
       b_trace o = [] /\ b_world o = w
       /\ b_result o = b_result (_load_or_deploy_contract (negb auto) w)
       /\ (forall address abi,
             b_result o = Done (address, abi)
             <-> cache_fault w OpReadCache = false
                 /\ exists d a,
                      json_loads text = Some d
                      /\ d_address d = Some a /\ d_abi d = Some abi
                      /\ to_checksum_address a = Some address))
    /\ (cache w = None -> auto = false ->
        b_trace o = [] /\ b_world o = w
        /\ b_result o = Failed (RuntimeError NO_CONTRACT)).
Proof.
  intros J P auto w o. subst o. split.
  - intros text Hc. rewrite !(load_cached _ w text Hc). cbn.
    repeat split; auto.
    + unfold from_cache in *. destruct (cache_fault w OpReadCache);
        [discriminate|reflexivity].
    + unfold from_cache in *. destruct (cache_fault w OpReadCache);
        [discriminate|].
      destruct (json_loads text) as [d|]; [|discriminate].
      destruct (d_address d) as [a|] eqn:Ea; [|discriminate].
      destruct (to_checksum_address a) as [s|] eqn:Es; [|discriminate].
      destruct (d_abi d) as [b|] eqn:Eb; [|discriminate].
      injection H as <- <-. exists d, a. auto.
    + intros (Hf & d & a & Hl & Ha & Hb & Hs). unfold from_cache.
      rewrite Hf, Hl, Ha, Hs, Hb. reflexivity.
  - intros Hc ->. rewrite (load_nothing w Hc). auto.
Qed.

Lemma start_up_without_deployment_witness :
  b_trace (_load_or_deploy_contract true
             (with_cache (json_dumps "0xc0de" "[]") blank)) = []
  /\ b_result (_load_or_deploy_contract false blank)
     = Failed (RuntimeError NO_CONTRACT).
Proof.
  split.
  - apply (proj1 (start_up_without_deployment string text_platform true
                    (with_cache (json_dumps "0xc0de" "[]") blank))
             (json_dumps "0xc0de" "[]") eq_refl).
  - apply (proj2 (start_up_without_deployment string text_platform false
                    blank) eq_refl eq_refl).
Defined.

(** Once a mined deployment is in the trace, the account's nonce has
    moved on and nothing is undone.  If the disk then refuses the
    directory, start-up fails and there is still no cache file.  If it
    refuses the file, start-up fails too and the cache file is what the
    disk left of it: none when the file could not be opened, and otherwise
    the part of the text that was written, possibly nothing; such a file
    is what the next start reads, so that it deploys nothing.  When the
    disk accepts both, the file is the last effect and holds the address
    of the receipt, whatever the status of the receipt, and the address is
    checked only after the file is written. *)
Theorem deployment_is_cached_unchecked :
  forall (J : Type) (P : Platform J) (w : Boot J) (n : nat) (bin : string)
         (rc : Receipt J),
    BvDeploy n bin (Some rc) ∈ b_trace (_load_or_deploy_contract true w) ->
    let o := _load_or_deploy_contract true w in
    n = nonce w /\ nonce (b_world o) = S (nonce w)
    /\ exists abi,
        let text := json_dumps (contractAddress rc) abi in
        if cache_fault w OpMkdirData then
          cache (b_world o) = None /\ b_result o = Failed CacheOSError
        else if cache_fault w OpWriteCache then
          b_result o = Failed CacheOSError
          /\ last (b_trace o) = Some (BvWrite text)
          /\ cache (b_world o)
             = (fun k => substring 0 k text) <$> cache_torn w
          /\ (forall auto : bool,
                is_Some (cache_torn w) ->
                b_trace (_load_or_deploy_contract auto (b_world o)) = [])
        else
          cache (b_world o) = Some text
          /\ last (b_trace o) = Some (BvWrite text)
          /\ b_result o
             = match to_checksum_address (contractAddress rc) with
               | Some address => Done (address, abi)
               | None => Failed InvalidAddress
               end.
Proof.
  intros J P w n bin rc Hin o. subst o.
  destruct (cache w) as [text|] eqn:Hc.
  { rewrite (load_cached true w text Hc) in Hin. inversion Hin. }
  rewrite (load_deploy w Hc) in *. cbv zeta in *.
  destruct (compile_contract_frame w) as (Hcache & Hnonce & Hfault & Hdep & Hno).
  pose proof (compile_contract_torn w) as Htorn.
  destruct (b_result (_compile_contract w)) as [[abi bytecode]|e].
  2:{ cbn in Hin. exfalso. rewrite Forall_forall in Hno.
      destruct (Hno _ Hin n bin (Some rc) "") as [Hx _]. congruence. }
  cbn [b_trace b_world b_result] in *.
  set (w0 := b_world (_compile_contract w)) in *.
  apply elem_of_app in Hin as [Hin|Hin].
  { exfalso. rewrite Forall_forall in Hno.
    destruct (Hno _ Hin n bin (Some rc) "") as [Hx _]. congruence. }
  unfold deployed in *. rewrite Hfault, Hnonce in *.
  destruct (deploy w0 (nonce w) bytecode) as [rc'|] eqn:Hd.
  2:{ cbn in Hin. apply list_elem_of_singleton in Hin. discriminate. }
  cbv zeta in *.
  assert (Hrc : n = nonce w /\ rc' = rc).
  { destruct (cache_fault w OpMkdirData);
      [|destruct (cache_fault w OpWriteCache)]; cbn in Hin;
      (apply elem_of_cons in Hin as [Hin|Hin];
       [injection Hin as -> _ ->; auto|]);
      repeat (apply elem_of_cons in Hin as [Hin|Hin]; [discriminate|]);
      inversion Hin. }
  destruct Hrc as [-> ->].
  assert (Hlast : forall (p : list (BootEffect J)) a b c,
            last (p ++ [a; b; c])%list = Some c).
  { intros p a b c.
    change (p ++ [a; b; c])%list with (p ++ ([a; b] ++ [c]))%list.
    rewrite app_assoc. apply last_snoc. }
  destruct (cache_fault w OpMkdirData).
  { cbn [b_trace b_world b_result nonce cache with_nonce].
    split; [reflexivity|]. split; [reflexivity|]. exists abi. cbv zeta.
    split; [rewrite Hcache; exact Hc | reflexivity]. }
  destruct (cache_fault w OpWriteCache).
  { cbn [b_trace b_world b_result].
    rewrite torn_cache_nonce, torn_cache_cache.
    cbn [cache_torn cache nonce with_data_dir with_nonce].
    rewrite Htorn, Hcache, Hc.
    split; [reflexivity|]. split; [reflexivity|]. exists abi. cbv zeta.
    split; [reflexivity|]. split; [apply Hlast|].
    split; [destruct (cache_torn w); reflexivity|].
    intros auto [k Hk].
    erewrite load_cached; [reflexivity|].
    rewrite torn_cache_cache. cbn [cache_torn with_data_dir with_nonce].
    rewrite Htorn, Hk. reflexivity. }
  cbn [b_trace b_world b_result cache with_cache nonce with_data_dir with_nonce].
  split; [reflexivity|]. split; [reflexivity|]. exists abi. cbv zeta.
  split; [reflexivity|]. split; [apply Hlast | reflexivity].
Qed.

(** A deployment that the node mined with status 0 is cached and
    returned like one that succeeded; and on a disk that has filled up,
    the deployment leaves an empty cache file, which the next start reads
    instead of deploying again. *)
Lemma deployment_is_cached_unchecked_witness :
  (rc_status {| contractAddress := "0xc0de"; rc_status := false |} = false
   /\ nonce (b_world (_load_or_deploy_contract true reverting)) = 1
   /\ exists abi,
       b_result (_load_or_deploy_contract true reverting)
       = Done ("0xc0de", abi))
  /\ (b_result (_load_or_deploy_contract true full_boot) = Failed CacheOSError
      /\ cache (b_world (_load_or_deploy_contract true full_boot)) = Some ""
      /\ b_trace (_load_or_deploy_contract true
                    (b_world (_load_or_deploy_contract true full_boot))) = []).
Proof.
  split.
  - split; [reflexivity|].
    destruct (deployment_is_cached_unchecked string text_platform reverting 0
                "6080" {| contractAddress := "0xc0de"; rc_status := false |})
      as (_ & Hn & Hx).
    + vm_compute. do 2 apply list_elem_of_further. apply list_elem_of_here.
    + split; [exact Hn|]. cbn in Hx. destruct Hx as (abi & _ & _ & Hr).
      exists abi. exact Hr.
  - destruct (deployment_is_cached_unchecked string text_platform full_boot 0
                "6080" {| contractAddress := "0xc0de"; rc_status := true |})
      as (_ & _ & abi & Hx).
    + vm_compute. do 2 apply list_elem_of_further. apply list_elem_of_here.
    + cbn in Hx. destruct Hx as (Hr & _ & Hc & Hnext).
      split; [exact Hr|]. split; [exact Hc|].
      apply (Hnext true). eexists. reflexivity.
Defined.

(** That start then fails on the empty file. *)
Example torn_cache_blocks_start_up :
  b_result (_load_or_deploy_contract true
              (b_world (_load_or_deploy_contract true full_boot)))
  = Failed JSONDecodeError.
Proof. vm_compute. reflexivity. Qed.

Lemma restart_case {J : Type} {P : Platform J} (w1 : Boot J) (a abi : J)
      (address : string) (auto : bool) :
  json_loads (json_dumps a abi)
  = Some {| d_address := Some a; d_abi := Some abi |} ->
  cache w1 = Some (json_dumps a abi) ->
  cache_fault w1 OpReadCache = false ->
  to_checksum_address a = Some address ->
  _load_or_deploy_contract auto w1
  = {| b_trace := []; b_world := w1; b_result := Done (address, abi) |}.
Proof.
  intros Hl Hc Hf Hs. rewrite (load_cached auto w1 _ Hc).
  unfold from_cache. rewrite Hf, Hl. cbn. rewrite Hs. reflexivity.
Qed.

(** Start-up is idempotent.  When a start returns, from the cache
    file or by a deployment, every later start on the machine it leaves
    returns the same address and abi with no effect: the contract is
    deployed at most once, whatever [AUTO_DEPLOY] says later. *)
Theorem restart_reuses_the_deployment :
  forall (J : Type) (P : Platform J) (auto auto' : bool) (w : Boot J)
         (address : string) (abi : J),
    (forall a b, json_loads (json_dumps a b)
                 = Some {| d_address := Some a; d_abi := Some b |}) ->
    cache_fault w OpReadCache = false ->
    b_result (_load_or_deploy_contract auto w) = Done (address, abi) ->
    _load_or_deploy_contract auto' (b_world (_load_or_deploy_contract auto w))
    = {| b_trace := [];
         b_world := b_world (_load_or_deploy_contract auto w);
         b_result := Done (address, abi) |}.
Proof.
  intros J P auto auto' w address abi Hlaw Hf Hr.
  destruct (cache w) as [text|] eqn:Hc.
  { rewrite (load_cached auto w text Hc) in *. cbn [b_world b_result] in *.
    rewrite (load_cached auto' w text Hc). rewrite Hr. reflexivity. }
  destruct auto; [|rewrite (load_nothing w Hc) in Hr; discriminate].
  destruct (compile_contract_frame w) as (Hcache & Hnonce & Hfault & Hdep & _).
  rewrite (load_deploy w Hc) in *. cbv zeta in *.
  destruct (b_result (_compile_contract w)) as [[abi0 bytecode]|e];
    [|discriminate].
  cbn [b_trace b_world b_result] in *.
  set (w0 := b_world (_compile_contract w)) in *.
  unfold deployed in *.
  destruct (deploy w0 (nonce w0) bytecode) as [rc|]; [|discriminate].
  cbv zeta in *.
  destruct (cache_fault w0 OpMkdirData); [discriminate|].
  destruct (cache_fault w0 OpWriteCache); [discriminate|].
  cbn [b_trace b_world b_result] in *.
  destruct (to_checksum_address (contractAddress rc)) as [s|] eqn:Hs;
    [|discriminate].
  injection Hr as <- <-.
  apply (restart_case _ (contractAddress rc) abi0 s auto' (Hlaw _ _));
    [reflexivity| |exact Hs].
  cbn. rewrite Hfault. exact Hf.
Qed.

Lemma read_unary_unary (n : nat) (rest : string) :
  read_unary (unary n rest) = Some (n, rest).
Proof.
  induction n as [|n IH]; cbn; [reflexivity|]. rewrite IH. reflexivity.
Qed.

Lemma take_str_app (a b : string) :
  take_str (String.length a) (a ++ b) = Some (a, b).
Proof.
  induction a as [|c a IH]; [destruct b; reflexivity|].
  rewrite str_app_cons. cbn. rewrite IH. reflexivity.
Qed.

Lemma text_platform_round_trip (a b : string) :
  json_loads (json_dumps a b)
  = Some {| d_address := Some a; d_abi := Some b |}.
Proof.
  cbn. rewrite read_unary_unary, take_str_app. reflexivity.
Qed.

Lemma restart_reuses_the_deployment_witness :
  _load_or_deploy_contract false
    (b_world (_load_or_deploy_contract true blank))
  = {| b_trace := [];
       b_world := b_world (_load_or_deploy_contract true blank);
       b_result := Done ("0xc0de", "[]") |}.
Proof.
  apply (restart_reuses_the_deployment string text_platform true false blank
           "0xc0de" "[]" text_platform_round_trip);
    vm_compute; reflexivity.
Defined.
